(** * buildman board database: a shallow embedding of [tools/buildman/boards.py]

    The development follows the layout of the Python module: string and
    path helpers first, then [output_is_new], the [Expr]/[Term] matcher,
    [KconfigScanner], [MaintainersDatabase] and finally the [Boards] class
    ([read_boards], [_build_terms], [select_boards],
    [insert_maintainers_info], [format_and_output]).

    Conventions.
    - A Python [str] is a Rocq [string] whose characters are the code
      points below 256.
    - A Python [dict] with string keys is a [gmap string _]; the
      [OrderedDict] returned by [select_boards] is an association list that
      keeps insertion order.
    - A Python exception is a value of [exn]; a function that can raise
      returns a [result].
    - Library services whose text is not part of the module (the [re]
      engine, [str.lower]/[str.upper], the Kconfig evaluator, the file
      system) are section variables. *)

From Stdlib Require Import String Ascii List Bool Arith ZArith Lia Permutation
  Sorted.
From stdpp Require Import base option list gmap strings.

Local Open Scope string_scope.
Local Open Scope list_scope.

(** ** Exceptions and the error monad *)

Inductive exn : Type :=
| AssertionError (msg : string)
| AttributeError
| KeyError (key : string)
| IndexError
| UnboundLocalError (name : string)
| OSError (errno : nat)
| ReError (pattern : string).

Inductive result (A : Type) : Type :=
| Ok (a : A)
| Raise (e : exn).
Arguments Ok {A} a.
Arguments Raise {A} e.

Definition rbind {A B : Type} (m : result A) (k : A -> result B) : result B :=
  match m with
  | Ok a => k a
  | Raise e => Raise e
  end.

Declare Scope result_scope.
Delimit Scope result_scope with result.
Notation "'let*' x ':=' m 'in' k" := (rbind m (fun x => k))
  (at level 10, x pattern, m at level 100, k at level 200) : result_scope.
Local Open Scope result_scope.

(** [for x in l: acc = body(acc, x)] where the body may raise. *)
Fixpoint for_each {A S : Type} (body : S -> A -> result S) (l : list A) (s : S)
  : result S :=
  match l with
  | [] => Ok s
  | x :: l' => let* s' := body s x in for_each body l' s'
  end.

Definition ENOENT : nat := 2.

(** ** Python strings *)

Module PyStr.

Definition chars (s : string) : list ascii := list_ascii_of_string s.
Definition of_chars (l : list ascii) : string := string_of_list_ascii l.

(** Truth value of a string: non-empty. *)
Definition truthy (s : string) : bool :=
  match s with
  | EmptyString => false
  | String _ _ => true
  end.

(** [str.isspace] on one character (code points below 256): TAB, LF, VT,
    FF, CR, the separators FS, GS, RS, US, SPACE, NEL and NBSP. *)
Definition is_space (c : ascii) : bool :=
  let n := nat_of_ascii c in
  (((9 <=? n) && (n <=? 13)) || ((28 <=? n) && (n <=? 32))
   || (n =? 133) || (n =? 160))%nat.

Definition startswith (s p : string) : bool := String.prefix p s.

Definition endswith (s p : string) : bool :=
  String.prefix (of_chars (rev (chars p))) (of_chars (rev (chars s))).

(** [s[n:]] *)
Fixpoint drop (n : nat) (s : string) : string :=
  match n, s with
  | O, _ => s
  | S _, EmptyString => EmptyString
  | S n', String _ s' => drop n' s'
  end.

(** [s[:n]] *)
Fixpoint take (n : nat) (s : string) : string :=
  match n, s with
  | O, _ => EmptyString
  | S _, EmptyString => EmptyString
  | S n', String c s' => String c (take n' s')
  end.

(** [s.find(sep)]: index of the first occurrence. *)
Fixpoint find (sep s : string) : option nat :=
  if String.prefix sep s then Some 0
  else match s with
       | EmptyString => None
       | String _ s' => S <$> find sep s'
       end.

(** [s.rfind(sep)]: index of the last occurrence. *)
Fixpoint rfind (sep s : string) : option nat :=
  match s with
  | EmptyString => if String.prefix sep s then Some 0 else None
  | String _ s' =>
      match rfind sep s' with
      | Some i => Some (S i)
      | None => if String.prefix sep s then Some 0 else None
      end
  end.

(** [sub in s] *)
Definition contains (sub s : string) : bool :=
  match find sub s with Some _ => true | None => false end.

(** [s.partition(sep)] for a non-empty [sep]. *)
Definition partition (sep s : string) : string * string * string :=
  match find sep s with
  | Some i => (take i s, sep, drop (i + String.length sep) s)
  | None => (s, "", "")
  end.

(** [s.rpartition(sep)] for a non-empty [sep]. *)
Definition rpartition (sep s : string) : string * string * string :=
  match rfind sep s with
  | Some i => (take i s, sep, drop (i + String.length sep) s)
  | None => ("", "", s)
  end.

(** [sep.join(l)] *)
Fixpoint join (sep : string) (l : list string) : string :=
  match l with
  | [] => ""
  | [x] => x
  | x :: l' => x +:+ sep +:+ join sep l'
  end.

(** [s.replace(a, b)] for single characters [a], [b]. *)
Fixpoint replace_char (a b : ascii) (s : string) : string :=
  match s with
  | EmptyString => EmptyString
  | String c s' =>
      String (if Ascii.eqb c a then b else c) (replace_char a b s')
  end.

(** [s.split()]: the maximal runs of non-whitespace characters. *)
Fixpoint split_chars (l : list ascii) : list (list ascii) :=
  match l with
  | [] => []
  | c :: l' =>
      if is_space c then split_chars l'
      else match l' with
           | [] => [[c]]
           | d :: _ =>
               if is_space d then [c] :: split_chars l'
               else match split_chars l' with
                    | [] => [[c]]
                    | w :: ws => (c :: w) :: ws
                    end
           end
  end.

Definition split (s : string) : list string :=
  map of_chars (split_chars (chars s)).

Fixpoint lstrip_chars (l : list ascii) : list ascii :=
  match l with
  | [] => []
  | c :: l' => if is_space c then lstrip_chars l' else l
  end.

Definition rstrip_chars (l : list ascii) : list ascii :=
  rev (lstrip_chars (rev l)).

(** [s.strip()] *)
Definition strip (s : string) : string :=
  of_chars (rstrip_chars (lstrip_chars (chars s))).

(** [s.ljust(n)] *)
Definition ljust (n : nat) (s : string) : string :=
  s +:+ of_chars (repeat " "%char (n - String.length s)).

(** [os.path.basename(p)]: what follows the last slash. *)
Definition basename (p : string) : string :=
  match rfind "/" p with
  | Some i => drop (S i) p
  | None => p
  end.

(** [os.path.join(a, b)] *)
Definition path_join (a b : string) : string :=
  if startswith b "/" then b
  else if negb (truthy a) || endswith a "/" then a +:+ b
  else a +:+ "/" +:+ b.

(** Line iteration over an open text file: every line keeps its
    terminating newline, the last one may lack it. *)
Fixpoint lines_chars (cur : list ascii) (l : list ascii) : list (list ascii) :=
  match l with
  | [] => match cur with [] => [] | _ => [rev cur] end
  | c :: l' =>
      if Ascii.eqb c "010"%char then rev (c :: cur) :: lines_chars [] l'
      else lines_chars (c :: cur) l'
  end.

(** Universal-newline translation done by [open(..., 'r')]: CR LF and a
    lone CR both read as LF. *)
Fixpoint universal_newlines (l : list ascii) : list ascii :=
  match l with
  | [] => []
  | c :: l' =>
      if Ascii.eqb c "013"%char then
        match l' with
        | d :: l'' =>
            if Ascii.eqb d "010"%char then "010"%char :: universal_newlines l''
            else "010"%char :: universal_newlines l'
        | [] => ["010"%char]
        end
      else c :: universal_newlines l'
  end.

Definition readlines (content : string) : list string :=
  map of_chars (lines_chars [] (universal_newlines (chars content))).

End PyStr.
Import PyStr.

Definition NL : string := String "010"%char EmptyString.

(** [d[key]] on a dict with string keys. *)
Definition getitem {V : Type} (d : gmap string V) (key : string) : result V :=
  match d !! key with
  | Some v => Ok v
  | None => Raise (KeyError key)
  end.

(** ** KconfigScanner *)

Module KconfigScanner.
Section Scanner.

(** [str.lower] and [str.upper]. *)
Variables str_lower str_upper : string -> string.

(** The Kconfig evaluator. [load_config path] stands for
    [self._conf.load_config(path)] followed by a look at
    [self._conf.syms]: the (name, [str_value]) pairs of the symbol table
    in dict order, or the exception the evaluator raised. *)
Variable load_config : string -> result (list (string * string)).

Definition _SYMBOL_TABLE : list (string * string) :=
  [ ("arch", "SYS_ARCH"); ("cpu", "SYS_CPU"); ("soc", "SYS_SOC");
    ("vendor", "SYS_VENDOR"); ("board", "SYS_BOARD");
    ("config", "SYS_CONFIG_NAME") ].

(** [syms.get(name)] *)
Definition syms_get (syms : list (string * string)) (name : string)
  : option string :=
  snd <$> List.find (fun kv => String.eqb (fst kv) name) syms.

(** [syms.get(name).str_value]; [None.str_value] raises. *)
Definition str_value (syms : list (string * string)) (name : string)
  : result string :=
  match syms_get syms name with
  | Some v => Ok v
  | None => Raise AttributeError
  end.

(** Body of the loop over [_SYMBOL_TABLE]. *)
Definition read_symbol (syms : list (string * string))
    (params : gmap string string) (entry : string * string)
  : result (gmap string string) :=
  let '(key, symbol) := entry in
  let* value := str_value syms symbol in
  if truthy value then Ok (<[key := value]> params)
  else Ok (<[key := "-"]> params).

(** Truth value of the local [target], which starts as [None]. *)
Definition target_set (target : option string) : bool :=
  match target with
  | Some t => truthy t
  | None => false
  end.

(** Body of the loop over [syms.items()] under [warn_targets]. *)
Definition check_target (leaf : string)
    (st : option string * list string) (entry : string * string)
  : option string * list string :=
  let '(target, warnings) := st in
  let '(name, value) := entry in
  if startswith name "TARGET_" && String.eqb value "y" then
    let tname := str_lower (drop 7 name) in
    if target_set target then
      (target,
       warnings ++ ["WARNING: " +:+ leaf +:+ ": Duplicate TARGET_xxx: "
                      +:+ default "" target +:+ " and " +:+ tname])
    else (Some tname, warnings)
  else st.

Definition target_warnings (leaf expect_target : string)
    (syms : list (string * string)) : list string :=
  let '(target, warnings) := fold_left (check_target leaf) syms (None, []) in
  if target_set target then warnings
  else
    let cfg_name := str_upper (replace_char "-" "_" expect_target) in
    warnings ++ ["WARNING: " +:+ leaf +:+ ": No TARGET_" +:+ cfg_name
                   +:+ " enabled"].

(** The two architecture fix-ups at the end of [scan]. *)
Definition fixup_arch (syms : list (string * string))
    (params : gmap string string) : result (gmap string string) :=
  let* arch := getitem params "arch" in
  let* armv8 :=
    (if String.eqb arch "arm" then
       let* cpu := getitem params "cpu" in Ok (String.eqb cpu "armv8")
     else Ok false) in
  let params := if armv8 then <["arch" := "aarch64"]> params else params in
  let* arch := getitem params "arch" in
  if String.eqb arch "riscv" then
    let value :=
      match str_value syms "ARCH_RV32I" with
      | Ok v => v
      | Raise _ => ""
      end in
    if String.eqb value "y" then Ok (<["arch" := "riscv32"]> params)
    else Ok (<["arch" := "riscv64"]> params)
  else Ok params.

Definition scan (defconfig : string) (warn_targets : bool)
  : result (gmap string string * list string) :=
  let leaf := basename defconfig in
  let '(expect_target, match_, rear) := partition "_defconfig" leaf in
  if negb (truthy match_ && negb (truthy rear)) then
    Raise (AssertionError (leaf +:+ " : invalid defconfig"))
  else
    let* syms := load_config defconfig in
    let* params := for_each (read_symbol syms) _SYMBOL_TABLE ∅ in
    let warnings :=
      if warn_targets then target_warnings leaf expect_target syms else [] in
    let params := <["target" := expect_target]> params in
    let* params := fixup_arch syms params in
    Ok (params, warnings).

End Scanner.
End KconfigScanner.

(** ** The environment: regular expressions and the file system *)

(** The [re] module. [re_valid p] tells whether [re.compile(p)] succeeds;
    [re_match p s] and [re_search p s] tell whether [re.match(p, s)] and
    [re.search(p, s)] return a match object for a valid [p]. *)
Record regex : Type := {
  re_valid : string -> bool;
  re_match : string -> string -> bool;
  re_search : string -> string -> bool
}.

(** The file system as the module observes it. [fs_walk top] lists the
    (dirpath, filenames) pairs of [os.walk(top)]; [fs_glob] is [glob.glob];
    [fs_open] is the whole decoded text of a file opened for reading, an
    exception when the file does not open or its bytes do not decode (the
    code meets a decoding error while it iterates over the lines);
    [fs_getctime] is [os.path.getctime], whose float is kept as an integer
    since only its order is used; [fs_exists] is [os.path.exists]. *)
Record filesystem : Type := {
  fs_walk : string -> list (string * list string);
  fs_glob : string -> list string;
  fs_open : string -> result string;
  fs_getctime : string -> result Z;
  fs_exists : string -> bool
}.

(** A [for] loop whose body may [return]: [Some r] ends the function with
    [r], [None] goes on with the next element. *)
Fixpoint for_return {A R : Type} (body : A -> result (option R)) (l : list A)
  : result (option R) :=
  match l with
  | [] => Ok None
  | x :: l' =>
      let* r := body x in
      match r with
      | Some v => Ok (Some v)
      | None => for_return body l'
      end
  end.

(** ** output_is_new *)

Section OutputIsNew.

Variable fs : filesystem.

(** [if ctime < os.path.getctime(filepath): return False] *)
Definition newer_than (ctime : Z) (filepath : string) : result (option bool) :=
  let* t := fs_getctime fs filepath in
  if (ctime <? t)%Z then Ok (Some false) else Ok None.

(** The walk over [config_dir]. *)
Definition check_defconfigs (ctime : Z) (config_dir : string)
  : result (option bool) :=
  for_return
    (fun '(dirpath, filenames) =>
       for_return
         (fun filename =>
            if startswith filename "." then Ok None
            else newer_than ctime (path_join dirpath filename))
         (List.filter (fun f => endswith f "_defconfig") filenames))
    (fs_walk fs config_dir).

(** The walk over [srcdir]. *)
Definition check_kconfigs (ctime : Z) (srcdir : string)
  : result (option bool) :=
  for_return
    (fun '(dirpath, filenames) =>
       for_return
         (fun filename =>
            if endswith filename "~"
               || (negb (startswith filename "Kconfig")
                   && negb (String.eqb filename "MAINTAINERS"))
            then Ok None
            else newer_than ctime (path_join dirpath filename))
         filenames)
    (fs_walk fs srcdir).

(** Body of the loop over the lines of the existing output. *)
Definition check_line (config_dir : string) (line : string)
  : result (option bool) :=
  if contains "Options," line then Ok (Some false)
  else
    match line with
    | EmptyString => Raise IndexError
    | String c _ =>
        if Ascii.eqb c "#" || String.eqb line NL then Ok None
        else
          match nth_error (split line) 6 with
          | None => Raise IndexError
          | Some field =>
              let defconfig := field +:+ "_defconfig" in
              if negb (fs_exists fs (path_join config_dir defconfig))
              then Ok (Some false)
              else Ok None
          end
    end.

Definition output_is_new (output config_dir srcdir : string) : result bool :=
  match fs_getctime fs output with
  | Raise (OSError errno) =>
      if Nat.eqb errno ENOENT then Ok false else Raise (OSError errno)
  | Raise e => Raise e
  | Ok ctime =>
      let* r := check_defconfigs ctime config_dir in
      match r with
      | Some b => Ok b
      | None =>
          let* r := check_kconfigs ctime srcdir in
          match r with
          | Some b => Ok b
          | None =>
              let* content := fs_open fs output in
              let* r := for_return (check_line config_dir) (readlines content) in
              match r with
              | Some b => Ok b
              | None => Ok true
              end
          end
      end
  end.

End OutputIsNew.

(** ** Expr and Term *)

Section Matching.

Variable re : regex.

(** An [Expr] keeps the source text; the compiled pattern is the engine's
    view of that text. *)
Record Expr : Type := { _expr : string }.

(** [Expr(expr)] *)
Definition Expr_new (expr : string) : result Expr :=
  if re_valid re expr then Ok {| _expr := expr |} else Raise (ReError expr).

(** [Expr.matches] *)
Fixpoint Expr_matches (self : Expr) (props : list string) : bool :=
  match props with
  | [] => false
  | prop :: props' =>
      if re_match re (_expr self) prop then true else Expr_matches self props'
  end.

Definition Expr_str (self : Expr) : string := _expr self.

Record Term : Type := { _expr_list : list Expr }.

(** [Term()] *)
Definition Term_new : Term := {| _expr_list := [] |}.

(** [Term.add_expr] *)
Definition Term_add_expr (self : Term) (expr : string) : result Term :=
  let* e := Expr_new expr in
  Ok {| _expr_list := _expr_list self ++ [e] |}.

(** [Term.__str__] *)
Definition Term_str (self : Term) : string :=
  join "&" (map Expr_str (_expr_list self)).

Fixpoint all_match (exprs : list Expr) (props : list string) : bool :=
  match exprs with
  | [] => true
  | expr :: exprs' =>
      if negb (Expr_matches expr props) then false else all_match exprs' props
  end.

(** [Term.matches] *)
Definition Term_matches (self : Term) (props : list string) : bool :=
  all_match (_expr_list self) props.

End Matching.

(** ** MaintainersDatabase *)

Module MaintainersDatabase.

(** [self.database] maps a target to its (status, maintainers) tuple;
    [self.warnings] grows at the end. *)
Record t : Type := {
  database : gmap string (string * list string);
  warnings : list string
}.

(** [MaintainersDatabase()] *)
Definition new : t := {| database := ∅; warnings := [] |}.

Definition warn (self : t) (msg : string) : t :=
  {| database := database self; warnings := warnings self ++ [msg] |}.

Definition get_status (self : t) (target : string) : string * t :=
  match database self !! target with
  | None =>
      ("-", warn self ("WARNING: no status info for '" +:+ target +:+ "'"))
  | Some (tmp, _) =>
      if startswith tmp "Maintained" then ("Active", self)
      else if startswith tmp "Supported" then ("Active", self)
      else if startswith tmp "Orphan" then ("Orphan", self)
      else ("-", warn self ("WARNING: " +:+ tmp +:+ ": unknown status for '"
                              +:+ target +:+ "'"))
  end.

(** [len(maint_list) > 1 or (maint_list and maint_list[0] != '-')] *)
Definition has_maintainer (maint_list : list string) : bool :=
  (1 <? length maint_list)%nat
  || match maint_list with
     | [] => false
     | m :: _ => negb (String.eqb m "-")
     end.

Definition get_maintainers (self : t) (target : string) : string * t :=
  let missing :=
    ("", warn self ("WARNING: no maintainers for '" +:+ target +:+ "'")) in
  match database self !! target with
  | Some (status, maint_list) =>
      if negb (startswith status "Orphan") then
        if has_maintainer maint_list then (join ":" maint_list, self)
        else missing
      else missing
  | None => missing
  end.

Section ParseFile.

Variable re : regex.
Variable fs : filesystem.

(** The locals of [parse_file] together with the database. *)
Record pstate : Type := {
  targets : list string;
  maintainers : list string;
  status : string;
  db : gmap string (string * list string)
}.

(** [add_targets]: every pending target is bound to the current status
    and maintainer list. *)
Definition add_targets (st : pstate) : gmap string (string * list string) :=
  fold_left (fun d target => <[target := (status st, maintainers st)]> d)
            (targets st) (db st).

(** [front[:-1]] *)
Definition drop_last (s : string) : string :=
  take (String.length s - 1) s.

(** Targets added by one [F:] line: the glob results that lie in
    [srcdir/configs/] and end in the defconfig suffix. *)
Definition f_item (srcdir : string) (acc : list string) (item : string)
  : list string :=
  let '(front, match_, rear) := partition "configs/" item in
  let front := if endswith front "/" then drop_last front else front in
  if String.eqb front srcdir && truthy match_ then
    let '(front, match_, rear) := rpartition "_defconfig" rear in
    if truthy match_ && negb (truthy rear) then acc ++ [front] else acc
  else acc.

(** Targets added by one [N:] line: body of the loop over the file names
    of one directory of the walk. *)
Definition n_item (srcdir rest dirpath : string) (acc : list string)
    (cfg : string) : result (list string) :=
  let path := drop (String.length srcdir + 1) (path_join dirpath cfg) in
  let '(front, match_, rear) := partition "configs/" path in
  if truthy front || negb (truthy match_) then Ok acc
  else
    let '(front, match_, rear) := rpartition "_defconfig" rear in
    if truthy match_ && negb (truthy rear) then
      if re_valid re rest then
        if re_search re rest front then Ok (acc ++ [front]) else Ok acc
      else Raise (ReError rest)
    else Ok acc.

(** Body of the loop over the lines of a MAINTAINERS file. *)
Definition parse_line (srcdir : string) (st : pstate) (line : string)
  : result pstate :=
  let line := if String.eqb (take 3 line) "#M:" then drop 1 line else line in
  let tag := take 2 line in
  let rest := strip (drop 2 line) in
  if String.eqb tag "M:" then
    Ok {| targets := targets st; maintainers := maintainers st ++ [rest];
          status := status st; db := db st |}
  else if String.eqb tag "F:" then
    let glob_path := path_join srcdir rest in
    Ok {| targets := fold_left (f_item srcdir) (fs_glob fs glob_path) (targets st);
          maintainers := maintainers st; status := status st; db := db st |}
  else if String.eqb tag "S:" then
    Ok {| targets := targets st; maintainers := maintainers st;
          status := rest; db := db st |}
  else if String.eqb tag "N:" then
    let* ts :=
      for_each
        (fun acc '(dirpath, fnames) =>
           for_each (n_item srcdir rest dirpath) fnames acc)
        (fs_walk fs (path_join srcdir "configs")) (targets st) in
    Ok {| targets := ts; maintainers := maintainers st;
          status := status st; db := db st |}
  else if String.eqb line NL then
    Ok {| targets := []; maintainers := []; status := "-";
          db := add_targets st |}
  else Ok st.

(** The loop of [parse_file] and the final [add_targets(linenum)];
    [linenum] is unbound when the file has no line at all. *)
Definition parse_lines (srcdir : string) (lines : list string)
    (d : gmap string (string * list string))
  : result (gmap string (string * list string)) :=
  let* st := for_each (parse_line srcdir) lines
               {| targets := []; maintainers := []; status := "-"; db := d |} in
  match lines with
  | [] => Raise (UnboundLocalError "linenum")
  | _ => Ok (add_targets st)
  end.

Definition parse_file (self : t) (srcdir fname : string) : result t :=
  let* content := fs_open fs fname in
  let* d := parse_lines srcdir (readlines content) (database self) in
  Ok {| database := d; warnings := warnings self |}.

End ParseFile.
End MaintainersDatabase.

(** ** Sorting *)

(** [sorted] and [list.sort] are stable; insertion at the first position
    whose element is not smaller keeps equal keys in their original order. *)
Section Sort.
Context {A : Type} (le : A -> A -> bool).

Fixpoint insert_sorted (x : A) (l : list A) : list A :=
  match l with
  | [] => [x]
  | y :: l' => if le x y then x :: l else y :: insert_sorted x l'
  end.

Fixpoint sort_by (l : list A) : list A :=
  match l with
  | [] => []
  | x :: l' => insert_sorted x (sort_by l')
  end.
End Sort.

(** ** The OrderedDict returned by select_boards *)

Definition odict : Type := list (string * list string).

(** [d[k] = v]: a present key keeps its position. *)
Fixpoint od_set (k : string) (v : list string) (d : odict) : odict :=
  match d with
  | [] => [(k, v)]
  | (k', v') :: d' =>
      if String.eqb k' k then (k, v) :: d' else (k', v') :: od_set k v d'
  end.

(** [d.get(k)] *)
Fixpoint od_get (k : string) (d : odict) : option (list string) :=
  match d with
  | [] => None
  | (k', v') :: d' => if String.eqb k' k then Some v' else od_get k d'
  end.

(** [d[k].append(x)] *)
Definition od_append (k x : string) (d : odict) : result odict :=
  match od_get k d with
  | Some l => Ok (od_set k (l ++ [x]) d)
  | None => Raise (KeyError k)
  end.

(** ** Boards *)

Module Boards.

(** A [Board] as the module uses it: the eight constructor arguments,
    the property list [props] that terms are matched against, and the
    [build_it] flag. *)
Record Board : Type := {
  status : string;
  arch : string;
  cpu : string;
  soc : string;
  vendor : string;
  board_name : string;
  target : string;
  cfg_name : string;
  props : list string;
  build_it : bool
}.

Definition set_build_it (brd : Board) : Board :=
  {| status := status brd; arch := arch brd; cpu := cpu brd; soc := soc brd;
     vendor := vendor brd; board_name := board_name brd;
     target := target brd; cfg_name := cfg_name brd; props := props brd;
     build_it := true |}.

(** [word.split('&')] *)
Fixpoint split_on_chars (sep : ascii) (cur l : list ascii) : list (list ascii) :=
  match l with
  | [] => [rev cur]
  | c :: l' =>
      if Ascii.eqb c sep then rev cur :: split_on_chars sep [] l'
      else split_on_chars sep (c :: cur) l'
  end.

Definition split_on (sep : ascii) (s : string) : list string :=
  map of_chars (split_on_chars sep [] (chars s)).

Definition fields : list string :=
  ["status"; "arch"; "cpu"; "soc"; "vendor"; "board"; "target"; "config";
   "maintainers"].

Section BoardsClass.

Variable re : regex.
Variable fs : filesystem.
Variable str_lower : string -> string.

(** [__file__], which the header of the database quotes. *)
Variable module_file : string.

(** The property list that [Board.__init__] derives from its eight
    arguments; the [Board] class is defined in [buildman/board.py]. *)
Variable board_props : list string -> list string.

(** Modelled from the spec: the constructor of [Board], which lies in
    [buildman/board.py]. The record is the eight-field line of the
    database in column order, and the selection flag is the selector's to
    set, so a new board is not selected. *)
Definition Board_new (args : list string) : Board :=
  {| status := nth 0 args ""; arch := nth 1 args ""; cpu := nth 2 args "";
     soc := nth 3 args ""; vendor := nth 4 args "";
     board_name := nth 5 args ""; target := nth 6 args "";
     cfg_name := nth 7 args ""; props := board_props args;
     build_it := false |}.

(** *** read_boards *)

Definition desentinel (field : string) : string :=
  if String.eqb field "-" then "" else field.

(** Body of the loop over the lines of the database. *)
Definition read_board_line (boards : list Board) (line : string)
  : result (list Board) :=
  match line with
  | EmptyString => Raise IndexError
  | String c _ =>
      if Ascii.eqb c "#" then Ok boards
      else
        let fields := split line in
        match fields with
        | [] => Ok boards
        | _ :: _ =>
            let fields := map desentinel fields in
            let fields := fields ++ repeat "" (8 - length fields) in
            let fields :=
              if (8 <? length fields)%nat then firstn 8 fields else fields in
            Ok (boards ++ [Board_new fields])
        end
  end.

Definition read_boards (self : list Board) (fname : string)
  : result (list Board) :=
  let* content := fs_open fs fname in
  for_each read_board_line (readlines content) self.

(** [get_selected_names] *)
Definition get_selected_names (self : list Board) : list string :=
  map target (List.filter build_it self).

(** *** _build_terms *)

(** The symbols of one whitespace-separated word: its non-empty pieces
    with an ['&'] after each, the last ['&'] dropped. *)
Definition word_syms (word : string) : list string :=
  removelast
    (flat_map (fun term => if truthy term then [term; "&"] else ["&"])
              (split_on "&" word)).

Definition arg_syms (args : list string) : list string :=
  flat_map (fun arg => flat_map word_syms (split arg)) args.

(** Body of the loop over [syms]; [oper] is [None] or ['&']. *)
Definition build_step (st : list Term * option Term * bool) (sym : string)
  : result (list Term * option Term * bool) :=
  let '(terms, term, oper) := st in
  if String.eqb sym "&" then Ok (terms, term, true)
  else if oper then
    match term with
    | None => Raise AttributeError
    | Some t => let* t' := Term_add_expr re t sym in Ok (terms, Some t', false)
    end
  else
    let terms := match term with Some t => terms ++ [t] | None => terms end in
    let* t := Term_add_expr re Term_new sym in
    Ok (terms, Some t, oper).

Definition _build_terms (args : list string) : result (list Term) :=
  let* (terms, term, _) := for_each build_step (arg_syms args) ([], None, false) in
  Ok (match term with Some t => terms ++ [t] | None => terms end).

(** *** select_boards *)

(** The loop over [terms] in [_check_board], left at the first match. *)
Fixpoint first_match (terms : list Term) (props : list string)
  : option string :=
  match terms with
  | [] => None
  | term :: terms' =>
      if Term_matches re term props then Some (Term_str term)
      else first_match terms' props
  end.

(** The loop over [exclude_list], left at the first match. *)
Fixpoint excluded (exclude_list : list Expr) (props : list string) : bool :=
  match exclude_list with
  | [] => false
  | expr :: rest =>
      if Expr_matches re expr props then true else excluded rest props
  end.

(** [_check_board]; the closure variables [result] and [found] are
    threaded through, the board comes back with its flag. *)
Definition _check_board (terms : list Term) (exclude_list : list Expr)
    (brds : list string) (st : odict * list string) (brd : Board)
  : result (Board * (odict * list string)) :=
  let '(result, found) := st in
  let '(matching_term, build, found) :=
    match terms with
    | _ :: _ =>
        match first_match terms (props brd) with
        | Some s => (Some s, true, found)
        | None => (None, false, found)
        end
    | [] =>
        match brds with
        | _ :: _ =>
            if existsb (String.eqb (target brd)) brds
            then (None, true, found ++ [target brd])
            else (None, false, found)
        | [] => (None, true, found)
        end
    end in
  let build := if excluded exclude_list (props brd) then false else build in
  if build then
    let* result :=
      match matching_term with
      | Some s => if truthy s then od_append s (target brd) result else Ok result
      | None => Ok result
      end in
    let* result := od_append "all" (target brd) result in
    Ok (set_build_it brd, (result, found))
  else Ok (brd, (result, found)).

(** The "Boards not found" warning. The iteration order of the Python
    set [remaining] is unspecified; [elements] stands for it. *)
Definition not_found_warnings (brds found : list string) : list string :=
  match brds with
  | [] => []
  | _ :: _ =>
      let remaining : gset string := list_to_set brds ∖ list_to_set found in
      match elements remaining with
      | [] => []
      | names => ["Boards not found: " +:+ join ", " names +:+ NL]
      end
  end.

(** Body of the loop over [self._boards]. *)
Definition check_step (terms : list Term) (exclude_list : list Expr)
    (brds : list string) (st : list Board * (odict * list string))
    (brd : Board) : result (list Board * (odict * list string)) :=
  let '(done, st) := st in
  let* (brd', st') := _check_board terms exclude_list brds st brd in
  Ok (done ++ [brd'], st').

(** Body of the loop that compiles the exclusions. *)
Definition add_exclude (exclude_list : list Expr) (expr : string)
  : result (list Expr) :=
  let* e := Expr_new re expr in Ok (exclude_list ++ [e]).

(** [select_boards] returns the boards with their flags, the dictionary
    and the warnings. *)
Definition select_boards (self : list Board) (args exclude brds : list string)
  : result (list Board * odict * list string) :=
  let* terms := _build_terms args in
  let result := od_set "all" [] [] in
  let result := fold_left (fun r term => od_set (Term_str term) [] r) terms result in
  let* exclude_list := for_each add_exclude exclude [] in
  let* (boards, (result, found)) :=
    for_each (check_step terms exclude_list brds) self ([], (result, [])) in
  Ok (boards, result, not_found_warnings brds found).

(** *** insert_maintainers_info *)

(** Body of the walk that looks for MAINTAINERS files. *)
Definition parse_maintainers (srcdir : string) (database : MaintainersDatabase.t)
    (entry : string * list string) : result MaintainersDatabase.t :=
  let '(dirpath, filenames) := entry in
  if existsb (String.eqb "MAINTAINERS") filenames
     && negb (contains "tools/buildman" dirpath)
  then MaintainersDatabase.parse_file re fs database srcdir
         (path_join dirpath "MAINTAINERS")
  else Ok database.

(** Body of the loop over [params_list]: the dict gains its
    ['maintainers'] and ['status'] keys. *)
Definition merge_params (database : MaintainersDatabase.t)
    (params : gmap string string)
  : result (gmap string string * MaintainersDatabase.t) :=
  let* target := getitem params "target" in
  let '(maintainers, database) :=
    MaintainersDatabase.get_maintainers database target in
  let params := <["maintainers" := maintainers]> params in
  let '(status, database) :=
    if truthy maintainers then MaintainersDatabase.get_status database target
    else ("-", database) in
  Ok (<["status" := status]> params, database).

(** The loop over [params_list], which stores every updated dict back. *)
Definition merge_step
    (st : list (gmap string string) * MaintainersDatabase.t)
    (params : gmap string string)
  : result (list (gmap string string) * MaintainersDatabase.t) :=
  let '(done, database) := st in
  let* (params', database') := merge_params database params in
  Ok (done ++ [params'], database').

(** [insert_maintainers_info] returns the updated [params_list] and the
    sorted warnings. *)
Definition insert_maintainers_info (srcdir : string)
    (params_list : list (gmap string string))
  : result (list (gmap string string) * list string) :=
  let* database :=
    for_each (parse_maintainers srcdir) (fs_walk fs srcdir)
             MaintainersDatabase.new in
  let* (params_list', database) :=
    for_each merge_step params_list ([], database) in
  Ok (params_list', sort_by String.leb (MaintainersDatabase.warnings database)).

(** *** format_and_output *)

Definition COMMENT_BLOCK : string :=
  "#" +:+ NL +:+
  "# List of boards" +:+ NL +:+
  "#   Automatically generated by " +:+ module_file +:+ ": don't edit" +:+ NL +:+
  "#" +:+ NL +:+
  "# Status, Arch, CPU, SoC, Vendor, Board, Target, Config, Maintainers" +:+ NL +:+
  NL.

(** [max_length[field] = max(max_length[field], len(params[field]))] *)
Definition widen (params : gmap string string) (max_length : gmap string nat)
    (field : string) : result (gmap string nat) :=
  let* old := getitem max_length field in
  let* value := getitem params field in
  Ok (<[field := Nat.max old (String.length value)]> max_length).

Definition widen_all (max_length : gmap string nat)
    (params : gmap string string) : result (gmap string nat) :=
  for_each (widen params) fields max_length.

Definition column_widths (params_list : list (gmap string string))
  : result (gmap string nat) :=
  for_each widen_all params_list (list_to_map (map (fun f => (f, 0)) fields)).

(** [line += '  ' + params[field].ljust(max_length[field])] *)
Definition add_column (max_length : gmap string nat)
    (params : gmap string string) (line field : string) : result string :=
  let* value := getitem params field in
  let* width := getitem max_length field in
  Ok (line +:+ "  " +:+ ljust width value).

Definition format_line (max_length : gmap string nat)
    (params : gmap string string) : result string :=
  let* line := for_each (add_column max_length params) fields "" in
  Ok line.

(** [output_lines.append(line.strip())] *)
Definition add_line (max_length : gmap string nat) (output_lines : list string)
    (params : gmap string string) : result (list string) :=
  let* line := format_line max_length params in
  Ok (output_lines ++ [strip line]).

(** Order of [output_lines.sort(key=str.lower)]. *)
Definition lower_le (a b : string) : bool :=
  String.leb (str_lower a) (str_lower b).

(** The text that [format_and_output] writes to [output]; the write itself
    is the last step of [format_and_output_to] below. *)
Definition format_and_output (params_list : list (gmap string string))
  : result string :=
  let* max_length := column_widths params_list in
  let* output_lines := for_each (add_line max_length) params_list [] in
  let output_lines := sort_by lower_le output_lines in
  Ok (COMMENT_BLOCK +:+ join NL output_lines +:+ NL).

(** [with open(output, 'w', encoding="utf-8") as outf: outf.write(text)]:
    the file system takes the text or raises. *)
Variable fs_write : string -> string -> result unit.

(** [format_and_output] with its last statement: the text is computed
    first, then the output is opened and written. *)
Definition format_and_output_to (params_list : list (gmap string string))
    (output : string) : result unit :=
  let* text := format_and_output params_list in
  fs_write output text.

(** *** add_board and the lookups *)

Definition add_board (self : list Board) (brd : Board) : list Board :=
  self ++ [brd].

Definition get_list (self : list Board) : list Board := self.

(** [d[k] = brd] on an OrderedDict of boards: a present key keeps its
    position. *)
Fixpoint bd_set (k : string) (brd : Board) (d : list (string * Board))
  : list (string * Board) :=
  match d with
  | [] => [(k, brd)]
  | (k', brd') :: d' =>
      if String.eqb k' k then (k, brd) :: d' else (k', brd') :: bd_set k brd d'
  end.

(** [d.get(k)] *)
Fixpoint bd_get (k : string) (d : list (string * Board)) : option Board :=
  match d with
  | [] => None
  | (k', brd') :: d' => if String.eqb k' k then Some brd' else bd_get k d'
  end.

Definition get_dict (self : list Board) : list (string * Board) :=
  fold_left (fun d brd => bd_set (target brd) brd d) self [].

Definition get_selected_dict (self : list Board) : list (string * Board) :=
  fold_left (fun d brd => if build_it brd then bd_set (target brd) brd d else d)
            self [].

Definition get_selected (self : list Board) : list Board :=
  List.filter build_it self.

(** *** scan_defconfigs: the files and their shares *)

(** Body of the walk that collects the defconfig files. *)
Definition collect_defconfigs (acc : list string)
    (entry : string * list string) : list string :=
  let '(dirpath, filenames) := entry in
  fold_left
    (fun acc filename =>
       if startswith filename "." then acc
       else acc ++ [path_join dirpath filename])
    (List.filter (fun f => endswith f "_defconfig") filenames) acc.

Definition all_defconfigs (config_dir : string) : list string :=
  fold_left collect_defconfigs (fs_walk fs config_dir) [].

(** [l[a:b]] for indices that are not negative. *)
Definition slice {A : Type} (a b : Z) (l : list A) : list A :=
  firstn (Z.to_nat b - Z.to_nat a) (skipn (Z.to_nat a) l).

(** [range(jobs)] *)
Definition range (jobs : Z) : list Z := map Z.of_nat (seq 0 (Z.to_nat jobs)).

(** The share of process [i]:
    [all_defconfigs[total_boards * i // jobs : total_boards * (i + 1) // jobs]]. *)
Definition share (defconfigs : list string) (jobs i : Z) : list string :=
  let total_boards := Z.of_nat (length defconfigs) in
  slice (total_boards * i / jobs) (total_boards * (i + 1) / jobs) defconfigs.

Definition shares (defconfigs : list string) (jobs : Z) : list (list string) :=
  map (share defconfigs jobs) (range jobs).

Variable str_upper : string -> string.
Variable load_config : string -> result (list (string * string)).

(** [scan_defconfigs_for_multiprocess]: what the process has put in its
    queue when it ends, and the exception that ended it if one did. *)
Fixpoint scan_defconfigs_for_multiprocess (defconfigs : list string)
    (warn_targets : bool)
  : list (gmap string string * list string) * option exn :=
  match defconfigs with
  | [] => ([], None)
  | defconfig :: rest =>
      match KconfigScanner.scan str_lower str_upper load_config
              defconfig warn_targets with
      | Raise e => ([], Some e)
      | Ok item =>
          let '(queue, failure) :=
            scan_defconfigs_for_multiprocess rest warn_targets in
          (item :: queue, failure)
      end
  end.

End BoardsClass.
End Boards.

(** ** Concrete environments used by the examples *)

Module Examples.

(** The [re] engine on patterns made of letters and digits only: such a
    pattern compiles, [re.match] succeeds on the strings it is a prefix
    of, and [re.search] on the strings that contain it. *)
Definition literal_re : regex :=
  {| re_valid := fun _ => true;
     re_match := fun p s => String.prefix p s;
     re_search := fun p s => contains p s |}.

(** [str.lower] and [str.upper] on ASCII text. *)
Definition ascii_lower_char (c : ascii) : ascii :=
  let n := nat_of_ascii c in
  if ((65 <=? n) && (n <=? 90))%nat then ascii_of_nat (n + 32) else c.

Definition ascii_upper_char (c : ascii) : ascii :=
  let n := nat_of_ascii c in
  if ((97 <=? n) && (n <=? 122))%nat then ascii_of_nat (n - 32) else c.

Fixpoint map_string (f : ascii -> ascii) (s : string) : string :=
  match s with
  | EmptyString => EmptyString
  | String c s' => String (f c) (map_string f s')
  end.

Definition ascii_lower : string -> string := map_string ascii_lower_char.
Definition ascii_upper : string -> string := map_string ascii_upper_char.

(** A file system holding the given files (path, ctime, text); missing
    paths raise ENOENT, nothing is listed by walks or globs. *)
Definition files_fs (walks : list (string * list (string * list string)))
    (globs : list (string * list string))
    (files : list (string * (Z * string))) : filesystem :=
  let lookup {V} (k : string) (l : list (string * V)) : option V :=
    snd <$> List.find (fun kv => String.eqb (fst kv) k) l in
  {| fs_walk := fun top => default [] (lookup top walks);
     fs_glob := fun pat => default [] (lookup pat globs);
     fs_open := fun p =>
       match lookup p files with
       | Some (_, text) => Ok text
       | None => Raise (OSError ENOENT)
       end;
     fs_getctime := fun p =>
       match lookup p files with
       | Some (t, _) => Ok t
       | None => Raise (OSError ENOENT)
       end;
     fs_exists := fun p =>
       match lookup p files with Some _ => true | None => false end |}.

(** A scan result before the fix-ups, and the same record after them. *)
Definition armv8_params : gmap string string :=
  list_to_map [("arch", "arm"); ("cpu", "armv8"); ("target", "foo")].

Definition aarch64_params : gmap string string :=
  <["arch" := "aarch64"]> armv8_params.

(** A source tree with one MAINTAINERS file that names [bar_defconfig],
    gives it the status "Maintained" and lists no maintainer. *)
Definition bar_tree : filesystem :=
  files_fs [(".", [(".", ["MAINTAINERS"])])]
           [("./configs/bar_defconfig", ["./configs/bar_defconfig"])]
           [("./MAINTAINERS",
             (0%Z, "F: configs/bar_defconfig" +:+ NL +:+ "S: Maintained" +:+ NL))].

Definition bar_database : MaintainersDatabase.t :=
  {| MaintainersDatabase.database := {["bar" := ("Maintained", [])]};
     MaintainersDatabase.warnings := [] |}.

Definition bar_params : gmap string string :=
  list_to_map [("arch", "arm"); ("cpu", "armv7"); ("target", "bar")].

(** Two boards of a database: an ARM board named [foo] and an x86 board
    named [bar]. *)
Definition foo_board : Boards.Board :=
  {| Boards.status := "Active"; Boards.arch := "arm"; Boards.cpu := "armv7";
     Boards.soc := "socx"; Boards.vendor := "acme"; Boards.board_name := "foo";
     Boards.target := "foo"; Boards.cfg_name := "foo";
     Boards.props := ["foo"; "arm"; "armv7"; "foo"; "acme"; "socx"; "foo"];
     Boards.build_it := false |}.

Definition bar_board : Boards.Board :=
  {| Boards.status := "Active"; Boards.arch := "x86"; Boards.cpu := "x86";
     Boards.soc := "-"; Boards.vendor := "intel"; Boards.board_name := "bar";
     Boards.target := "bar"; Boards.cfg_name := "bar";
     Boards.props := ["bar"; "x86"; "x86"; "bar"; "intel"; "-"; "bar"];
     Boards.build_it := false |}.


(** A MAINTAINERS file in which two records name [bar_defconfig] and a
    third one names [zed_defconfig]. *)
Definition two_records : string :=
  "M: Alice" +:+ NL +:+ "F: configs/bar_defconfig" +:+ NL +:+
  "S: Maintained" +:+ NL +:+ NL +:+
  "M: Bob" +:+ NL +:+ "F: configs/bar_defconfig" +:+ NL +:+
  "S: Orphan" +:+ NL +:+ NL +:+
  "M: Carol" +:+ NL +:+ "F: configs/zed_defconfig" +:+ NL +:+
  "S: Maintained" +:+ NL.

Definition two_records_tree : filesystem :=
  files_fs []
           [("./configs/bar_defconfig", ["./configs/bar_defconfig"]);
            ("./configs/zed_defconfig", ["./configs/zed_defconfig"])]
           [("./MAINTAINERS", (0%Z, two_records))].

(** A record whose config name differs from its target, the database
    written for it, and a tree that holds the defconfig of the target. *)
Definition foo_params : gmap string string :=
  list_to_map
    [("status", "Active"); ("arch", "arm"); ("cpu", "armv7"); ("soc", "-");
     ("vendor", "acme"); ("board", "foo"); ("target", "foo");
     ("config", "bar"); ("maintainers", "Alice")].

Definition foo_database : string :=
  match Boards.format_and_output ascii_lower "tools/buildman/boards.py"
          [foo_params] with
  | Ok text => text
  | Raise _ => ""
  end.

Definition foo_tree : filesystem :=
  files_fs [("configs", [("configs", ["foo_defconfig"])]);
            (".", [(".", ["Kconfig"; "MAINTAINERS"; "boards.cfg"])])]
           []
           [("boards.cfg", (10%Z, foo_database));
            ("configs/foo_defconfig", (5%Z, ""));
            ("./Kconfig", (5%Z, ""));
            ("./MAINTAINERS", (5%Z, ""))].


(** Two records; the value "-" stands for an unset cpu or soc. *)
Definition zed_params : gmap string string :=
  list_to_map
    [("status", "Active"); ("arch", "arm"); ("cpu", "-"); ("soc", "socx");
     ("vendor", "acme"); ("board", "zed"); ("target", "zed");
     ("config", "zed"); ("maintainers", "")].

(** A tree that holds one text file. *)
Definition one_file (path text : string) : filesystem :=
  files_fs [] [] [(path, (0%Z, text))].

(** A database whose first line is too short and whose second line names
    a target without defconfig, in an otherwise empty tree. *)
Definition short_line_database : string :=
  "foo" +:+ NL +:+
  "Active  arm  armv7  -  acme  gone  gone  gone  Alice" +:+ NL.

Definition short_line_tree : filesystem :=
  files_fs [] [] [("boards.cfg", (10%Z, short_line_database))].

(** An evaluator that answers every defconfig with the symbols of an ARMv8
    board, two of whose TARGET symbols are enabled. *)
Definition foo_syms : list (string * string) :=
  [("SYS_ARCH", "arm"); ("SYS_CPU", "armv8"); ("SYS_SOC", "");
   ("SYS_VENDOR", "acme"); ("SYS_BOARD", "foo"); ("SYS_CONFIG_NAME", "foo");
   ("TARGET_FOO", "y"); ("TARGET_BAR", "n"); ("TARGET_FOO2", "y")].

Definition foo_evaluator (path : string) : result (list (string * string)) :=
  Ok foo_syms.

Definition foo_scan : gmap string string * list string :=
  match KconfigScanner.scan ascii_lower ascii_upper foo_evaluator
          "configs/foo_defconfig" true with
  | Ok item => item
  | Raise _ => (∅, [])
  end.

(** A tree whose only MAINTAINERS file names no defconfig. *)
Definition plain_tree : filesystem :=
  files_fs [(".", [(".", ["MAINTAINERS"])])] []
           [("./MAINTAINERS",
             (0%Z, "M: Alice" +:+ NL +:+ "S: Maintained" +:+ NL +:+ NL +:+
                   "#M: Bob" +:+ NL))].

(** A record that lacks its target. *)
Definition no_target_params : gmap string string :=
  list_to_map [("arch", "arm"); ("cpu", "armv7")].

(** A hand-edited database: a comment, a blank line, a short line, a
    line of blanks and a line with eleven fields. *)
Definition edited_database : string :=
  "# boards" +:+ NL +:+ NL +:+
  "Active arm -" +:+ NL +:+
  "   " +:+ NL +:+
  "Active arm armv7 - acme foo foo foo Alice <a@b.c> extra" +:+ NL.

(** [literal_re] with patterns that do not compile: those that hold an
    opening parenthesis, which [re] refuses when it is never closed. *)
Definition strict_re : regex :=
  {| re_valid := fun p => negb (contains "(" p);
     re_match := fun p s => String.prefix p s;
     re_search := fun p s => contains p s |}.

(** The tree of [foo_tree] after [foo_defconfig] was edited. *)
Definition edited_tree : filesystem :=
  files_fs [("configs", [("configs", ["foo_defconfig"])])] []
           [("boards.cfg", (10%Z, foo_database));
            ("configs/foo_defconfig", (20%Z, ""))].

(** The database written for [zed_params] and [foo_params], and its
    column widths. *)
Definition two_boards_database : string :=
  match Boards.format_and_output ascii_lower "tools/buildman/boards.py"
          [zed_params; foo_params] with
  | Ok text => text
  | Raise _ => ""
  end.

Definition two_boards_widths : gmap string nat :=
  match Boards.column_widths [zed_params; foo_params] with
  | Ok max_length => max_length
  | Raise _ => ∅
  end.

(** The term of the argument ["arm&acme"]. *)
Definition arm_acme_term : Term :=
  {| _expr_list := [{| _expr := "arm" |}; {| _expr := "acme" |}] |}.

End Examples.

(** ** Vocabulary of the statements *)

Module Vocabulary.
Import MaintainersDatabase.

(** The three situations in which a target has no usable maintainer. *)
Definition lacks_maintainers (self : MaintainersDatabase.t) (target : string) : Prop :=
  database self !! target = None
  \/ exists status maint_list,
       database self !! target = Some (status, maint_list)
       /\ (startswith status "Orphan" = true
           \/ maint_list = [] \/ maint_list = ["-"]).

Definition no_maintainers_warning (target : string) : string :=
  "WARNING: no maintainers for '" +:+ target +:+ "'".

(** A record on which neither architecture fix-up fires: its arch is not
    "riscv", and when it is "arm" the cpu is there and is not "armv8". *)
Definition arch_normal (params : gmap string string) : Prop :=
  exists arch,
    params !! "arch" = Some arch
    /\ arch <> "riscv"
    /\ (arch = "arm" ->
        exists cpu, params !! "cpu" = Some cpu /\ cpu <> "armv8").

(** The record that the merge step makes of [params] for the target
    [target], as a function of the database alone. *)
Definition merged_record (self : MaintainersDatabase.t) (target : string)
    (params : gmap string string) : gmap string string :=
  let maintainers := fst (get_maintainers self target) in
  <["status" := if truthy maintainers then fst (get_status self target) else "-"]>
    (<["maintainers" := maintainers]> params).

(** *** The verdict of [_check_board] as functions of the board *)

Section Verdict.
Variable re : regex.
Variables (terms : list Term) (exclude_list : list Expr) (brds : list string).

(** The board is taken by a term, by the explicit list or by default. *)
Definition included (brd : Boards.Board) : bool :=
  match terms with
  | _ :: _ =>
      match Boards.first_match re terms (Boards.props brd) with
      | Some _ => true
      | None => false
      end
  | [] =>
      match brds with
      | _ :: _ => existsb (String.eqb (Boards.target brd)) brds
      | [] => true
      end
  end.

(** The final value of the local [build_it]. *)
Definition selected (brd : Boards.Board) : bool :=
  if Boards.excluded re exclude_list (Boards.props brd) then false
  else included brd.

(** The (key, target) pairs that the board adds to [result]. *)
Definition contributions (brd : Boards.Board) : list (string * string) :=
  if selected brd then
    match Boards.first_match re terms (Boards.props brd) with
    | Some s => if truthy s then [(s, Boards.target brd)] else []
    | None => []
    end ++ [("all", Boards.target brd)]
  else [].

(** The board as the loop leaves it. *)
Definition mark (brd : Boards.Board) : Boards.Board :=
  if selected brd then Boards.set_build_it brd else brd.

(** The names that the board adds to [found]. *)
Definition found_by (brd : Boards.Board) : list string :=
  match terms, brds with
  | [], _ :: _ =>
      if existsb (String.eqb (Boards.target brd)) brds
      then [Boards.target brd] else []
  | _, _ => []
  end.

End Verdict.

(** Every key that [_check_board] appends to was created beforehand. *)
Definition keys_ready (terms : list Term) (d : odict) : Prop :=
  is_Some (od_get "all" d)
  /\ forall term, In term terms -> is_Some (od_get (Term_str term) d).

(** The targets listed under the key [k] by a sequence of additions. *)
Definition recorded_under (k : string) (entries : list (string * string))
  : list string :=
  map snd (List.filter (fun e => String.eqb (fst e) k) entries).


(** The locals of [parse_file] at the start of a record. *)
Definition record_start (d : gmap string (string * list string))
  : MaintainersDatabase.pstate :=
  {| targets := []; maintainers := []; status := "-"; db := d |}.

(** The same locals over another database. *)
Definition with_db (d : gmap string (string * list string))
    (st : MaintainersDatabase.pstate) : MaintainersDatabase.pstate :=
  {| targets := targets st; maintainers := maintainers st;
     status := status st; db := d |}.

(** *** Staleness *)

(** A line of the database that is neither a comment nor the blank line. *)
Definition data_line (line : string) : bool :=
  match line with
  | EmptyString => false
  | String c _ => negb (Ascii.eqb c "#" || String.eqb line NL)
  end.

(** Position of a column in the layout that [format_and_output] writes. *)
Fixpoint index_of (name : string) (l : list string) : option nat :=
  match l with
  | [] => None
  | x :: l' => if String.eqb x name then Some 0 else S <$> index_of name l'
  end.

Definition column (name : string) : option nat := index_of name Boards.fields.

(** The defconfig files that the first walk of [output_is_new] looks at. *)
Definition defconfig_paths (fs : filesystem) (config_dir : string)
  : list string :=
  flat_map
    (fun '(dirpath, filenames) =>
       map (path_join dirpath)
           (List.filter (fun f => endswith f "_defconfig"
                                  && negb (startswith f ".")) filenames))
    (fs_walk fs config_dir).

(** The Kconfig and MAINTAINERS files that the second walk looks at. *)
Definition kconfig_paths (fs : filesystem) (srcdir : string) : list string :=
  flat_map
    (fun '(dirpath, filenames) =>
       map (path_join dirpath)
           (List.filter (fun f => negb (endswith f "~")
                                  && (startswith f "Kconfig"
                                      || String.eqb f "MAINTAINERS"))
                        filenames))
    (fs_walk fs srcdir).

(** The file at [path] is not newer than [ctime]. *)
Definition not_newer (fs : filesystem) (ctime : Z) (path : string) : Prop :=
  exists t, fs_getctime fs path = Ok t /\ (t <= ctime)%Z.

(** The field in column [col] of a data line names no defconfig file in
    [config_dir]. *)
Definition stale_line (fs : filesystem) (config_dir : string) (col : nat)
    (line : string) : Prop :=
  data_line line = true
  /\ exists field,
       nth_error (split line) col = Some field
       /\ fs_exists fs (path_join config_dir (field +:+ "_defconfig")) = false.

(** The verdict of [check_line] on one line, as a boolean. *)
Definition stale_lineb (fs : filesystem) (config_dir : string) (line : string)
  : bool :=
  data_line line
  && match nth_error (split line) 6 with
     | Some field =>
         negb (fs_exists fs (path_join config_dir (field +:+ "_defconfig")))
     | None => false
     end.

(** The file at [path] is newer than [ctime]. *)
Definition newer (fs : filesystem) (ctime : Z) (path : string) : Prop :=
  exists t, fs_getctime fs path = Ok t /\ (ctime < t)%Z.

(** A line that does not make the database stale: it holds no "Options,"
    and, if it is a data line, its seventh field names a defconfig file. *)
Definition fresh_line (fs : filesystem) (config_dir : string) (line : string)
  : Prop :=
  contains "Options," line = false
  /\ (data_line line = true ->
      exists field,
        nth_error (split line) 6 = Some field
        /\ fs_exists fs (path_join config_dir (field +:+ "_defconfig")) = true).

(** *** Text of the database *)

(** What follows a word: nothing, or text that starts with whitespace. *)
Definition separated (l : list ascii) : Prop :=
  match l with
  | [] => True
  | d :: _ => is_space d = true
  end.

(** The string holds no whitespace. *)
Definition no_space (s : string) : Prop :=
  Forall (fun c => is_space c = false) (chars s).


(** *** Written and read records *)


(** [params[field]], empty when the key is missing. *)
Definition field_of (params : gmap string string) (field : string) : string :=
  default "" (params !! field).




(** The columns of a record before the line is stripped. *)
Fixpoint row (max_length : gmap string nat) (params : gmap string string)
    (fs : list string) : string :=
  match fs with
  | [] => ""
  | f :: fs' =>
      ("  " +:+ ljust (default 0 (max_length !! f)) (field_of params f))
        +:+ row max_length params fs'
  end.

(** The line written for a record. *)
Definition line_text (max_length : gmap string nat)
    (params : gmap string string) : string :=
  strip (row max_length params Boards.fields).

(** A record that holds the nine keys of the database. *)
Definition complete (params : gmap string string) : Prop :=
  forall f, In f Boards.fields -> is_Some (params !! f).

(** A dictionary of widths that holds the nine keys. *)
Definition keys_ok (max_length : gmap string nat) : Prop :=
  forall f, In f Boards.fields -> is_Some (max_length !! f).

(** The longest value of the field [f] in the records. *)
Definition longest (params_list : list (gmap string string)) (f : string)
  : nat :=
  list_max (map (fun params => String.length (field_of params f)) params_list).

(** *** Scanning *)

(** The six keys that [scan] reads from the evaluator. *)
Definition symbol_keys : list string :=
  map fst KconfigScanner._SYMBOL_TABLE.

(** The symbols that count as an enabled target. *)
Definition enabled_targets (syms : list (string * string))
  : list (string * string) :=
  List.filter (fun e => startswith (fst e) "TARGET_" && String.eqb (snd e) "y")
              syms.

(** *** Ownership files *)

(** The tag that [parse_file] reads on a line, a commented maintainer line
    counting as a maintainer line. *)
Definition line_tag (line : string) : string :=
  take 2 (if String.eqb (take 3 line) "#M:" then drop 1 line else line).

(** The line is a file or a name reference. *)
Definition names_targets (line : string) : bool :=
  String.eqb (line_tag line) "F:" || String.eqb (line_tag line) "N:".

(** *** Boards read from the database *)

(** The eight positional fields of a board. *)
Definition board_fields (brd : Boards.Board) : list string :=
  [Boards.status brd; Boards.arch brd; Boards.cpu brd; Boards.soc brd;
   Boards.vendor brd; Boards.board_name brd; Boards.target brd;
   Boards.cfg_name brd].

(** The eight fields that [read_boards] takes from a line: the k-th is
    the k-th word of the line, read as empty when it is the sentinel or
    when the line has fewer words; words after the eighth are dropped. *)
Definition line_fields (line : string) : list string :=
  map (fun k => Boards.desentinel (nth k (split line) "")) (seq 0 8).

(** A line of the database that [read_boards] turns into a board: not a
    comment and with at least one field. *)
Definition record_line (line : string) : bool :=
  negb (startswith line "#")
  && match split line with [] => false | _ :: _ => true end.

(** *** Terms *)

(** An expression as [_build_terms] cuts it: not empty, without whitespace
    and without the operator sign. *)
Definition plain_expr (e : string) : Prop :=
  e <> "" /\ no_space e /\ ~ In "&"%char (chars e).

(** A term with at least one expression, all of them plain and valid
    regular expressions. *)
Definition good_term (re : regex) (term : Term) : Prop :=
  _expr_list term <> []
  /\ Forall (fun e => plain_expr (_expr e) /\ re_valid re (_expr e) = true)
            (_expr_list term).

End Vocabulary.
Import Vocabulary.

(** * Properties *)

(** ** The error monad and the loops *)

Lemma rbind_Ok {A B : Type} (m : result A) (k : A -> result B) (b : B) :
  rbind m k = Ok b -> exists a, m = Ok a /\ k a = Ok b.
Proof. destruct m as [a|e]; simpl; [eauto | discriminate]. Qed.

Lemma for_each_app {A S : Type} (body : S -> A -> result S)
    (l1 l2 : list A) (s : S) :
  for_each body (l1 ++ l2) s =
  rbind (for_each body l1 s) (for_each body l2).
Proof.
  revert s. induction l1 as [|x l1 IH]; intros s; simpl; [reflexivity|].
  destruct (body s x) as [s'|e]; simpl; [apply IH | reflexivity].
Qed.

Lemma for_each_cons {A S : Type} (body : S -> A -> result S)
    (x : A) (l : list A) (s : S) :
  for_each body (x :: l) s = rbind (body s x) (for_each body l).
Proof. reflexivity. Qed.

Tactic Notation "inv_bind" hyp(H) "as" ident(a) ident(Ha) :=
  apply rbind_Ok in H; destruct H as [a [Ha H]].

(** ** MaintainersDatabase.get_maintainers *)

Module MaintainersFacts.
Import MaintainersDatabase.

Lemma has_maintainer_false (maint_list : list string) :
  has_maintainer maint_list = false <-> maint_list = [] \/ maint_list = ["-"].
Proof.
  unfold has_maintainer. split.
  - destruct maint_list as [|m [|m' l]]; simpl; intros H; auto.
    + right. destruct (String.eqb_spec m "-"); [subst; reflexivity | discriminate].
    + discriminate.
  - intros [-> | ->]; reflexivity.
Qed.

Lemma warn_neq (self : t) (msg : string) : warn self msg <> self.
Proof.
  intros H. apply (f_equal warnings) in H. simpl in H.
  apply (f_equal (@length string)) in H. rewrite length_app in H.
  simpl in H. lia.
Qed.

(** C3: [get_maintainers] returns the empty string and appends the
    "no maintainers" warning exactly when the target is absent from the
    database, or its status begins with "Orphan", or its maintainer list
    is empty or is the single sentinel "-"; in every other case it
    returns the stored list joined by ":" and leaves the warnings as they
    were. *)
Theorem get_maintainers_cases (self : t) (target : string) :
  (get_maintainers self target
     = ("", warn self (no_maintainers_warning target))
   <-> lacks_maintainers self target)
  /\ (~ lacks_maintainers self target ->
      exists status maint_list,
        database self !! target = Some (status, maint_list)
        /\ get_maintainers self target = (join ":" maint_list, self)).
Proof.
  unfold get_maintainers, lacks_maintainers, no_maintainers_warning.
  destruct (database self !! target) as [[status maint_list]|] eqn:Hdb.
  - destruct (startswith status "Orphan") eqn:Horphan; simpl.
    + split; [split; intros _; [right; eauto 6 | reflexivity]|].
      intros Hn. exfalso. apply Hn. right. eauto 6.
    + destruct (has_maintainer maint_list) eqn:Hm.
      * assert (Hno : ~ (maint_list = [] \/ maint_list = ["-"])).
        { intros Hc. apply has_maintainer_false in Hc. congruence. }
        split.
        -- split.
           ++ intros Heq. exfalso. injection Heq as _ Heq.
              symmetry in Heq. exact (warn_neq _ _ Heq).
           ++ intros [Habs | (s & l & Heq & [Hc | Hc])];
                [discriminate | | ]; injection Heq as <- <-;
                [congruence | tauto].
        -- intros _. eauto.
      * apply has_maintainer_false in Hm.
        split; [split; intros _; [right; eauto 6 | reflexivity]|].
        intros Hn. exfalso. apply Hn. right. eauto 6.
  - split; [split; intros _; [left; reflexivity | reflexivity]|].
    intros Hn. exfalso. apply Hn. left. reflexivity.
Qed.

(** A list of two or more entries is always joined, sentinels included. *)
Lemma several_maintainers_joined (self : t) (target status m1 m2 : string)
    (more : list string) :
  database self !! target = Some (status, m1 :: m2 :: more) ->
  startswith status "Orphan" = false ->
  get_maintainers self target = (join ":" (m1 :: m2 :: more), self).
Proof.
  intros Hdb Hst. unfold get_maintainers. rewrite Hdb, Hst. reflexivity.
Qed.

End MaintainersFacts.

(** ** KconfigScanner.scan *)

Module ScannerFacts.
Import KconfigScanner.

Lemma getitem_Ok {V : Type} (d : gmap string V) (key : string) (v : V) :
  getitem d key = Ok v <-> d !! key = Some v.
Proof.
  unfold getitem. destruct (d !! key); split; intros H; congruence.
Qed.

Lemma getitem_insert_eq {V : Type} (d : gmap string V) (key : string) (v : V) :
  getitem (<[key := v]> d) key = Ok v.
Proof. apply getitem_Ok, lookup_insert_eq. Qed.

Lemma String_eqb_neq (a b : string) : a <> b -> String.eqb a b = false.
Proof. intros H. destruct (String.eqb_spec a b); [contradiction | reflexivity]. Qed.

(** What [fixup_arch] produces is in normal form. *)
Lemma fixup_arch_normal (syms : list (string * string))
    (params params' : gmap string string) :
  fixup_arch syms params = Ok params' -> arch_normal params'.
Proof.
  unfold fixup_arch, arch_normal. intros H.
  inv_bind H as arch0 Harch0. apply getitem_Ok in Harch0.
  inv_bind H as armv8 Hv8.
  inv_bind H as arch1 Harch1. apply getitem_Ok in Harch1.
  assert (Hcpu : arch1 = "arm" ->
                 exists cpu, params !! "cpu" = Some cpu /\ cpu <> "armv8").
  { intros Harm. destruct (String.eqb_spec arch0 "arm") as [Heq|Hne].
    - inv_bind Hv8 as cpu Hcpu. apply getitem_Ok in Hcpu. injection Hv8 as Hv8.
      destruct (String.eqb_spec cpu "armv8") as [Hc|Hc]; subst armv8.
      + rewrite lookup_insert_eq in Harch1. congruence.
      + eauto.
    - injection Hv8 as Hv8. subst armv8. congruence. }
  assert (Hsame : (if armv8 then <["arch" := "aarch64"]> params else params)
                    !! "cpu" = params !! "cpu").
  { destruct armv8; [apply lookup_insert_ne; discriminate | reflexivity]. }
  destruct (String.eqb_spec arch1 "riscv") as [Hrv|Hrv].
  - destruct (String.eqb _ "y"); injection H as Hp; subst params';
      eexists; (split; [apply lookup_insert_eq|]); (split; [discriminate|]);
      intros Hc; discriminate Hc.
  - injection H as Hp. subst params'. exists arch1.
    split; [assumption|]. split; [assumption|].
    intros Harm. rewrite Hsame. auto.
Qed.

(** A record in normal form goes through [fixup_arch] unchanged. *)
Lemma fixup_arch_fixed (syms : list (string * string))
    (params : gmap string string) :
  arch_normal params -> fixup_arch syms params = Ok params.
Proof.
  intros (arch & Harch & Hrv & Hcpu). unfold fixup_arch.
  apply getitem_Ok in Harch. rewrite Harch. simpl.
  destruct (String.eqb_spec arch "arm") as [Harm|Harm].
  - destruct (Hcpu Harm) as (cpu & Hc & Hne).
    apply getitem_Ok in Hc. rewrite Hc. simpl.
    rewrite (String_eqb_neq _ _ Hne). simpl.
    rewrite Harch. simpl. rewrite (String_eqb_neq _ _ Hrv). reflexivity.
  - simpl. rewrite Harch. simpl. rewrite (String_eqb_neq _ _ Hrv). reflexivity.
Qed.

(** C7: the architecture fix-ups are idempotent. A record that came out of
    [fixup_arch] goes through it unchanged, whatever the evaluator answers
    on the second run. *)
Theorem fixup_arch_idempotent (syms syms' : list (string * string))
    (params params' : gmap string string) :
  fixup_arch syms params = Ok params' ->
  fixup_arch syms' params' = Ok params'.
Proof.
  intros H. apply fixup_arch_fixed. exact (fixup_arch_normal _ _ _ H).
Qed.

Lemma fixup_arch_idempotent_witness :
  fixup_arch [] Examples.armv8_params = Ok Examples.aarch64_params
  /\ fixup_arch [("ARCH_RV32I", "y")] Examples.aarch64_params
     = Ok Examples.aarch64_params.
Proof.
  split; [reflexivity|].
  apply (fixup_arch_idempotent [] _ Examples.armv8_params). reflexivity.
Defined.

Lemma append_cons (c : ascii) (s t : string) :
  String c s +:+ t = String c (s +:+ t).
Proof. reflexivity. Qed.

Lemma append_empty (t : string) : "" +:+ t = t.
Proof. reflexivity. Qed.

Lemma prefix_drop (p s : string) :
  String.prefix p s = true -> s = p +:+ drop (String.length p) s.
Proof.
  revert s. induction p as [|c p IH]; intros s H; [reflexivity|].
  destruct s as [|d s]; [discriminate|]. simpl in H.
  destruct (ascii_dec c d) as [->|Hne]; [|discriminate].
  rewrite append_cons. simpl. f_equal. apply IH. assumption.
Qed.

Lemma find_unfold (sep s : string) :
  find sep s =
  if String.prefix sep s then Some 0
  else match s with
       | EmptyString => None
       | String _ s' => S <$> find sep s'
       end.
Proof. destruct s; reflexivity. Qed.

Lemma find_take_drop (sep s : string) (i : nat) :
  find sep s = Some i ->
  s = take i s +:+ sep +:+ drop (i + String.length sep) s.
Proof.
  revert i. induction s as [|c s IH]; intros i H; rewrite find_unfold in H;
    destruct (String.prefix sep _) eqn:Hp.
  - injection H as <-. exact (prefix_drop _ _ Hp).
  - discriminate.
  - injection H as <-. exact (prefix_drop _ _ Hp).
  - destruct (find sep s) as [j|] eqn:Hf; [|discriminate].
    injection H as <-. simpl. rewrite append_cons. f_equal.
    apply IH. reflexivity.
Qed.

Lemma truthy_false (s : string) : truthy s = false -> s = "".
Proof. destruct s; [reflexivity | discriminate]. Qed.

(** When the name check passes, the leaf name is the expected target
    followed by the suffix. *)
Lemma partition_suffix (leaf front match_ rear : string) :
  partition "_defconfig" leaf = (front, match_, rear) ->
  truthy match_ && negb (truthy rear) = true ->
  leaf = front +:+ "_defconfig".
Proof.
  unfold partition. intros H Hok.
  destruct (find "_defconfig" leaf) as [i|] eqn:Hf.
  - injection H as <- <- <-. apply andb_true_iff in Hok as [_ Hrear].
    apply negb_true_iff, truthy_false in Hrear.
    pose proof (find_take_drop _ _ _ Hf) as Hs.
    change (String.length "_defconfig") with 10 in Hrear.
    change (String.length "_defconfig") with 10 in Hs.
    rewrite Hrear in Hs. exact Hs.
  - injection H as <- <- <-. discriminate.
Qed.

Lemma fixup_arch_target (syms : list (string * string))
    (params params' : gmap string string) :
  fixup_arch syms params = Ok params' ->
  params' !! "target" = params !! "target".
Proof.
  unfold fixup_arch. intros H.
  inv_bind H as arch0 Harch0. inv_bind H as armv8 Hv8.
  inv_bind H as arch1 Harch1.
  assert (Hsame : (if armv8 then <["arch" := "aarch64"]> params else params)
                    !! "target" = params !! "target").
  { destruct armv8; [apply lookup_insert_ne; discriminate | reflexivity]. }
  destruct (String.eqb arch1 "riscv").
  - destruct (String.eqb _ "y"); injection H as <-;
      (rewrite lookup_insert_ne; [exact Hsame | discriminate]).
  - injection H as <-. exact Hsame.
Qed.

(** X1: whenever [scan] returns, the file name is the target followed by
    the suffix, whatever the evaluator said, and the record is in normal
    form. *)
Lemma scan_target_from_name (str_lower str_upper : string -> string)
    (load_config : string -> result (list (string * string)))
    (defconfig : string) (warn_targets : bool)
    (params : gmap string string) (warnings : list string) :
  scan str_lower str_upper load_config defconfig warn_targets
    = Ok (params, warnings) ->
  exists target,
    basename defconfig = target +:+ "_defconfig"
    /\ params !! "target" = Some target
    /\ arch_normal params.
Proof.
  unfold scan. intros H.
  destruct (partition "_defconfig" (basename defconfig))
    as [[expect_target match_] rear] eqn:Hpart.
  destruct (truthy match_ && negb (truthy rear)) eqn:Hok; [|discriminate].
  simpl in H. inv_bind H as syms Hsyms. inv_bind H as params0 Hparams0.
  inv_bind H as params1 Hfix. injection H as <- <-.
  exists expect_target. split; [exact (partition_suffix _ _ _ _ Hpart Hok)|].
  split; [|exact (fixup_arch_normal _ _ _ Hfix)].
  rewrite (fixup_arch_target _ _ _ Hfix). apply lookup_insert_eq.
Qed.

Lemma prefix_of_chars_app (a b : list ascii) :
  String.prefix (of_chars a) (of_chars (a ++ b)) = true.
Proof.
  induction a as [|c a IH]; simpl; [destruct (of_chars b); reflexivity|].
  destruct (ascii_dec c c); [exact IH | contradiction].
Qed.

Lemma endswith_append (a suffix : string) :
  endswith (a +:+ suffix) suffix = true.
Proof.
  unfold endswith.
  assert (Hc : chars (a +:+ suffix) = chars a ++ chars suffix).
  { induction a as [|c a IH]; [reflexivity|].
    rewrite append_cons. simpl. f_equal. exact IH. }
  rewrite Hc, rev_app_distr. apply prefix_of_chars_app.
Qed.

(** X2: a name that does not end in the suffix is refused with the
    assertion error, before the evaluator is asked anything. *)
Lemma scan_refuses_other_names (str_lower str_upper : string -> string)
    (load_config : string -> result (list (string * string)))
    (defconfig : string) (warn_targets : bool) :
  endswith (basename defconfig) "_defconfig" = false ->
  scan str_lower str_upper load_config defconfig warn_targets
  = Raise (AssertionError (basename defconfig +:+ " : invalid defconfig")).
Proof.
  intros Hend. unfold scan.
  destruct (partition "_defconfig" (basename defconfig))
    as [[expect_target match_] rear] eqn:Hpart.
  destruct (truthy match_ && negb (truthy rear)) eqn:Hok; [|reflexivity].
  rewrite (partition_suffix _ _ _ _ Hpart Hok), endswith_append in Hend.
  discriminate.
Qed.

(** X3: when the name check passes and the evaluator knows the six
    symbols, [scan] returns a record whose target is the name without the
    suffix. *)
Lemma scan_succeeds (str_lower str_upper : string -> string)
    (load_config : string -> result (list (string * string)))
    (defconfig : string) (warn_targets : bool) (target : string)
    (syms : list (string * string)) :
  partition "_defconfig" (basename defconfig) = (target, "_defconfig", "") ->
  load_config defconfig = Ok syms ->
  Forall (fun entry => is_Some (syms_get syms (snd entry))) _SYMBOL_TABLE ->
  exists params warnings,
    scan str_lower str_upper load_config defconfig warn_targets
      = Ok (params, warnings)
    /\ params !! "target" = Some target.
Proof.
  intros Hpart Hload Hsyms. unfold scan. rewrite Hpart, Hload.
  cbn [truthy negb andb rbind].
  assert (Hloop : forall table params0,
             Forall (fun entry => is_Some (syms_get syms (snd entry))) table ->
             is_Some (params0 !! "arch") \/ In "arch" (map fst table) ->
             is_Some (params0 !! "cpu") \/ In "cpu" (map fst table) ->
             exists params1,
               for_each (read_symbol syms) table params0 = Ok params1
               /\ is_Some (params1 !! "arch") /\ is_Some (params1 !! "cpu")).
  { induction table as [|[key symbol] table IH]; intros params0 Hall Harch Hcpu.
    - exists params0. simpl in *. intuition.
    - apply Forall_cons in Hall as [[v Hv] Hall]. rewrite for_each_cons.
      unfold read_symbol at 1, str_value. simpl in Hv. rewrite Hv.
      cbn [rbind].
      assert (Hkeep : forall value k,
                 is_Some (params0 !! k) \/ In k (map fst ((key, symbol) :: table)) ->
                 is_Some (<[key := value]> params0 !! k)
                 \/ In k (map fst table)).
      { intros value k [Hk|[<-|Hk]]; [| |right; assumption].
        - left. destruct (decide (key = k)) as [->|Hne];
            [rewrite lookup_insert_eq; eauto|].
          rewrite lookup_insert_ne by assumption. assumption.
        - left. rewrite lookup_insert_eq. eauto. }
      destruct (truthy v); apply IH; auto. }
  destruct (Hloop _SYMBOL_TABLE ∅ Hsyms) as (params1 & Hrun & Harch & Hcpu);
    [right; simpl; tauto | right; simpl; tauto |].
  rewrite Hrun. cbn [rbind].
  set (params2 := <["target" := target]> params1).
  assert (Harch2 : is_Some (params2 !! "arch")).
  { subst params2. rewrite lookup_insert_ne by discriminate. assumption. }
  assert (Hcpu2 : is_Some (params2 !! "cpu")).
  { subst params2. rewrite lookup_insert_ne by discriminate. assumption. }
  assert (Hfix : exists params3, fixup_arch syms params2 = Ok params3).
  { unfold fixup_arch. destruct Harch2 as [a Ha], Hcpu2 as [c Hc].
    unfold getitem at 1. rewrite Ha. cbn [rbind].
    assert (Hstep : exists armv8,
               (if String.eqb a "arm"
                then let* cpu := getitem params2 "cpu" in
                     Ok (String.eqb cpu "armv8")
                else Ok false) = Ok armv8).
    { destruct (String.eqb a "arm"); [|eauto].
      unfold getitem. rewrite Hc. cbn [rbind]. eauto. }
    destruct Hstep as (armv8 & ->). cbn [rbind].
    assert (Hkey : exists a', (if armv8 then <["arch" := "aarch64"]> params2
                               else params2) !! "arch" = Some a').
    { destruct armv8; [rewrite lookup_insert_eq|]; eauto. }
    destruct Hkey as (a' & Ha'). unfold getitem. rewrite Ha'. cbn [rbind].
    destruct (String.eqb a' "riscv"); [|eauto].
    destruct (String.eqb _ "y"); eauto. }
  destruct Hfix as (params3 & Hfix). rewrite Hfix. cbn [rbind].
  do 2 eexists. split; [reflexivity|].
  rewrite (fixup_arch_target _ _ _ Hfix). apply lookup_insert_eq.
Qed.

(** C9 (the code departs from the specification): a file whose name ends in the
    suffix but holds it twice is refused by the name check of [scan],
    because the name is cut at the first occurrence of the suffix. *)
Theorem scan_rejects_repeated_suffix (str_lower str_upper : string -> string)
    (load_config : string -> result (list (string * string)))
    (warn_targets : bool) :
  endswith (basename "configs/a_defconfig_defconfig") "_defconfig" = true
  /\ scan str_lower str_upper load_config
          "configs/a_defconfig_defconfig" warn_targets
     = Raise (AssertionError "a_defconfig_defconfig : invalid defconfig").
Proof. split; reflexivity. Qed.

End ScannerFacts.

(** ** Boards.insert_maintainers_info *)

Module MergeFacts.
Import MaintainersDatabase Boards.

Lemma get_maintainers_database (self : MaintainersDatabase.t) (target : string) :
  database (snd (get_maintainers self target)) = database self.
Proof.
  unfold get_maintainers.
  destruct (database self !! target) as [[st ml]|]; [|reflexivity].
  destruct (negb _); [|reflexivity]. destruct (has_maintainer ml); reflexivity.
Qed.

Lemma get_status_database (self : MaintainersDatabase.t) (target : string) :
  database (snd (get_status self target)) = database self.
Proof.
  unfold get_status.
  destruct (database self !! target) as [[st ml]|]; [|reflexivity].
  repeat (destruct (startswith st _); [reflexivity|]). reflexivity.
Qed.

Lemma get_maintainers_fst (d d' : MaintainersDatabase.t) (target : string) :
  database d = database d' ->
  fst (get_maintainers d target) = fst (get_maintainers d' target).
Proof.
  unfold get_maintainers. intros ->.
  destruct (database d' !! target) as [[st ml]|]; [|reflexivity].
  destruct (negb _); [|reflexivity]. destruct (has_maintainer ml); reflexivity.
Qed.

Lemma get_status_fst (d d' : MaintainersDatabase.t) (target : string) :
  database d = database d' ->
  fst (get_status d target) = fst (get_status d' target).
Proof.
  unfold get_status. intros ->.
  destruct (database d' !! target) as [[st ml]|]; [|reflexivity].
  repeat (destruct (startswith st _); [reflexivity|]). reflexivity.
Qed.

Lemma merged_record_database (d d' : MaintainersDatabase.t) (target : string)
    (params : gmap string string) :
  database d = database d' ->
  merged_record d target params = merged_record d' target params.
Proof.
  intros H. unfold merged_record.
  rewrite (get_maintainers_fst d d' target H), (get_status_fst d d' target H).
  reflexivity.
Qed.

(** One step of the merge: the record gets the fields that
    [merged_record] describes and the database keeps its entries. *)
Lemma merge_params_Ok (d : MaintainersDatabase.t) (params : gmap string string)
    (target : string) :
  params !! "target" = Some target ->
  exists d',
    merge_params d params = Ok (merged_record d target params, d')
    /\ database d' = database d.
Proof.
  intros Ht. unfold merge_params, merged_record, getitem. rewrite Ht. simpl.
  pose proof (get_maintainers_database d target) as Hm.
  destruct (get_maintainers d target) as [m d1] eqn:Hgm. simpl in *.
  destruct (truthy m).
  - pose proof (get_status_database d1 target) as Hs.
    rewrite (get_status_fst d d1 target (eq_sym Hm)).
    destruct (get_status d1 target) as [st d2]. simpl in *.
    eexists. split; [reflexivity | congruence].
  - eexists. split; [reflexivity | assumption].
Qed.

(** The loop over [params_list]. *)
Lemma merge_loop (params_list done : list (gmap string string))
    (d : MaintainersDatabase.t) :
  Forall (fun p => is_Some (p !! "target")) params_list ->
  exists d',
    for_each merge_step params_list (done, d)
    = Ok (done ++ map (fun p => merged_record d (default "" (p !! "target")) p)
                      params_list, d')
    /\ database d' = database d.
Proof.
  revert done d. induction params_list as [|p l IH]; intros done d Hall.
  - exists d. simpl. rewrite app_nil_r. split; reflexivity.
  - apply Forall_cons in Hall as [[t Ht] Hall]. rewrite for_each_cons.
    destruct (merge_params_Ok d p t Ht) as (d1 & Hm & Hd1).
    change (merge_step (done, d) p)
      with (let* (params', database') := merge_params d p in
            Ok (done ++ [params'], database')).
    rewrite Hm. cbn [rbind].
    destruct (IH (done ++ [merged_record d t p]) d1 Hall) as (d2 & Hloop & Hd2).
    exists d2. rewrite Hloop. split; [|congruence].
    cbn [map]. rewrite Ht. cbn [default]. rewrite <- app_assoc.
    cbn [app]. do 4 f_equal.
    apply map_ext. intros q. apply merged_record_database. exact Hd1.
Qed.

(** C10: in the merge step a record for which [get_maintainers] gives the
    empty string gets the status "-" and [get_status] is not consulted: the
    database after the record is exactly the one [get_maintainers] left,
    and in the list that [insert_maintainers_info] returns the record
    carries an empty maintainers field and the status "-". *)
Theorem merge_status_sentinel (re : regex) (fs : filesystem) (srcdir : string)
    (params_list : list (gmap string string)) (d : MaintainersDatabase.t)
    (i : nat) (params : gmap string string) (target : string) :
  for_each (parse_maintainers re fs srcdir) (fs_walk fs srcdir)
           MaintainersDatabase.new = Ok d ->
  Forall (fun p => is_Some (p !! "target")) params_list ->
  params_list !! i = Some params ->
  params !! "target" = Some target ->
  fst (get_maintainers d target) = "" ->
  merge_params d params
    = Ok (<["status" := "-"]> (<["maintainers" := ""]> params),
          snd (get_maintainers d target))
  /\ exists params_list' warnings,
       insert_maintainers_info re fs srcdir params_list
         = Ok (params_list', warnings)
       /\ params_list' !! i
          = Some (<["status" := "-"]> (<["maintainers" := ""]> params)).
Proof.
  intros Hparse Hall Hi Ht Hm. split.
  - unfold merge_params, getitem. rewrite Ht. simpl.
    destruct (get_maintainers d target) as [m d1]. simpl in Hm. subst m.
    reflexivity.
  - unfold insert_maintainers_info. rewrite Hparse. simpl.
    destruct (merge_loop params_list [] d Hall) as (d' & Hloop & _).
    rewrite Hloop. simpl. do 2 eexists. split; [reflexivity|].
    rewrite list_lookup_fmap, Hi. simpl. rewrite Ht. simpl.
    unfold merged_record. rewrite Hm. reflexivity.
Qed.

Lemma merge_status_sentinel_witness :
  fst (get_status Examples.bar_database "bar") = "Active"
  /\ merge_params Examples.bar_database Examples.bar_params
     = Ok (<["status" := "-"]> (<["maintainers" := ""]> Examples.bar_params),
           snd (get_maintainers Examples.bar_database "bar"))
  /\ exists params_list' warnings,
       insert_maintainers_info Examples.literal_re Examples.bar_tree "."
         [Examples.bar_params] = Ok (params_list', warnings)
       /\ params_list' !! 0
          = Some (<["status" := "-"]> (<["maintainers" := ""]> Examples.bar_params)).
Proof.
  split; [reflexivity|].
  apply (merge_status_sentinel Examples.literal_re Examples.bar_tree "."
           [Examples.bar_params] Examples.bar_database 0
           Examples.bar_params "bar").
  - vm_compute. reflexivity.
  - repeat constructor. exists "bar". reflexivity.
  - reflexivity.
  - reflexivity.
  - reflexivity.
Defined.

End MergeFacts.

(** ** Boards.select_boards *)

Module SelectFacts.
Import Boards.

Lemma od_get_set (k k' : string) (v : list string) (d : odict) :
  od_get k' (od_set k v d) = if String.eqb k k' then Some v else od_get k' d.
Proof.
  induction d as [|[k0 v0] d IH]; simpl.
  - destruct (String.eqb k k'); reflexivity.
  - destruct (String.eqb_spec k0 k) as [->|Hne]; simpl.
    + destruct (String.eqb k k'); reflexivity.
    + destruct (String.eqb_spec k0 k') as [->|Hne'].
      * rewrite (ScannerFacts.String_eqb_neq k k'); [reflexivity | congruence].
      * exact IH.
Qed.

Lemma recorded_under_app (k : string) (e1 e2 : list (string * string)) :
  recorded_under k (e1 ++ e2) = recorded_under k e1 ++ recorded_under k e2.
Proof. unfold recorded_under. rewrite List.filter_app, map_app. reflexivity. Qed.

(** [d[k0].append(x)] on a key that is there. *)
Lemma od_append_get (k0 x : string) (d : odict) :
  is_Some (od_get k0 d) ->
  exists d',
    od_append k0 x d = Ok d'
    /\ forall k, od_get k d'
                 = (fun l => l ++ recorded_under k [(k0, x)]) <$> od_get k d.
Proof.
  intros [l Hl]. unfold od_append. rewrite Hl. eexists. split; [reflexivity|].
  intros k. rewrite od_get_set. unfold recorded_under. simpl.
  destruct (String.eqb_spec k0 k) as [->|Hne].
  - rewrite Hl. reflexivity.
  - destruct (od_get k d); simpl; [rewrite app_nil_r|]; reflexivity.
Qed.

Lemma fmap_app_nil (o : option (list string)) :
  (fun l => l ++ []) <$> o = o.
Proof. destruct o; simpl; [rewrite app_nil_r|]; reflexivity. Qed.

Section Loop.
Variable re : regex.

Lemma first_match_In (ts : list Term) (props : list string) (s : string) :
  first_match re ts props = Some s ->
  exists term, In term ts /\ Term_str term = s
               /\ Term_matches re term props = true.
Proof.
  induction ts as [|t ts IH]; simpl; [discriminate|].
  destruct (Term_matches re t props) eqn:Hm.
  - intros [= <-]. eauto.
  - intros H. destruct (IH H) as (t' & Hin & Hs & Ht). eauto.
Qed.

Lemma keys_ready_step (terms : list Term) (d d' : odict)
    (add : list (string * string)) :
  keys_ready terms d ->
  (forall k, od_get k d' = (fun l => l ++ recorded_under k add) <$> od_get k d) ->
  keys_ready terms d'.
Proof.
  intros [Hall Hterms] Hget. split.
  - rewrite Hget. destruct Hall as [l ->]. simpl. eauto.
  - intros t Ht. rewrite Hget. destruct (Hterms t Ht) as [l ->]. simpl. eauto.
Qed.

(** One call of [_check_board] in terms of the verdict functions. *)
Lemma check_board_Ok (terms : list Term) (exclude_list : list Expr)
    (brds : list string) (d : odict) (found : list string) (brd : Board) :
  keys_ready terms d ->
  exists d',
    _check_board re terms exclude_list brds (d, found) brd
      = Ok (mark re terms exclude_list brds brd,
            (d', found ++ found_by terms brds brd))
    /\ forall k, od_get k d'
         = (fun l => l ++ recorded_under k
                            (contributions re terms exclude_list brds brd))
             <$> od_get k d.
Proof.
  intros [Hall Hterms].
  unfold _check_board, mark, contributions, selected, included, found_by.
  destruct terms as [|t0 ts].
  - destruct brds as [|n ns].
    + destruct (excluded re exclude_list (props brd)).
      * exists d. rewrite app_nil_r. split; [reflexivity|].
        intros k. symmetry. apply fmap_app_nil.
      * destruct (od_append_get "all" (target brd) d Hall) as (d' & Happ & Hget).
        exists d'. simpl. rewrite Happ. simpl. rewrite app_nil_r.
        split; [reflexivity | exact Hget].
    + destruct (existsb (String.eqb (target brd)) (n :: ns));
        destruct (excluded re exclude_list (props brd)).
      * exists d. split; [reflexivity|]. intros k. symmetry. apply fmap_app_nil.
      * destruct (od_append_get "all" (target brd) d Hall) as (d' & Happ & Hget).
        exists d'. simpl. rewrite Happ. simpl. split; [reflexivity | exact Hget].
      * exists d. rewrite app_nil_r. split; [reflexivity|].
        intros k. symmetry. apply fmap_app_nil.
      * exists d. rewrite app_nil_r. split; [reflexivity|].
        intros k. symmetry. apply fmap_app_nil.
  - rewrite app_nil_r.
    destruct (first_match re (t0 :: ts) (props brd)) as [s|] eqn:Hfm;
      destruct (excluded re exclude_list (props brd)).
    + exists d. split; [reflexivity|]. intros k. symmetry. apply fmap_app_nil.
    + destruct (first_match_In _ _ _ Hfm) as (t & Hin & Hs & _).
      destruct (truthy s) eqn:Htr.
      * assert (Hkey : is_Some (od_get s d)) by (subst s; auto).
        destruct (od_append_get s (target brd) d Hkey) as (d1 & Happ1 & Hget1).
        assert (Hall1 : is_Some (od_get "all" d1)).
        { rewrite Hget1. destruct Hall as [l ->]. simpl. eauto. }
        destruct (od_append_get "all" (target brd) d1 Hall1) as (d2 & Happ2 & Hget2).
        exists d2. cbn [rbind]. rewrite Happ1. cbn [rbind]. rewrite Happ2.
        cbn [rbind]. split; [reflexivity|]. intros k. rewrite Hget2, Hget1.
        change [(s, target brd); ("all", target brd)]
          with ([(s, target brd)] ++ [("all", target brd)]).
        rewrite recorded_under_app.
        destruct (od_get k d); simpl; [rewrite app_assoc|]; reflexivity.
      * destruct (od_append_get "all" (target brd) d Hall) as (d' & Happ & Hget).
        exists d'. cbn [rbind]. rewrite Happ. cbn [rbind].
        split; [reflexivity | exact Hget].
    + exists d. split; [reflexivity|]. intros k. symmetry. apply fmap_app_nil.
    + exists d. split; [reflexivity|]. intros k. symmetry. apply fmap_app_nil.
Qed.

(** The loop over the boards. *)
Lemma check_loop (terms : list Term) (exclude_list : list Expr)
    (brds : list string) (boards done : list Board) (d : odict)
    (found : list string) :
  keys_ready terms d ->
  exists d',
    for_each (check_step re terms exclude_list brds) boards (done, (d, found))
      = Ok (done ++ map (mark re terms exclude_list brds) boards,
            (d', found ++ flat_map (found_by terms brds) boards))
    /\ forall k, od_get k d'
         = (fun l => l ++ recorded_under k
                            (flat_map (contributions re terms exclude_list brds)
                                      boards))
             <$> od_get k d.
Proof.
  revert done d found. induction boards as [|b bs IH]; intros done d found Hk.
  - exists d. simpl. rewrite !app_nil_r. split; [reflexivity|].
    intros k. symmetry. apply fmap_app_nil.
  - rewrite for_each_cons.
    destruct (check_board_Ok terms exclude_list brds d found b Hk)
      as (d1 & Hstep & Hget1).
    change (check_step re terms exclude_list brds (done, (d, found)) b)
      with (let* (brd', st') :=
              _check_board re terms exclude_list brds (d, found) b in
            Ok (done ++ [brd'], st')).
    rewrite Hstep. cbn [rbind].
    destruct (IH (done ++ [mark re terms exclude_list brds b]) d1
                 (found ++ found_by terms brds b)
                 (keys_ready_step _ _ _ _ Hk Hget1)) as (d2 & Hloop & Hget2).
    exists d2. rewrite Hloop. split.
    + cbn [map flat_map]. rewrite <- !app_assoc. reflexivity.
    + intros k. rewrite Hget2, Hget1. cbn [flat_map].
      rewrite recorded_under_app.
      destruct (od_get k d); simpl; [rewrite app_assoc|]; reflexivity.
Qed.

(** The dictionary before the loop: an empty list under "all" and under
    the string of every term. *)
Lemma init_result_get (terms : list Term) (d : odict) (k : string) :
  od_get k (fold_left (fun r term => od_set (Term_str term) [] r) terms d)
  = if existsb (fun term => String.eqb (Term_str term) k) terms
    then Some [] else od_get k d.
Proof.
  revert d. induction terms as [|t ts IH]; intros d; simpl; [reflexivity|].
  rewrite IH, od_get_set.
  destruct (String.eqb (Term_str t) k); simpl;
    destruct (existsb _ ts); reflexivity.
Qed.

Lemma add_exclude_loop (exclude : list string) (acc l : list Expr) :
  for_each (add_exclude re) exclude acc = Ok l ->
  l = acc ++ map Build_Expr exclude
  /\ Forall (fun e => re_valid re e = true) exclude.
Proof.
  revert acc. induction exclude as [|e es IH]; intros acc H; simpl in H.
  - injection H as <-. rewrite app_nil_r. split; constructor.
  - unfold add_exclude at 1, Expr_new in H.
    destruct (re_valid re e) eqn:Hv; [|discriminate]. simpl in H.
    destruct (IH _ H) as [-> Hall]. rewrite <- app_assoc.
    split; [reflexivity | constructor; assumption].
Qed.

(** [select_boards] in terms of the verdict functions. *)
Lemma select_boards_Ok (boards : list Board) (args exclude brds : list string)
    (boards' : list Board) (result : odict) (warnings : list string) :
  select_boards re boards args exclude brds = Ok (boards', result, warnings) ->
  exists terms,
    _build_terms re args = Ok terms
    /\ boards' = map (mark re terms (map Build_Expr exclude) brds) boards
    /\ (forall k,
          od_get k result
          = if String.eqb "all" k
               || existsb (fun term => String.eqb (Term_str term) k) terms
            then Some (recorded_under k
                         (flat_map (contributions re terms
                                      (map Build_Expr exclude) brds) boards))
            else None)
    /\ warnings
       = not_found_warnings brds (flat_map (found_by terms brds) boards).
Proof.
  unfold select_boards. intros H.
  inv_bind H as terms Hterms. inv_bind H as xl Hxl.
  apply add_exclude_loop in Hxl as [Hxl _]. simpl in Hxl. subst xl.
  set (d0 := fold_left (fun r term => od_set (Term_str term) [] r) terms
                       (od_set "all" [] [])) in *.
  assert (Hget0 : forall k, od_get k d0
            = if String.eqb "all" k
                 || existsb (fun term => String.eqb (Term_str term) k) terms
              then Some [] else None).
  { intros k. subst d0. rewrite init_result_get. simpl.
    destruct (existsb _ terms); [rewrite orb_true_r; reflexivity|].
    rewrite orb_false_r. destruct (String.eqb "all" k); reflexivity. }
  assert (Hready : keys_ready terms d0).
  { split.
    - rewrite Hget0. simpl. eauto.
    - intros t Ht. rewrite Hget0.
      assert (He : existsb (fun term => String.eqb (Term_str term) (Term_str t))
                           terms = true).
      { apply existsb_exists. exists t. split; [assumption|].
        apply String.eqb_refl. }
      rewrite He, orb_true_r. eauto. }
  destruct (check_loop terms (map Build_Expr exclude) brds boards [] d0 []
                       Hready) as (d' & Hloop & Hget).
  rewrite Hloop in H. cbn [rbind] in H. simpl in H. injection H as <- <- <-.
  exists terms. split; [assumption|]. split; [reflexivity|].
  split; [|reflexivity].
  intros k. rewrite Hget, Hget0.
  destruct (String.eqb "all" k || existsb _ terms); reflexivity.
Qed.

(** *** Consequences for single boards *)

Lemma In_recorded_under (k x : string) (entries : list (string * string)) :
  In x (recorded_under k entries) <-> In (k, x) entries.
Proof.
  unfold recorded_under. rewrite in_map_iff. split.
  - intros ([k' x'] & Hx & Hin). apply filter_In in Hin as [Hin Hk].
    simpl in *. apply String.eqb_eq in Hk. subst. assumption.
  - intros Hin. exists (k, x). split; [reflexivity|].
    apply filter_In. split; [assumption | apply String.eqb_refl].
Qed.

Lemma NoDup_map_eq {A B : Type} (f : A -> B) (l : list A) (a b : A) :
  NoDup (map f l) -> In a l -> In b l -> f a = f b -> a = b.
Proof.
  induction l as [|x l IH]; simpl; intros Hnd Ha Hb Hf; [contradiction|].
  apply NoDup_cons in Hnd as [Hx Hnd].
  destruct Ha as [->|Ha], Hb as [->|Hb]; auto.
  - exfalso. apply Hx. rewrite list_elem_of_In, Hf. apply in_map. assumption.
  - exfalso. apply Hx. rewrite list_elem_of_In, <- Hf. apply in_map. assumption.
Qed.

Lemma lookup_In {A : Type} (l : list A) (i : nat) (x : A) :
  l !! i = Some x -> In x l.
Proof. intros H. apply list_elem_of_In. exact (list_elem_of_lookup_2 _ _ _ H). Qed.

Lemma contributions_In (terms : list Term) (exclude_list : list Expr)
    (brds : list string) (brd : Board) (k x : string) :
  In (k, x) (contributions re terms exclude_list brds brd) ->
  x = target brd
  /\ selected re terms exclude_list brds brd = true
  /\ (k = "all" \/ first_match re terms (props brd) = Some k).
Proof.
  unfold contributions. destruct (selected re terms exclude_list brds brd);
    [|contradiction].
  intros Hin. apply in_app_iff in Hin as [Hin|Hin].
  - destruct (first_match re terms (props brd)) as [s|]; [|contradiction].
    destruct (truthy s); [|contradiction].
    destruct Hin as [[= <- <-]|[]]. auto.
  - destruct Hin as [[= <- <-]|[]]. auto.
Qed.



(** Whatever lists the target of a board with a unique name was added by
    that board. *)
Lemma recorded_origin (terms : list Term) (exclude_list : list Expr)
    (brds : list string) (boards : list Board) (brd : Board) (k : string) :
  NoDup (map target boards) ->
  In brd boards ->
  In (target brd)
     (recorded_under k
        (flat_map (contributions re terms exclude_list brds) boards)) ->
  In (k, target brd) (contributions re terms exclude_list brds brd).
Proof.
  intros Hnd Hin Hrec. apply In_recorded_under in Hrec.
  apply in_flat_map in Hrec as (b' & Hb' & Hc).
  destruct (contributions_In _ _ _ _ _ _ Hc) as (Ht & _).
  pose proof (NoDup_map_eq target boards brd b' Hnd Hin Hb' Ht) as Heq.
  subst b'. assumption.
Qed.


(** *** Terms *)




Lemma for_each_invariant {A S : Type} (P : S -> Prop) (Q : A -> Prop)
    (body : S -> A -> result S) (l : list A) (s s' : S) :
  (forall s x s', Q x -> P s -> body s x = Ok s' -> P s') ->
  Forall Q l -> P s -> for_each body l s = Ok s' -> P s'.
Proof.
  intros Hstep Hall. revert s. induction Hall as [|x l Hx _ IH]; intros s Hs H.
  - injection H as <-. assumption.
  - rewrite for_each_cons in H. inv_bind H as s1 Hs1.
    apply (IH s1); [|assumption]. exact (Hstep _ _ _ Hx Hs Hs1).
Qed.

Lemma In_removelast {A : Type} (x : A) (l : list A) :
  In x (removelast l) -> In x l.
Proof.
  induction l as [|y [|z l] IH]; simpl; [tauto | tauto |].
  intros [->|H]; [left; reflexivity | right; apply IH; assumption].
Qed.







(** C1 (the code departs from the specification): as soon as [args] yields a term,
    the explicit list [brds] plays no part. A board that no term matches
    keeps its flag although its target may be in [brds], its target is not
    put in [result['all']], and every name of [brds] is reported as not
    found. *)
Theorem terms_disable_explicit_names (boards : list Board)
    (args exclude brds : list string) (boards' : list Board) (result : odict)
    (warnings : list string) (term : Term) (terms : list Term) :
  select_boards re boards args exclude brds = Ok (boards', result, warnings) ->
  _build_terms re args = Ok (term :: terms) ->
  warnings = not_found_warnings brds []
  /\ forall i brd,
       boards !! i = Some brd ->
       first_match re (term :: terms) (props brd) = None ->
       boards' !! i = Some brd
       /\ (NoDup (map target boards) ->
           exists all, od_get "all" result = Some all /\ ~ In (target brd) all).
Proof.
  intros Hsel Hterms.
  destruct (select_boards_Ok _ _ _ _ _ _ _ Hsel)
    as (terms' & Hterms' & -> & Hget & ->).
  rewrite Hterms in Hterms'. injection Hterms' as <-. split.
  - f_equal. clear. induction boards as [|b bs IH]; [reflexivity|]. exact IH.
  - intros i brd Hi Hnone.
    assert (Hnsel : selected re (term :: terms) (map Build_Expr exclude) brds brd
                    = false).
    { unfold selected, included. rewrite Hnone.
      destruct (excluded _ _ _); reflexivity. }
    split.
    + rewrite list_lookup_fmap, Hi. simpl. unfold mark. rewrite Hnsel.
      reflexivity.
    + intros Hnd. rewrite Hget. simpl. eexists. split; [reflexivity|].
      intros Hrec.
      apply (recorded_origin _ _ _ _ _ _ Hnd (lookup_In _ _ _ Hi)) in Hrec.
      apply contributions_In in Hrec as (_ & Hs & _). congruence.
Qed.

End Loop.



Lemma terms_disable_explicit_names_witness :
  select_boards Examples.literal_re [Examples.bar_board] ["arm"] [] ["bar"]
  = Ok ([Examples.bar_board], [("all", []); ("arm", [])],
        ["Boards not found: bar" +:+ NL])
  /\ ["Boards not found: bar" +:+ NL] = not_found_warnings ["bar"] []
  /\ forall i brd,
       [Examples.bar_board] !! i = Some brd ->
       first_match Examples.literal_re
         [{| _expr_list := [{| _expr := "arm" |}] |}] (props brd) = None ->
       [Examples.bar_board] !! i = Some brd
       /\ (NoDup (map target [Examples.bar_board]) ->
           exists all, od_get "all" [("all", []); ("arm", [])] = Some all
                       /\ ~ In (target brd) all).
Proof.
  split; [vm_compute; reflexivity|].
  apply (terms_disable_explicit_names Examples.literal_re
           [Examples.bar_board] ["arm"] [] ["bar"] [Examples.bar_board]
           [("all", []); ("arm", [])] ["Boards not found: bar" +:+ NL]
           {| _expr_list := [{| _expr := "arm" |}] |} []).
  - vm_compute. reflexivity.
  - reflexivity.
Defined.


End SelectFacts.

(** ** MaintainersDatabase.parse_file *)

Module ParseFacts.
Import MaintainersDatabase.

Section Parse.
Variable re : regex.
Variable fs : filesystem.

(** A commented maintainer line is handled as a maintainer line. *)
Lemma commented_maintainer_tag (line : string) :
  String.eqb (take 3 line) "#M:" = true ->
  String.eqb (take 2 (drop 1 line)) "M:" = true.
Proof.
  intros H. apply String.eqb_eq in H.
  destruct line as [|a [|b [|c line]]]; simpl in H; try discriminate H.
  injection H as -> -> ->. reflexivity.
Qed.

(** A line other than the blank one leaves the database alone, and what
    it does to the other locals does not depend on the database. *)
Lemma parse_line_with_db (srcdir : string) (st st' : pstate) (line : string)
    (d : gmap string (string * list string)) :
  line <> NL ->
  parse_line re fs srcdir st line = Ok st' ->
  db st' = db st
  /\ parse_line re fs srcdir (with_db d st) line = Ok (with_db d st').
Proof.
  intros Hnl. unfold parse_line.
  destruct (String.eqb (take 3 line) "#M:") eqn:Hc.
  - rewrite (commented_maintainer_tag _ Hc). intros [= <-].
    split; reflexivity.
  - destruct (String.eqb (take 2 line) "M:");
      [intros [= <-]; split; reflexivity|].
    destruct (String.eqb (take 2 line) "F:");
      [intros [= <-]; split; reflexivity|].
    destruct (String.eqb (take 2 line) "S:");
      [intros [= <-]; split; reflexivity|].
    destruct (String.eqb (take 2 line) "N:").
    + intros H. inv_bind H as ts Hts. injection H as <-.
      cbn [targets with_db]. rewrite Hts. split; reflexivity.
    + destruct (String.eqb_spec line NL) as [Heq|_]; [contradiction|].
      intros [= <-]. split; reflexivity.
Qed.

Lemma parse_record_with_db (srcdir : string) (record : list string)
    (st st' : pstate) (d : gmap string (string * list string)) :
  Forall (fun line => line <> NL) record ->
  for_each (parse_line re fs srcdir) record st = Ok st' ->
  for_each (parse_line re fs srcdir) record (with_db d st) = Ok (with_db d st').
Proof.
  intros Hall. revert st. induction Hall as [|line record Hline _ IH];
    intros st H.
  - injection H as <-. reflexivity.
  - rewrite for_each_cons in *. inv_bind H as st1 Hst1.
    destruct (parse_line_with_db srcdir st st1 line d Hline Hst1) as [_ Hd].
    rewrite Hd. cbn [rbind]. apply IH. assumption.
Qed.

(** The blank line binds the pending targets and resets the locals. *)
Lemma parse_blank_line (srcdir : string) (st : pstate) :
  parse_line re fs srcdir st NL = Ok (record_start (add_targets st)).
Proof. reflexivity. Qed.

Lemma add_targets_In (st : pstate) (t : string) :
  In t (targets st) -> add_targets st !! t = Some (status st, maintainers st).
Proof.
  unfold add_targets. generalize (db st).
  induction (targets st) as [|x ts IH] using rev_ind; intros d Hin;
    [contradiction|].
  rewrite fold_left_app. simpl.
  destruct (decide (x = t)) as [->|Hne]; [apply lookup_insert_eq|].
  rewrite lookup_insert_ne by assumption. apply IH.
  apply in_app_iff in Hin as [Hin|[Hx|[]]]; [assumption | contradiction].
Qed.

Lemma add_targets_not_In (st : pstate) (t : string) :
  ~ In t (targets st) -> add_targets st !! t = db st !! t.
Proof.
  unfold add_targets. generalize (db st).
  induction (targets st) as [|x ts IH]; intros d Hin; [reflexivity|].
  simpl. rewrite IH by (intros H; apply Hin; right; assumption).
  apply lookup_insert_ne. intros ->. apply Hin. left. reflexivity.
Qed.

(** The targets that a line adds do not depend on those already there. *)
Lemma f_items_app (srcdir : string) (items : list string) (acc : list string) :
  fold_left (f_item srcdir) items acc
  = acc ++ fold_left (f_item srcdir) items [].
Proof.
  revert acc. induction items as [|item items IH]; intros acc; simpl.
  - rewrite app_nil_r. reflexivity.
  - rewrite (IH (f_item srcdir acc item)), (IH (f_item srcdir [] item)).
    rewrite app_assoc. f_equal. unfold f_item.
    destruct (partition "configs/" item) as [[front m] rear].
    destruct (String.eqb _ srcdir && truthy m); [|rewrite app_nil_r; reflexivity].
    destruct (rpartition "_defconfig" rear) as [[front' m'] rear'].
    destruct (truthy m' && negb (truthy rear'));
      [reflexivity | rewrite app_nil_r; reflexivity].
Qed.

Lemma n_item_app (srcdir rest dirpath cfg : string) (acc : list string) :
  n_item re srcdir rest dirpath acc cfg
  = let* added := n_item re srcdir rest dirpath [] cfg in Ok (acc ++ added).
Proof.
  unfold n_item.
  destruct (partition "configs/" _) as [[front m] rear].
  destruct (truthy front || negb (truthy m));
    [simpl; rewrite app_nil_r; reflexivity|].
  destruct (rpartition "_defconfig" rear) as [[front' m'] rear'].
  destruct (truthy m' && negb (truthy rear'));
    [|simpl; rewrite app_nil_r; reflexivity].
  destruct (re_valid re rest); [|reflexivity].
  destruct (re_search re rest front'); simpl;
    [reflexivity | rewrite app_nil_r; reflexivity].
Qed.

Lemma n_items_app (srcdir rest dirpath : string) (fnames : list string)
    (acc : list string) :
  for_each (n_item re srcdir rest dirpath) fnames acc
  = let* added := for_each (n_item re srcdir rest dirpath) fnames [] in
    Ok (acc ++ added).
Proof.
  revert acc. induction fnames as [|cfg fnames IH]; intros acc.
  - simpl. rewrite app_nil_r. reflexivity.
  - rewrite !for_each_cons, (n_item_app _ _ _ _ acc).
    destruct (n_item re srcdir rest dirpath [] cfg) as [a|e]; [|reflexivity].
    cbn [rbind app]. rewrite (IH (acc ++ a)), (IH a).
    destruct (for_each _ fnames []) as [b|e]; [|reflexivity].
    cbn [rbind]. rewrite app_assoc. reflexivity.
Qed.

Lemma n_walk_app (srcdir rest : string) (walk : list (string * list string))
    (acc : list string) :
  for_each (fun acc '(dirpath, fnames) =>
              for_each (n_item re srcdir rest dirpath) fnames acc) walk acc
  = let* added :=
      for_each (fun acc '(dirpath, fnames) =>
                  for_each (n_item re srcdir rest dirpath) fnames acc)
               walk [] in
    Ok (acc ++ added).
Proof.
  revert acc. induction walk as [|[dirpath fnames] walk IH]; intros acc.
  - simpl. rewrite app_nil_r. reflexivity.
  - rewrite !for_each_cons. rewrite (n_items_app _ _ _ _ acc).
    destruct (for_each (n_item re srcdir rest dirpath) fnames []) as [a|e];
      [|reflexivity].
    cbn [rbind app]. rewrite (IH (acc ++ a)), (IH a).
    destruct (for_each _ walk []) as [b|e]; [|reflexivity].
    cbn [rbind]. rewrite app_assoc. reflexivity.
Qed.

(** A line that parses at the start of a record parses in every state,
    adding the same targets and leaving the database alone. *)
Lemma parse_line_from_start (srcdir : string) (line : string)
    (st0 st : pstate) :
  line <> NL ->
  parse_line re fs srcdir (record_start ∅) line = Ok st0 ->
  exists st',
    parse_line re fs srcdir st line = Ok st'
    /\ targets st' = targets st ++ targets st0
    /\ db st' = db st.
Proof.
  intros Hnl. unfold parse_line.
  destruct (String.eqb (take 3 line) "#M:") eqn:Hc.
  - rewrite (commented_maintainer_tag _ Hc). intros [= <-].
    eexists. split; [reflexivity|]. simpl. rewrite app_nil_r. auto.
  - destruct (String.eqb (take 2 line) "M:").
    { intros [= <-]. eexists. split; [reflexivity|]. simpl.
      rewrite app_nil_r. auto. }
    destruct (String.eqb (take 2 line) "F:").
    { intros [= <-]. eexists. split; [reflexivity|]. simpl.
      split; [apply f_items_app | reflexivity]. }
    destruct (String.eqb (take 2 line) "S:").
    { intros [= <-]. eexists. split; [reflexivity|]. simpl.
      rewrite app_nil_r. auto. }
    destruct (String.eqb (take 2 line) "N:").
    { intros H. inv_bind H as ts Hts. injection H as <-.
      cbn [targets record_start] in Hts. rewrite n_walk_app, Hts.
      cbn [rbind]. eexists. split; [reflexivity|]. simpl. auto. }
    destruct (String.eqb_spec line NL) as [Heq|_]; [contradiction|].
    intros [= <-]. eexists. split; [reflexivity|]. simpl.
    rewrite app_nil_r. auto.
Qed.

(** Lines that bind [target] nowhere leave its entry alone. *)
Lemma unbound_lines (srcdir target : string) (lines : list string)
    (st : pstate) :
  Forall (fun line =>
            exists st0,
              parse_line re fs srcdir (record_start ∅) line = Ok st0
              /\ ~ In target (targets st0)) lines ->
  ~ In target (targets st) ->
  exists st',
    for_each (parse_line re fs srcdir) lines st = Ok st'
    /\ ~ In target (targets st')
    /\ db st' !! target = db st !! target.
Proof.
  intros Hall. revert st.
  induction Hall as [|line lines (st0 & Hline & Hnot) _ IH]; intros st Hst.
  - exists st. split; [reflexivity | auto].
  - rewrite for_each_cons. destruct (String.eqb_spec line NL) as [->|Hnl].
    + rewrite parse_blank_line. cbn [rbind].
      destruct (IH (record_start (add_targets st))) as (st' & Hrun & Hn & Hdb);
        [simpl; tauto|].
      exists st'. split; [assumption|]. split; [assumption|].
      rewrite Hdb. simpl. apply add_targets_not_In. assumption.
    + destruct (parse_line_from_start srcdir line st0 st Hnl Hline)
        as (st1 & Hst1 & Ht1 & Hd1).
      rewrite Hst1. cbn [rbind].
      destruct (IH st1) as (st' & Hrun & Hn & Hdb).
      { rewrite Ht1. intros Hin. apply in_app_iff in Hin. tauto. }
      exists st'. split; [assumption|]. split; [assumption|]. congruence.
Qed.

(** C8: last write wins. Take a file whose lines are some earlier lines, a
    blank line, a record that binds [target], and then nothing or a blank
    line followed by lines that bind [target] nowhere. [parse_file] returns
    and maps [target] to the status and the maintainer list of that record
    as scanned on its own, whatever the earlier lines bound it to; no
    warning is issued. *)
Theorem last_record_wins (self : MaintainersDatabase.t)
    (srcdir fname content : string) (earlier record later : list string)
    (st_earlier st : pstate) (target : string) :
  fs_open fs fname = Ok content ->
  readlines content = earlier ++ NL :: record ++ later ->
  Forall (fun line => line <> NL) record ->
  (later = [] \/ exists rest, later = NL :: rest) ->
  Forall (fun line =>
            exists st0,
              parse_line re fs srcdir (record_start ∅) line = Ok st0
              /\ ~ In target (targets st0)) later ->
  for_each (parse_line re fs srcdir) earlier (record_start (database self))
    = Ok st_earlier ->
  for_each (parse_line re fs srcdir) record (record_start ∅) = Ok st ->
  In target (targets st) ->
  exists self',
    parse_file re fs self srcdir fname = Ok self'
    /\ database self' !! target = Some (status st, maintainers st)
    /\ warnings self' = warnings self.
Proof.
  intros Hopen Hlines Hrecord Hsep Hlater Hearlier Hscan Hin.
  unfold parse_file, parse_lines. rewrite Hopen. cbn [rbind].
  rewrite Hlines, for_each_app.
  change (for_each (parse_line re fs srcdir) earlier
            {| targets := []; maintainers := []; status := "-";
               db := database self |})
    with (for_each (parse_line re fs srcdir) earlier
            (record_start (database self))).
  rewrite Hearlier. cbn [rbind]. rewrite for_each_cons, parse_blank_line.
  cbn [rbind]. rewrite for_each_app.
  pose proof (parse_record_with_db srcdir record _ _ (add_targets st_earlier)
                Hrecord Hscan) as Hrun.
  change (with_db (add_targets st_earlier) (record_start ∅))
    with (record_start (add_targets st_earlier)) in Hrun.
  rewrite Hrun. cbn [rbind].
  set (bound := with_db (add_targets st_earlier) st).
  assert (Hbound : add_targets bound !! target
                   = Some (status st, maintainers st))
    by exact (add_targets_In bound target Hin).
  assert (Hne : earlier ++ NL :: record ++ later <> [])
    by (destruct earlier; discriminate).
  destruct Hsep as [->|(rest & ->)].
  - cbn [for_each rbind].
    destruct (earlier ++ NL :: record ++ []); [contradiction|].
    eexists. split; [reflexivity|]. split; [exact Hbound | reflexivity].
  - apply Forall_cons in Hlater as [_ Hrest].
    rewrite for_each_cons, parse_blank_line. cbn [rbind].
    destruct (unbound_lines srcdir target rest
                (record_start (add_targets bound)) Hrest)
      as (st' & Hst' & Hn & Hdb); [simpl; tauto|].
    rewrite Hst'. cbn [rbind].
    destruct (earlier ++ NL :: record ++ NL :: rest); [contradiction|].
    eexists. split; [reflexivity|]. split; [|reflexivity].
    cbn [database]. rewrite (add_targets_not_In st' target Hn), Hdb.
    exact Hbound.
Qed.

End Parse.

Lemma last_record_wins_witness :
  exists self',
    parse_file Examples.literal_re Examples.two_records_tree
               MaintainersDatabase.new "." "./MAINTAINERS" = Ok self'
    /\ database self' !! "bar" = Some ("Orphan", ["Bob"])
    /\ warnings self' = [].
Proof.
  apply (last_record_wins Examples.literal_re Examples.two_records_tree
           MaintainersDatabase.new "." "./MAINTAINERS" Examples.two_records
           ["M: Alice" +:+ NL; "F: configs/bar_defconfig" +:+ NL;
            "S: Maintained" +:+ NL]
           ["M: Bob" +:+ NL; "F: configs/bar_defconfig" +:+ NL;
            "S: Orphan" +:+ NL]
           [NL; "M: Carol" +:+ NL; "F: configs/zed_defconfig" +:+ NL;
            "S: Maintained" +:+ NL]
           {| targets := ["bar"]; maintainers := ["Alice"];
              status := "Maintained"; db := ∅ |}
           {| targets := ["bar"]; maintainers := ["Bob"];
              status := "Orphan"; db := ∅ |}
           "bar").
  - reflexivity.
  - reflexivity.
  - repeat constructor; discriminate.
  - right. eexists. reflexivity.
  - repeat constructor; (eexists; split; [reflexivity|]); simpl;
      intuition discriminate.
  - reflexivity.
  - reflexivity.
  - left. reflexivity.
Defined.

End ParseFacts.

(** ** output_is_new *)

Module StaleFacts.

Lemma for_return_flag {A : Type} (body : A -> result (option bool))
    (p : A -> bool) (l : list A) :
  (forall x, In x l -> body x = Ok (if p x then Some false else None)) ->
  for_return body l = Ok (if existsb p l then Some false else None).
Proof.
  induction l as [|x l IH]; intros H; simpl; [reflexivity|].
  rewrite (H x) by (left; reflexivity).
  destruct (p x); simpl; [reflexivity|].
  apply IH. intros y Hy. apply H. right. assumption.
Qed.

Lemma for_return_None {A R : Type} (body : A -> result (option R))
    (l : list A) :
  (forall x, In x l -> body x = Ok None) -> for_return body l = Ok None.
Proof.
  induction l as [|x l IH]; intros H; simpl; [reflexivity|].
  rewrite (H x) by (left; reflexivity). simpl.
  apply IH. intros y Hy. apply H. right. assumption.
Qed.

Section Staleness.
Variable fs : filesystem.

Lemma newer_than_None (ctime : Z) (path : string) :
  not_newer fs ctime path -> newer_than fs ctime path = Ok None.
Proof.
  intros (t & Ht & Hle). unfold newer_than. rewrite Ht. simpl.
  destruct (Z.ltb_spec ctime t); [lia | reflexivity].
Qed.

Lemma check_defconfigs_None (ctime : Z) (config_dir : string) :
  Forall (not_newer fs ctime) (defconfig_paths fs config_dir) ->
  check_defconfigs fs ctime config_dir = Ok None.
Proof.
  intros Hall. rewrite List.Forall_forall in Hall. unfold check_defconfigs.
  apply for_return_None. intros [dirpath filenames] Hdir.
  apply for_return_None. intros filename Hfile.
  apply filter_In in Hfile as [Hfile Hsuffix].
  destruct (startswith filename ".") eqn:Hdot; [reflexivity|].
  apply newer_than_None, Hall. unfold defconfig_paths.
  apply in_flat_map. exists (dirpath, filenames). split; [assumption|].
  apply in_map, filter_In. split; [assumption|].
  rewrite Hsuffix, Hdot. reflexivity.
Qed.

Lemma check_kconfigs_None (ctime : Z) (srcdir : string) :
  Forall (not_newer fs ctime) (kconfig_paths fs srcdir) ->
  check_kconfigs fs ctime srcdir = Ok None.
Proof.
  intros Hall. rewrite List.Forall_forall in Hall. unfold check_kconfigs.
  apply for_return_None. intros [dirpath filenames] Hdir.
  apply for_return_None. intros filename Hfile.
  destruct (endswith filename "~"
            || negb (startswith filename "Kconfig")
               && negb (String.eqb filename "MAINTAINERS")) eqn:Hskip;
    [reflexivity|].
  apply newer_than_None, Hall. unfold kconfig_paths.
  apply in_flat_map. exists (dirpath, filenames). split; [assumption|].
  apply in_map, filter_In. split; [assumption|].
  destruct (endswith filename "~"); [discriminate|]. simpl in *.
  destruct (startswith filename "Kconfig"); [reflexivity|]. simpl in *.
  destruct (String.eqb filename "MAINTAINERS"); [reflexivity | discriminate].
Qed.

Lemma stale_lineb_true (config_dir line : string) :
  stale_lineb fs config_dir line = true <-> stale_line fs config_dir 6 line.
Proof.
  unfold stale_lineb, stale_line. rewrite andb_true_iff. split.
  - intros [Hd Hf]. split; [assumption|].
    destruct (nth_error (split line) 6) as [field|]; [|discriminate].
    exists field. split; [reflexivity|]. apply negb_true_iff. assumption.
  - intros [Hd (field & Hn & He)]. split; [assumption|].
    rewrite Hn. apply negb_true_iff. assumption.
Qed.

Lemma check_line_verdict (config_dir line : string) :
  contains "Options," line = false ->
  line <> "" ->
  (data_line line = true -> 7 <= length (split line)) ->
  check_line fs config_dir line
  = Ok (if stale_lineb fs config_dir line then Some false else None).
Proof.
  intros Hopt Hne Hlen. unfold check_line, stale_lineb. rewrite Hopt.
  destruct line as [|c rest]; [contradiction|].
  unfold data_line in *.
  destruct (Ascii.eqb c "#" || String.eqb (String c rest) NL); [reflexivity|].
  simpl negb in *. cbn [andb].
  destruct (nth_error (split (String c rest)) 6) as [field|] eqn:Hn.
  - destruct (fs_exists fs _); reflexivity.
  - apply nth_error_None in Hn. specialize (Hlen eq_refl). lia.
Qed.

Lemma lines_chars_nonempty (cur l : list ascii) :
  Forall (fun line => line <> []) (lines_chars cur l).
Proof.
  revert cur. induction l as [|c l IH]; intros cur; simpl.
  - destruct cur as [|x cur]; constructor; [|constructor].
    simpl. intros H. apply app_eq_nil in H as [_ H]. discriminate.
  - destruct (Ascii.eqb c "010"); [|apply IH].
    constructor; [|apply IH].
    simpl. intros H. apply app_eq_nil in H as [_ H]. discriminate.
Qed.

(** Iterating over a file never yields an empty line. *)
Lemma readlines_nonempty (content : string) :
  Forall (fun line => line <> "") (readlines content).
Proof.
  unfold readlines. apply List.Forall_map.
  eapply List.Forall_impl; [|apply lines_chars_nonempty].
  intros [|c l] H; [contradiction | discriminate].
Qed.

(** C2, as amended: for an output file that exists, can be read, is not
    older than any defconfig, Kconfig or MAINTAINERS file, holds no
    "Options," line and whose data lines have at least seven fields,
    [output_is_new] returns, and it returns False exactly when the seventh
    field of some data line, with the suffix, names no file in the configs
    directory. In the layout that [format_and_output] writes the seventh
    field is the target; the config name is the eighth. *)
Theorem output_is_new_missing_target (output config_dir srcdir content : string)
    (ctime : Z) :
  fs_getctime fs output = Ok ctime ->
  fs_open fs output = Ok content ->
  Forall (not_newer fs ctime) (defconfig_paths fs config_dir) ->
  Forall (not_newer fs ctime) (kconfig_paths fs srcdir) ->
  Forall (fun line => contains "Options," line = false) (readlines content) ->
  Forall (fun line => data_line line = true -> 7 <= length (split line))
         (readlines content) ->
  (exists b, output_is_new fs output config_dir srcdir = Ok b)
  /\ (output_is_new fs output config_dir srcdir = Ok false
      <-> exists line, In line (readlines content)
                       /\ stale_line fs config_dir 6 line)
  /\ column "target" = Some 6
  /\ column "config" = Some 7.
Proof.
  intros Hctime Hopen Hdef Hkc Hopt Hlen.
  assert (Hrun : output_is_new fs output config_dir srcdir
                 = Ok (negb (existsb (stale_lineb fs config_dir)
                                     (readlines content)))).
  { unfold output_is_new. rewrite Hctime.
    rewrite (check_defconfigs_None _ _ Hdef). cbn [rbind].
    rewrite (check_kconfigs_None _ _ Hkc). cbn [rbind].
    rewrite Hopen. cbn [rbind].
    rewrite (for_return_flag (check_line fs config_dir)
                             (stale_lineb fs config_dir)).
    - cbn [rbind]. destruct (existsb _ _); reflexivity.
    - intros line Hin. rewrite List.Forall_forall in Hopt, Hlen.
      pose proof (readlines_nonempty content) as Hne.
      rewrite List.Forall_forall in Hne.
      apply check_line_verdict; auto. }
  rewrite Hrun. split; [eauto|]. split; [|split; reflexivity].
  split.
  - intros [= Hex]. apply negb_false_iff, existsb_exists in Hex.
    destruct Hex as (line & Hin & Hst). exists line.
    split; [assumption | apply stale_lineb_true; assumption].
  - intros (line & Hin & Hst). f_equal. apply negb_false_iff, existsb_exists.
    exists line. split; [assumption | apply stale_lineb_true; assumption].
Qed.

End Staleness.

Lemma enough_fields_forallb (lines : list string) :
  forallb (fun line => implb (data_line line) (7 <=? length (split line))%nat)
          lines = true ->
  Forall (fun line => data_line line = true -> 7 <= length (split line)) lines.
Proof.
  intros H. apply List.Forall_forall. intros line Hin Hd.
  rewrite forallb_forall in H. specialize (H line Hin). rewrite Hd in H.
  apply Nat.leb_le. exact H.
Qed.

Lemma no_marker_forallb (lines : list string) :
  forallb (fun line => negb (contains "Options," line)) lines = true ->
  Forall (fun line => contains "Options," line = false) lines.
Proof.
  intros H. apply List.Forall_forall. intros line Hin.
  rewrite forallb_forall in H. apply negb_true_iff, H, Hin.
Qed.

Lemma output_is_new_missing_target_witness :
  (exists b, output_is_new Examples.foo_tree "boards.cfg" "configs" "." = Ok b)
  /\ (output_is_new Examples.foo_tree "boards.cfg" "configs" "." = Ok false
      <-> exists line, In line (readlines Examples.foo_database)
                       /\ stale_line Examples.foo_tree "configs" 6 line)
  /\ column "target" = Some 6
  /\ column "config" = Some 7.
Proof.
  apply (output_is_new_missing_target Examples.foo_tree "boards.cfg" "configs"
           "." Examples.foo_database 10%Z).
  - reflexivity.
  - reflexivity.
  - repeat constructor. exists 5%Z. split; [reflexivity | lia].
  - repeat constructor; exists 5%Z; (split; [reflexivity | lia]).
  - apply no_marker_forallb. vm_compute. reflexivity.
  - apply enough_fields_forallb. vm_compute. reflexivity.
Defined.

(** C2, as stated, fails: in the database written for a board whose config
    name differs from its target, the config column of the only data line
    names no defconfig file, the output is not older than any source file
    and holds no "Options," line, and yet [output_is_new] returns True.
    Read for the seventh field alone the statement fails too: after a data
    line of fewer than seven fields [output_is_new] raises IndexError
    although the seventh field of a later line names no defconfig file. *)
Lemma config_column_counterexample :
  (fs_getctime Examples.short_line_tree "boards.cfg" = Ok 10%Z
   /\ fs_open Examples.short_line_tree "boards.cfg"
      = Ok Examples.short_line_database
   /\ defconfig_paths Examples.short_line_tree "configs" = []
   /\ kconfig_paths Examples.short_line_tree "." = []
   /\ Forall (fun line => contains "Options," line = false)
             (readlines Examples.short_line_database)
   /\ (exists line, In line (readlines Examples.short_line_database)
                    /\ stale_line Examples.short_line_tree "configs" 6 line)
   /\ output_is_new Examples.short_line_tree "boards.cfg" "configs" "."
      = Raise IndexError)
  /\ fs_getctime Examples.foo_tree "boards.cfg" = Ok 10%Z
  /\ fs_open Examples.foo_tree "boards.cfg" = Ok Examples.foo_database
  /\ Forall (not_newer Examples.foo_tree 10)
            (defconfig_paths Examples.foo_tree "configs")
  /\ Forall (not_newer Examples.foo_tree 10)
            (kconfig_paths Examples.foo_tree ".")
  /\ Forall (fun line => contains "Options," line = false)
            (readlines Examples.foo_database)
  /\ column "config" = Some 7
  /\ (exists line, In line (readlines Examples.foo_database)
                   /\ stale_line Examples.foo_tree "configs" 7 line)
  /\ output_is_new Examples.foo_tree "boards.cfg" "configs" "." = Ok true
  /\ output_is_new Examples.foo_tree "boards.cfg" "configs" "." <> Ok false.
Proof.
  split.
  { split; [reflexivity|]. split; [reflexivity|]. split; [reflexivity|].
    split; [reflexivity|].
    split; [apply no_marker_forallb; vm_compute; reflexivity|].
    split; [|reflexivity].
    exists ("Active  arm  armv7  -  acme  gone  gone  gone  Alice" +:+ NL).
    split; [vm_compute; tauto|].
    split; [reflexivity|]. exists "gone". split; reflexivity. }
  split; [reflexivity|]. split; [reflexivity|].
  split; [repeat constructor; exists 5%Z; (split; [reflexivity | lia])|].
  split; [repeat constructor; exists 5%Z; (split; [reflexivity | lia])|].
  split; [apply no_marker_forallb; vm_compute; reflexivity|].
  split; [reflexivity|].
  split.
  - exists ("Active  arm  armv7  -  acme  foo  foo  bar  Alice" +:+ NL).
    split; [vm_compute; tauto|].
    split; [reflexivity|]. exists "bar". split; reflexivity.
  - split; [reflexivity | discriminate].
Qed.

End StaleFacts.

(** ** Strings: split, strip and line iteration *)

Module StringFacts.

Lemma chars_append (a b : string) : chars (a +:+ b) = chars a ++ chars b.
Proof.
  induction a as [|c a IH]; [reflexivity|].
  rewrite ScannerFacts.append_cons. simpl. f_equal. exact IH.
Qed.

Lemma chars_of_chars (l : list ascii) : chars (of_chars l) = l.
Proof. apply list_ascii_of_string_of_list_ascii. Qed.

Lemma of_chars_chars (s : string) : of_chars (chars s) = s.
Proof. apply string_of_list_ascii_of_string. Qed.

Lemma chars_inj (a b : string) : chars a = chars b -> a = b.
Proof.
  intros H. rewrite <- (of_chars_chars a), <- (of_chars_chars b), H.
  reflexivity.
Qed.

Lemma append_assoc (a b c : string) : (a +:+ b) +:+ c = a +:+ b +:+ c.
Proof. apply chars_inj. rewrite !chars_append, app_assoc. reflexivity. Qed.

Lemma length_chars (s : string) : length (chars s) = String.length s.
Proof. induction s as [|c s IH]; simpl; [reflexivity | f_equal; exact IH]. Qed.

(** *** split *)

Lemma split_chars_spaces (ws l : list ascii) :
  Forall (fun c => is_space c = true) ws ->
  split_chars (ws ++ l) = split_chars l.
Proof.
  induction 1 as [|c ws Hc _ IH]; simpl; [reflexivity|].
  rewrite Hc. exact IH.
Qed.

Lemma split_chars_all_spaces (ws : list ascii) :
  Forall (fun c => is_space c = true) ws -> split_chars ws = [].
Proof.
  intros H. rewrite <- (app_nil_r ws). rewrite split_chars_spaces by assumption.
  reflexivity.
Qed.

Lemma split_chars_word (w l : list ascii) :
  w <> [] ->
  Forall (fun c => is_space c = false) w ->
  separated l ->
  split_chars (w ++ l) = w :: split_chars l.
Proof.
  intros Hne Hw Hl. induction Hw as [|c w Hc Hw IH]; [contradiction|].
  simpl. rewrite Hc. destruct w as [|c' w'].
  - simpl. destruct l as [|d l']; [reflexivity|].
    simpl in Hl. rewrite Hl. reflexivity.
  - assert (Hc' : is_space c' = false) by (inversion Hw; assumption).
    cbn [app]. rewrite Hc'.
    change (c' :: w' ++ l) with ((c' :: w') ++ l).
    rewrite IH by discriminate. reflexivity.
Qed.



(** *** strip *)






Lemma lstrip_word (c : ascii) (l : list ascii) :
  is_space c = false -> lstrip_chars (c :: l) = c :: l.
Proof. intros H. simpl. rewrite H. reflexivity. Qed.



(** *** Line iteration *)







End StringFacts.

(** ** Boards.format_and_output and Boards.read_boards *)

Module RoundTripFacts.
Import Boards StringFacts.

(** *** Writing *)



Lemma add_columns (max_length : gmap string nat)
    (params : gmap string string) (fs : list string) (line : string) :
  (forall f, In f fs -> is_Some (max_length !! f) /\ is_Some (params !! f)) ->
  for_each (add_column max_length params) fs line
  = Ok (line +:+ row max_length params fs).
Proof.
  revert line. induction fs as [|f fs IH]; intros line H.
  - simpl. f_equal. apply chars_inj. rewrite chars_append, app_nil_r.
    reflexivity.
  - destruct (H f (or_introl eq_refl)) as [[w Hw] [v Hv]].
    rewrite for_each_cons. unfold add_column at 1, getitem. rewrite Hw, Hv.
    cbn [rbind]. rewrite IH by (intros g Hg; apply H; right; assumption).
    f_equal. cbn [row]. unfold field_of. rewrite Hw, Hv. cbn [default].
    rewrite !append_assoc. reflexivity.
Qed.



(** *** The fields of a written line *)











(** *** Reading *)

Section Reading.
Variable board_props : list string -> list string.





End Reading.

(** *** Sorting *)

Lemma insert_sorted_perm {A : Type} (le : A -> A -> bool) (x : A)
    (l : list A) :
  Permutation (insert_sorted le x l) (x :: l).
Proof.
  induction l as [|y l IH]; simpl; [reflexivity|].
  destruct (le x y); [reflexivity|].
  rewrite IH. apply perm_swap.
Qed.

Lemma sort_by_perm {A : Type} (le : A -> A -> bool) (l : list A) :
  Permutation (sort_by le l) l.
Proof.
  induction l as [|x l IH]; simpl; [reflexivity|].
  rewrite insert_sorted_perm. constructor. exact IH.
Qed.



Lemma insert_sorted_Sorted {A : Type} (le : A -> A -> bool) (x : A)
    (l : list A) :
  (forall a b, le a b = true \/ le b a = true) ->
  Sorted (fun a b => le a b = true) l ->
  Sorted (fun a b => le a b = true) (insert_sorted le x l).
Proof.
  intros Htotal Hl. induction Hl as [|y l Hl IH Hhd]; cbn [insert_sorted].
  - repeat constructor.
  - destruct (le x y) eqn:Hxy.
    + constructor; [constructor; assumption|]. constructor. exact Hxy.
    + constructor; [exact IH|].
      destruct l as [|z l]; cbn [insert_sorted].
      * constructor. destruct (Htotal x y); congruence.
      * destruct (le x z).
        -- constructor. destruct (Htotal x y); congruence.
        -- inversion Hhd; subst. constructor. assumption.
Qed.

Lemma sort_by_Sorted {A : Type} (le : A -> A -> bool) (l : list A) :
  (forall a b, le a b = true \/ le b a = true) ->
  Sorted (fun a b => le a b = true) (sort_by le l).
Proof.
  intros Htotal. induction l as [|x l IH]; cbn [sort_by]; [constructor|].
  apply insert_sorted_Sorted; assumption.
Qed.

(** *** The round trip *)












End RoundTripFacts.

(** ** More on KconfigScanner.scan *)

Module ScanExtras.
Import KconfigScanner ScannerFacts.

Lemma scan_refuses_other_names_witness :
  scan Examples.ascii_lower Examples.ascii_upper Examples.foo_evaluator
       "configs/foo_defconfig.orig" true
  = Raise (AssertionError (basename "configs/foo_defconfig.orig"
                             +:+ " : invalid defconfig")).
Proof.
  apply (scan_refuses_other_names Examples.ascii_lower Examples.ascii_upper
           Examples.foo_evaluator "configs/foo_defconfig.orig" true).
  reflexivity.
Defined.

Lemma scan_target_from_name_witness :
  exists target,
    basename "configs/foo_defconfig" = target +:+ "_defconfig"
    /\ fst Examples.foo_scan !! "target" = Some target
    /\ arch_normal (fst Examples.foo_scan).
Proof.
  apply (scan_target_from_name Examples.ascii_lower Examples.ascii_upper
           Examples.foo_evaluator "configs/foo_defconfig" true
           (fst Examples.foo_scan) (snd Examples.foo_scan)).
  vm_compute. reflexivity.
Defined.

Lemma scan_succeeds_witness :
  exists params warnings,
    scan Examples.ascii_lower Examples.ascii_upper Examples.foo_evaluator
         "configs/foo_defconfig" true = Ok (params, warnings)
    /\ params !! "target" = Some "foo".
Proof.
  apply (scan_succeeds Examples.ascii_lower Examples.ascii_upper
           Examples.foo_evaluator "configs/foo_defconfig" true "foo"
           Examples.foo_syms).
  - reflexivity.
  - reflexivity.
  - repeat constructor; eexists; reflexivity.
Defined.

Section Scan.
Variables str_lower str_upper : string -> string.
Variable load_config : string -> result (list (string * string)).

Lemma read_symbols_values (syms table : list (string * string))
    (params0 params1 : gmap string string) (k : string) :
  for_each (read_symbol syms) table params0 = Ok params1 ->
  In k (map fst table) \/ (exists v, params0 !! k = Some v /\ v <> "") ->
  exists v, params1 !! k = Some v /\ v <> "".
Proof.
  revert params0. induction table as [|[key symbol] table IH];
    intros params0 H Hk.
  - injection H as <-. destruct Hk as [[]|Hk]. exact Hk.
  - rewrite for_each_cons in H. inv_bind H as params Hstep.
    apply (IH params H). unfold read_symbol in Hstep.
    inv_bind Hstep as value Hvalue.
    assert (Hnew : exists v, (if truthy value then value else "-") = v
                             /\ v <> "").
    { destruct value; simpl; eexists; split; try reflexivity; discriminate. }
    destruct Hnew as (v & Hv & Hne).
    assert (Hparams : params = <[key := v]> params0).
    { subst v. destruct (truthy value); injection Hstep as <-; reflexivity. }
    subst params. simpl in Hk.
    destruct (decide (key = k)) as [->|Hneq].
    + right. exists v. rewrite lookup_insert_eq. auto.
    + destruct Hk as [[Heq|Hin]|Hold]; [contradiction | left; assumption|].
      right. rewrite lookup_insert_ne by assumption. exact Hold.
Qed.

Lemma fixup_arch_values (syms : list (string * string))
    (params params' : gmap string string) (k : string) :
  fixup_arch syms params = Ok params' ->
  (exists v, params !! k = Some v /\ v <> "") ->
  exists v, params' !! k = Some v /\ v <> "".
Proof.
  unfold fixup_arch. intros H Hk.
  inv_bind H as arch0 Harch0. inv_bind H as armv8 Hv8.
  inv_bind H as arch1 Harch1.
  assert (Hstep : forall (p : gmap string string) a,
             a <> "" ->
             (exists v, p !! k = Some v /\ v <> "") ->
             exists v, <["arch" := a]> p !! k = Some v /\ v <> "").
  { intros p a Ha Hp. destruct (decide ("arch" = k)) as [<-|Hne].
    - exists a. rewrite lookup_insert_eq. auto.
    - rewrite lookup_insert_ne by assumption. exact Hp. }
  assert (Hmid : exists v,
             (if armv8 then <["arch" := "aarch64"]> params else params) !! k
             = Some v /\ v <> "").
  { destruct armv8; [apply Hstep; [discriminate | assumption] | assumption]. }
  destruct (String.eqb arch1 "riscv").
  - destruct (String.eqb _ "y"); injection H as <-;
      (apply Hstep; [discriminate | assumption]).
  - injection H as <-. exact Hmid.
Qed.

(** X4: in a record that [scan] returns none of the six values read from
    the evaluator is missing or empty: an unset symbol is stored as "-". *)
Theorem scan_values_not_empty (defconfig : string) (warn_targets : bool)
    (params : gmap string string) (warnings : list string) :
  scan str_lower str_upper load_config defconfig warn_targets
    = Ok (params, warnings) ->
  Forall (fun key => exists v, params !! key = Some v /\ v <> "") symbol_keys.
Proof.
  unfold scan. intros H.
  destruct (partition "_defconfig" (basename defconfig))
    as [[expect_target match_] rear].
  destruct (truthy match_ && negb (truthy rear)); [|discriminate].
  cbn [negb] in H. inv_bind H as syms Hsyms. inv_bind H as params0 Hparams0.
  inv_bind H as params1 Hfix. injection H as <- <-.
  apply List.Forall_forall. intros key Hkey.
  apply (fixup_arch_values _ _ _ _ Hfix).
  destruct (read_symbols_values _ _ _ _ key Hparams0 (or_introl Hkey))
    as (v & Hv & Hne).
  exists v. split; [|assumption].
  rewrite lookup_insert_ne; [assumption|].
  intros <-. simpl in Hkey. intuition discriminate.
Qed.

(** X5: [warn_targets] changes the warnings only: with and without it
    [scan] raises the same exception or returns the same record, and
    without it there is no warning. *)
Theorem scan_warn_targets_only (defconfig : string) :
  match scan str_lower str_upper load_config defconfig true,
        scan str_lower str_upper load_config defconfig false with
  | Ok (params, _), Ok (params', warnings') =>
      params = params' /\ warnings' = []
  | Raise e, Raise e' => e = e'
  | _, _ => False
  end.
Proof.
  unfold scan.
  destruct (partition "_defconfig" (basename defconfig))
    as [[expect_target match_] rear].
  destruct (truthy match_ && negb (truthy rear)); [|reflexivity].
  cbn [negb]. destruct (load_config defconfig) as [syms|e]; [|reflexivity].
  cbn [rbind].
  destruct (for_each (read_symbol syms) _SYMBOL_TABLE ∅) as [params0|e];
    [|reflexivity].
  cbn [rbind].
  destruct (fixup_arch syms (<["target" := expect_target]> params0))
    as [params1|e]; [|reflexivity].
  cbn [rbind]. split; reflexivity.
Qed.

Lemma check_targets_fold (leaf : string) (syms : list (string * string))
    (target : option string) (warnings : list string) :
  Forall (fun e => truthy (str_lower (drop 7 (fst e))) = true)
         (enabled_targets syms) ->
  exists target' warnings',
    fold_left (check_target str_lower leaf) syms (target, warnings)
    = (target', warnings')
    /\ (target_set target = true ->
        target_set target' = true
        /\ length warnings' = length warnings + length (enabled_targets syms))
    /\ (target_set target = false ->
        match enabled_targets syms with
        | [] => target_set target' = false /\ warnings' = warnings
        | _ :: rest =>
            target_set target' = true
            /\ length warnings' = length warnings + length rest
        end).
Proof.
  revert target warnings. induction syms as [|[name value] syms IH];
    intros target warnings Hall.
  - exists target, warnings. split; [reflexivity|]. simpl.
    split; [intros H; split; [assumption | lia] | auto].
  - cbn [fold_left]. unfold check_target at 2. unfold enabled_targets in *.
    cbn [List.filter fst snd] in *.
    destruct (startswith name "TARGET_" && String.eqb value "y") eqn:Hen.
    + apply Forall_cons in Hall as [Htname Hall]. cbn [fst] in Htname.
      destruct (target_set target) eqn:Hset.
      * destruct (IH target
                     (warnings ++ ["WARNING: " +:+ leaf
                                     +:+ ": Duplicate TARGET_xxx: "
                                     +:+ default "" target +:+ " and "
                                     +:+ str_lower (drop 7 name)]) Hall)
          as (t' & w' & Hfold & Hyes & _).
        exists t', w'. split; [exact Hfold|].
        split; [|discriminate]. intros _.
        destruct (Hyes Hset) as [Ht Hlen]. split; [assumption|].
        rewrite Hlen, length_app. simpl. lia.
      * destruct (IH (Some (str_lower (drop 7 name))) warnings Hall)
          as (t' & w' & Hfold & Hyes & _).
        exists t', w'. split; [exact Hfold|].
        split; [discriminate|]. intros _.
        destruct (Hyes Htname) as [Ht Hlen]. auto.
    + destruct (IH target warnings Hall) as (t' & w' & Hfold & Hyes & Hno).
      exists t', w'. auto.
Qed.

(** X6: under [warn_targets] the number of warnings follows the number of
    enabled TARGET symbols: one warning when none is enabled, and one
    warning less than enabled symbols otherwise, so none when exactly one
    is enabled. The lower-cased names after the prefix are taken to be
    non-empty. *)
Theorem target_warnings_count (leaf expect_target : string)
    (syms : list (string * string)) :
  Forall (fun e => truthy (str_lower (drop 7 (fst e))) = true)
         (enabled_targets syms) ->
  length (target_warnings str_lower str_upper leaf expect_target syms)
  = match enabled_targets syms with
    | [] => 1
    | _ :: rest => length rest
    end.
Proof.
  intros Hall. unfold target_warnings.
  destruct (check_targets_fold leaf syms None [] Hall)
    as (t' & w' & -> & _ & Hno).
  specialize (Hno eq_refl). destruct (enabled_targets syms) as [|e rest].
  - destruct Hno as [-> ->]. reflexivity.
  - destruct Hno as [-> ->]. reflexivity.
Qed.

End Scan.

Lemma scan_values_not_empty_witness :
  Forall (fun key => exists v, fst Examples.foo_scan !! key = Some v /\ v <> "")
         symbol_keys.
Proof.
  apply (scan_values_not_empty Examples.ascii_lower Examples.ascii_upper
           Examples.foo_evaluator "configs/foo_defconfig" true
           (fst Examples.foo_scan) (snd Examples.foo_scan)).
  vm_compute. reflexivity.
Defined.

Lemma target_warnings_count_witness :
  length (target_warnings Examples.ascii_lower Examples.ascii_upper
            "foo_defconfig" "foo" Examples.foo_syms)
  = match enabled_targets Examples.foo_syms with
    | [] => 1
    | _ :: rest => length rest
    end.
Proof.
  apply (target_warnings_count Examples.ascii_lower Examples.ascii_upper
           "foo_defconfig" "foo" Examples.foo_syms).
  repeat constructor.
Defined.

End ScanExtras.

(** ** More on the ownership database and the merge *)

Module MaintainersExtras.
Import MaintainersDatabase Boards MergeFacts.

(** When [get_maintainers] names somebody, [get_status] answers "Active"
    or "-". *)
Lemma status_of_maintained (d : MaintainersDatabase.t) (target : string) :
  truthy (fst (get_maintainers d target)) = true ->
  fst (get_status d target) = "Active" \/ fst (get_status d target) = "-".
Proof.
  unfold get_maintainers, get_status.
  destruct (database d !! target) as [[st ml]|]; [|discriminate].
  destruct (startswith st "Orphan") eqn:Ho; [discriminate|]. simpl.
  intros _. destruct (startswith st "Maintained"); [auto|].
  destruct (startswith st "Supported"); auto.
Qed.

Lemma merge_loop_targets (params_list done out : list (gmap string string))
    (d d' : MaintainersDatabase.t) :
  for_each merge_step params_list (done, d) = Ok (out, d') ->
  Forall (fun p => is_Some (p !! "target")) params_list.
Proof.
  revert done d. induction params_list as [|p ps IH]; intros done d H;
    [constructor|].
  rewrite for_each_cons in H. inv_bind H as st Hst. destruct st as [done1 d1].
  constructor; [|exact (IH _ _ H)].
  unfold merge_step, merge_params, getitem in Hst.
  destruct (p !! "target"); [eauto | discriminate].
Qed.

Section Merge.
Variable re : regex.
Variable fs : filesystem.

(** X7: in the list that [insert_maintainers_info] returns there is one
    record per input record, in the same order; each has its maintainers
    and a status that is "Active" or "-", never "Orphan", and "Active" only
    with a maintainer; every other key is as it was. *)
Theorem merged_status_values (srcdir : string)
    (params_list params_list' : list (gmap string string))
    (warnings : list string) :
  insert_maintainers_info re fs srcdir params_list
    = Ok (params_list', warnings) ->
  Forall2
    (fun params params' =>
       (exists maintainers status,
           params' !! "maintainers" = Some maintainers
           /\ params' !! "status" = Some status
           /\ (status = "Active" /\ maintainers <> "" \/ status = "-"))
       /\ forall key, key <> "status" -> key <> "maintainers" ->
                      params' !! key = params !! key)
    params_list params_list'.
Proof.
  unfold insert_maintainers_info. intros H.
  inv_bind H as d Hd. inv_bind H as st Hloop. destruct st as [out d'].
  injection H as <- <-.
  pose proof (merge_loop_targets _ _ _ _ _ Hloop) as Hall.
  destruct (merge_loop params_list [] d Hall) as (d2 & Hrun & _).
  rewrite Hrun in Hloop. injection Hloop as <- _. cbn [app].
  clear Hrun. induction Hall as [|p ps [t Ht] _ IH]; [constructor|].
  cbn [map]. constructor; [|exact IH].
  rewrite Ht. change (default "" (Some t)) with t. unfold merged_record. split.
  - exists (fst (get_maintainers d t)). eexists.
    split; [rewrite lookup_insert_ne by discriminate; apply lookup_insert_eq|].
    split; [apply lookup_insert_eq|].
    destruct (truthy (fst (get_maintainers d t))) eqn:Hm; [|auto].
    destruct (status_of_maintained d t Hm) as [-> | ->]; [|auto].
    left. split; [reflexivity|]. intros Heq. rewrite Heq in Hm. discriminate.
  - intros key Hs Hm. rewrite !lookup_insert_ne by congruence. reflexivity.
Qed.

(** X8: once the database is built, the first record that has no 'target'
    key makes [insert_maintainers_info] raise KeyError for that key. *)
Theorem merge_needs_target (srcdir : string)
    (before after : list (gmap string string)) (params : gmap string string)
    (d : MaintainersDatabase.t) :
  for_each (parse_maintainers re fs srcdir) (fs_walk fs srcdir)
           MaintainersDatabase.new = Ok d ->
  Forall (fun p => is_Some (p !! "target")) before ->
  params !! "target" = None ->
  insert_maintainers_info re fs srcdir (before ++ params :: after)
  = Raise (KeyError "target").
Proof.
  intros Hd Hbefore Hnone. unfold insert_maintainers_info.
  rewrite Hd. cbn [rbind]. rewrite for_each_app.
  destruct (merge_loop before [] d Hbefore) as (d1 & -> & _). cbn [rbind].
  rewrite for_each_cons. unfold merge_step at 1, merge_params, getitem.
  rewrite Hnone. reflexivity.
Qed.

(** A line of a MAINTAINERS file can only fail on its regular
    expression. *)
Lemma parse_line_raises (srcdir : string) (st : pstate) (line : string)
    (e : exn) :
  parse_line re fs srcdir st line = Raise e -> exists pattern, e = ReError pattern.
Proof.
  unfold parse_line.
  set (line' := if String.eqb (take 3 line) "#M:" then drop 1 line else line).
  destruct (String.eqb (take 2 line') "M:"); [discriminate|].
  destruct (String.eqb (take 2 line') "F:"); [discriminate|].
  destruct (String.eqb (take 2 line') "S:"); [discriminate|].
  destruct (String.eqb (take 2 line') "N:");
    [|destruct (String.eqb line' NL); discriminate].
  generalize (targets st). generalize (strip (drop 2 line')). intros rest.
  induction (fs_walk fs (path_join srcdir "configs"))
    as [|[dirpath fnames] walk IH]; intros acc; [discriminate|].
  rewrite for_each_cons.
  assert (Hinner : forall acc0 e0,
             for_each (n_item re srcdir rest dirpath) fnames acc0 = Raise e0 ->
             exists pattern, e0 = ReError pattern).
  { induction fnames as [|cfg fnames IHf]; intros acc0 e0; [discriminate|].
    rewrite for_each_cons.
    destruct (n_item re srcdir rest dirpath acc0 cfg) as [acc1|e1] eqn:Hitem.
    - apply IHf.
    - cbn [rbind]. intros [= <-]. unfold n_item in Hitem.
      destruct (partition "configs/" _) as [[front m] rear].
      destruct (truthy front || negb (truthy m)); [discriminate|].
      destruct (rpartition "_defconfig" rear) as [[front' m'] rear'].
      destruct (truthy m' && negb (truthy rear')); [|discriminate].
      destruct (re_valid re rest);
        [destruct (re_search re rest front'); discriminate|].
      injection Hitem as <-. eauto. }
  destruct (for_each (n_item re srcdir rest dirpath) fnames acc)
    as [acc1|e1] eqn:Hrun.
  - cbn [rbind]. intros H. destruct (for_each _ walk acc1) eqn:Hw;
      [discriminate|]. cbn [rbind] in H. injection H as <-.
    apply (IH acc1). rewrite Hw. reflexivity.
  - cbn [rbind]. intros [= <-]. exact (Hinner _ _ Hrun).
Qed.

Lemma parse_lines_raise (srcdir : string) (lines : list string) (st : pstate)
    (e : exn) :
  for_each (parse_line re fs srcdir) lines st = Raise e ->
  exists pattern, e = ReError pattern.
Proof.
  revert st. induction lines as [|line lines IH]; intros st; [discriminate|].
  rewrite for_each_cons.
  destruct (parse_line re fs srcdir st line) as [st1|e1] eqn:Hline.
  - apply IH.
  - cbn [rbind]. intros [= <-]. exact (parse_line_raises _ _ _ _ Hline).
Qed.

Lemma readlines_empty_iff (content : string) :
  readlines content = [] <-> content = "".
Proof.
  split; [|intros ->; reflexivity].
  destruct content as [|c content]; [reflexivity|].
  unfold readlines. cbn [chars list_ascii_of_string].
  intros H. apply map_eq_nil in H. exfalso. revert H.
  assert (Hne : forall cur l, cur <> [] \/ l <> [] -> lines_chars cur l <> []).
  { intros cur l. revert cur. induction l as [|x l IH]; intros cur Hcur; simpl.
    - destruct cur; [destruct Hcur; contradiction | discriminate].
    - destruct (Ascii.eqb x "010"); [discriminate|].
      apply IH. left. discriminate. }
  apply Hne. right. cbn [universal_newlines].
  destruct (Ascii.eqb c "013"); [|discriminate].
  destruct (list_ascii_of_string content) as [|d rest]; [discriminate|].
  destruct (Ascii.eqb d "010"); discriminate.
Qed.

(** X9: [parse_file] on a file that opens raises the unbound-variable error
    of its last statement exactly when the file is empty. *)
Theorem parse_file_empty (self : MaintainersDatabase.t)
    (srcdir fname content : string) :
  fs_open fs fname = Ok content ->
  parse_file re fs self srcdir fname = Raise (UnboundLocalError "linenum")
  <-> content = "".
Proof.
  intros Hopen. unfold parse_file, parse_lines. rewrite Hopen. cbn [rbind].
  split.
  - intros H. apply readlines_empty_iff.
    destruct (readlines content) as [|line lines]; [reflexivity|].
    exfalso.
    destruct (for_each (parse_line re fs srcdir) (line :: lines) _)
      as [st|e] eqn:Hrun; [discriminate|].
    cbn [rbind] in H. injection H as ->.
    destruct (parse_lines_raise _ _ _ _ Hrun) as (pattern & Hp). discriminate.
  - intros ->. reflexivity.
Qed.

Lemma parse_line_no_targets (srcdir : string) (st : pstate) (line : string) :
  names_targets line = false ->
  targets st = [] ->
  exists st',
    parse_line re fs srcdir st line = Ok st'
    /\ targets st' = [] /\ db st' = db st.
Proof.
  unfold names_targets, line_tag, parse_line. intros Htag Hts.
  set (line' := if String.eqb (take 3 line) "#M:" then drop 1 line else line)
    in *.
  apply orb_false_iff in Htag as [HF HN].
  destruct (String.eqb (take 2 line') "M:"); [eauto|]. rewrite HF.
  destruct (String.eqb (take 2 line') "S:"); [eauto|]. rewrite HN.
  destruct (String.eqb line' NL); [|eauto].
  eexists. split; [reflexivity|]. split; [reflexivity|].
  unfold add_targets. rewrite Hts. reflexivity.
Qed.

(** X10: a MAINTAINERS file that is not empty and has no F: and no N: line
    leaves the database as it was, as the docstring of [parse_file]
    says. *)
Theorem parse_file_without_targets (self : MaintainersDatabase.t)
    (srcdir fname content : string) :
  fs_open fs fname = Ok content ->
  content <> "" ->
  Forall (fun line => names_targets line = false) (readlines content) ->
  parse_file re fs self srcdir fname = Ok self.
Proof.
  intros Hopen Hne Hall. unfold parse_file, parse_lines.
  rewrite Hopen. cbn [rbind].
  assert (Hrun : forall lines st,
             Forall (fun line => names_targets line = false) lines ->
             targets st = [] ->
             exists st',
               for_each (parse_line re fs srcdir) lines st = Ok st'
               /\ targets st' = [] /\ db st' = db st).
  { induction lines as [|line lines IH]; intros st Hl Hts.
    - exists st. auto.
    - apply Forall_cons in Hl as [Hline Hl]. rewrite for_each_cons.
      destruct (parse_line_no_targets srcdir st line Hline Hts)
        as (st1 & -> & Hts1 & Hdb1).
      cbn [rbind]. destruct (IH st1 Hl Hts1) as (st' & Hst' & Hts' & Hdb').
      exists st'. split; [assumption|]. split; [assumption | congruence]. }
  destruct (Hrun (readlines content) (record_start (database self))
                 Hall eq_refl) as (st' & Hst' & Hts & Hdb).
  unfold record_start in Hst'. rewrite Hst'.
  cbn [rbind].
  destruct (readlines content) eqn:Hlines;
    [apply readlines_empty_iff in Hlines; contradiction|].
  unfold add_targets. rewrite Hts, Hdb. destruct self. reflexivity.
Qed.

End Merge.

Lemma merged_status_values_witness :
  exists params_list' warnings,
    insert_maintainers_info Examples.literal_re Examples.bar_tree "."
      [Examples.bar_params] = Ok (params_list', warnings)
    /\ Forall2
         (fun params params' =>
            (exists maintainers status,
                params' !! "maintainers" = Some maintainers
                /\ params' !! "status" = Some status
                /\ (status = "Active" /\ maintainers <> "" \/ status = "-"))
            /\ forall key, key <> "status" -> key <> "maintainers" ->
                           params' !! key = params !! key)
         [Examples.bar_params] params_list'.
Proof.
  eexists. eexists.
  assert (H : insert_maintainers_info Examples.literal_re Examples.bar_tree "."
                [Examples.bar_params]
              = Ok ([<["status" := "-"]>
                       (<["maintainers" := ""]> Examples.bar_params)],
                    ["WARNING: no maintainers for 'bar'"]))
    by (vm_compute; reflexivity).
  split; [exact H|].
  exact (merged_status_values Examples.literal_re Examples.bar_tree "."
           _ _ _ H).
Defined.

Lemma merge_needs_target_witness :
  insert_maintainers_info Examples.literal_re Examples.bar_tree "."
    ([Examples.bar_params] ++ Examples.no_target_params :: [])
  = Raise (KeyError "target").
Proof.
  apply (merge_needs_target Examples.literal_re Examples.bar_tree "."
           [Examples.bar_params] [] Examples.no_target_params
           Examples.bar_database).
  - vm_compute. reflexivity.
  - repeat constructor. exists "bar". reflexivity.
  - reflexivity.
Defined.

Lemma parse_file_empty_witness :
  parse_file Examples.literal_re (Examples.one_file "MAINTAINERS" "")
             MaintainersDatabase.new "." "MAINTAINERS"
  = Raise (UnboundLocalError "linenum") <-> "" = "".
Proof.
  apply (parse_file_empty Examples.literal_re
           (Examples.one_file "MAINTAINERS" "") MaintainersDatabase.new
           "." "MAINTAINERS" "").
  reflexivity.
Defined.

Lemma parse_file_without_targets_witness :
  parse_file Examples.literal_re Examples.plain_tree
             Examples.bar_database "." "./MAINTAINERS"
  = Ok Examples.bar_database.
Proof.
  apply (parse_file_without_targets Examples.literal_re Examples.plain_tree
           Examples.bar_database "." "./MAINTAINERS"
           ("M: Alice" +:+ NL +:+ "S: Maintained" +:+ NL +:+ NL +:+
            "#M: Bob" +:+ NL)).
  - reflexivity.
  - discriminate.
  - repeat constructor.
Defined.

End MaintainersExtras.

(** ** More on Boards.read_boards *)

Module ReadExtras.
Import Boards StringFacts.

(** Every field that [split] returns is a non-empty run without
    whitespace. *)
Lemma split_chars_words (l : list ascii) :
  Forall (fun w => w <> [] /\ Forall (fun c => is_space c = false) w)
         (split_chars l).
Proof.
  induction l as [|c l IH]; [constructor|]. cbn [split_chars].
  destruct (is_space c) eqn:Hc; [exact IH|].
  destruct l as [|d l'].
  - repeat constructor; [discriminate | assumption].
  - destruct (is_space d) eqn:Hd.
    + constructor; [|exact IH].
      split; [discriminate | repeat constructor; assumption].
    + destruct (split_chars (d :: l')) as [|w ws].
      * repeat constructor; [discriminate | assumption].
      * apply Forall_cons in IH as [[_ Hw] Hws].
        constructor; [|exact Hws].
        split; [discriminate | constructor; assumption].
Qed.

Lemma split_words (s : string) :
  Forall (fun w => w <> "" /\ no_space w) (split s).
Proof.
  unfold split. apply List.Forall_map.
  eapply List.Forall_impl; [|apply split_chars_words].
  intros w [Hne Hw]. split.
  - destruct w; [contradiction | discriminate].
  - unfold no_space. rewrite chars_of_chars. exact Hw.
Qed.

Section Read.
Variable fs : filesystem.
Variable board_props : list string -> list string.

Lemma desentinel_field (w : string) :
  no_space w -> desentinel w <> "-" /\ no_space (desentinel w).
Proof.
  intros Hw. unfold desentinel. destruct (String.eqb_spec w "-").
  - split; [discriminate | constructor].
  - split; assumption.
Qed.

Lemma startswith_hash (c : ascii) (rest : string) :
  startswith (String c rest) "#" = Ascii.eqb c "#".
Proof.
  unfold startswith. cbn [String.prefix].
  destruct (ascii_dec "#" c) as [<-|Hne].
  - destruct rest; reflexivity.
  - destruct (Ascii.eqb_spec c "#"); [congruence | reflexivity].
Qed.

(** Padding to eight fields and cutting after the eighth. *)
Lemma pad_and_cut (fields : list string) :
  (if (8 <? length (fields ++ repeat "" (8 - length fields)))%nat
   then firstn 8 (fields ++ repeat "" (8 - length fields))
   else fields ++ repeat "" (8 - length fields))
  = map (fun k => nth k fields "") (seq 0 8).
Proof.
  do 9 (destruct fields as [|? fields]; [reflexivity|]). reflexivity.
Qed.

Lemma nth_desentinel (k : nat) (words : list string) :
  nth k (map desentinel words) "" = desentinel (nth k words "").
Proof. exact (map_nth desentinel words "" k). Qed.

(** One line of the database: skipped, or turned into the board of its
    eight fields. *)
Lemma read_board_line_eq (boards : list Board) (line : string) :
  line <> "" ->
  read_board_line board_props boards line
  = Ok (boards ++ if record_line line
                  then [Board_new board_props (line_fields line)] else []).
Proof.
  intros Hne. destruct line as [|c rest]; [contradiction|].
  unfold read_board_line, record_line, line_fields. rewrite startswith_hash.
  destruct (Ascii.eqb c "#"); cbn [negb andb].
  { rewrite app_nil_r. reflexivity. }
  destruct (split (String c rest)) as [|w ws] eqn:Hsplit.
  { rewrite app_nil_r. reflexivity. }
  cbv zeta. rewrite (pad_and_cut (map desentinel (w :: ws))).
  do 4 f_equal. apply map_ext. intros k. apply nth_desentinel.
Qed.

Lemma line_fields_plain (line : string) :
  Forall (fun f => f <> "-" /\ no_space f) (line_fields line).
Proof.
  unfold line_fields. apply List.Forall_map, List.Forall_forall.
  intros k _. apply desentinel_field.
  destruct (nth_in_or_default k (split line) "") as [Hin| ->];
    [|constructor].
  pose proof (split_words line) as Hwords.
  rewrite List.Forall_forall in Hwords. apply (Hwords _ Hin).
Qed.

(** X11: for a database whose text opens and decodes, [read_boards]
    returns. It keeps the boards it had and appends, in the order of the
    lines, one board for every line that is not a comment and has a field:
    the board made of the eight fields of that line, where a missing word
    and the sentinel "-" are read as the empty string and words after the
    eighth are dropped. No field of these boards holds whitespace or is
    the sentinel. *)
Theorem read_boards_total (self : list Board) (fname content : string) :
  fs_open fs fname = Ok content ->
  exists added,
    read_boards fs board_props self fname = Ok (self ++ added)
    /\ Forall2 (fun line brd =>
                  brd = Board_new board_props (line_fields line)
                  /\ board_fields brd = line_fields line)
               (List.filter record_line (readlines content)) added
    /\ Forall (fun brd => Forall (fun f => f <> "-" /\ no_space f)
                                 (board_fields brd)) added.
Proof.
  intros Hopen. unfold read_boards. rewrite Hopen. cbn [rbind].
  pose proof (StaleFacts.readlines_nonempty content) as Hlines.
  revert self. induction Hlines as [|line lines Hline _ IH]; intros self.
  - exists []. rewrite app_nil_r. repeat split; constructor.
  - rewrite for_each_cons, (read_board_line_eq self line Hline).
    cbn [rbind]. destruct (IH (self ++ if record_line line
                                       then [Board_new board_props
                                               (line_fields line)] else []))
      as (added & -> & Hlines2 & Hall).
    cbn [List.filter]. destruct (record_line line).
    + exists (Board_new board_props (line_fields line) :: added).
      rewrite <- app_assoc. split; [reflexivity|]. split.
      * constructor; [|exact Hlines2]. split; reflexivity.
      * constructor; [|exact Hall].
        change (board_fields (Board_new board_props (line_fields line)))
          with (line_fields line).
        apply line_fields_plain.
    + exists added. rewrite app_nil_r. auto.
Qed.

End Read.

Lemma read_boards_total_witness :
  exists added,
    read_boards (Examples.one_file "boards.cfg" Examples.edited_database)
                (fun args => args) [Examples.foo_board] "boards.cfg"
    = Ok ([Examples.foo_board] ++ added)
    /\ Forall2 (fun line brd =>
                  brd = Board_new (fun args => args) (line_fields line)
                  /\ board_fields brd = line_fields line)
               (List.filter record_line (readlines Examples.edited_database))
               added
    /\ Forall (fun brd => Forall (fun f => f <> "-" /\ no_space f)
                                 (board_fields brd)) added.
Proof.
  apply (read_boards_total
           (Examples.one_file "boards.cfg" Examples.edited_database)
           (fun args => args) [Examples.foo_board] "boards.cfg"
           Examples.edited_database).
  reflexivity.
Defined.

End ReadExtras.

(** ** More on Boards._build_terms *)

Module TermExtras.
Import Boards StringFacts SelectFacts.

Lemma split_on_chars_pieces (sep : ascii) (cur l : list ascii) :
  ~ In sep cur ->
  Forall (fun piece => ~ In sep piece /\ incl piece (rev cur ++ l))
         (split_on_chars sep cur l).
Proof.
  revert cur. induction l as [|c l IH]; intros cur Hcur; cbn [split_on_chars].
  - constructor; [|constructor]. rewrite app_nil_r. split.
    + intros H. apply in_rev in H. contradiction.
    + apply incl_refl.
  - destruct (Ascii.eqb_spec c sep) as [->|Hne].
    + constructor.
      * split; [intros H; apply in_rev in H; contradiction|].
        apply incl_appl, incl_refl.
      * eapply List.Forall_impl; [|apply (IH []); intros []].
        intros piece [Hp Hincl]. split; [assumption|].
        intros x Hx. apply in_app_iff. right. right. apply (Hincl x Hx).
    + eapply List.Forall_impl; [|apply (IH (c :: cur))].
      * intros piece [Hp Hincl]. split; [assumption|].
        intros x Hx. specialize (Hincl x Hx). cbn [rev] in Hincl.
        rewrite <- app_assoc in Hincl. exact Hincl.
      * intros [Heq|Hin]; [congruence | contradiction].
Qed.

(** Every symbol is the operator or a plain expression. *)
Lemma arg_syms_plain (args : list string) :
  Forall (fun sym => sym = "&" \/ plain_expr sym) (arg_syms args).
Proof.
  apply List.Forall_forall. intros sym Hin. unfold arg_syms in Hin.
  apply in_flat_map in Hin as (arg & _ & Hin).
  apply in_flat_map in Hin as (word & Hword & Hin).
  unfold word_syms in Hin. apply In_removelast in Hin.
  apply in_flat_map in Hin as (piece & Hpiece & Hin).
  assert (Hsym : sym = "&" \/ (sym = piece /\ truthy piece = true)).
  { destruct (truthy piece) eqn:Ht.
    - destruct Hin as [<-|[<-|[]]]; auto.
    - destruct Hin as [<-|[]]. auto. }
  destruct Hsym as [->|[-> Ht]]; [left; reflexivity | right].
  pose proof (ReadExtras.split_words arg) as Hwords.
  rewrite List.Forall_forall in Hwords.
  destruct (Hwords word Hword) as [_ Hns].
  unfold split_on in Hpiece. apply in_map_iff in Hpiece as (pc & <- & Hpc).
  pose proof (split_on_chars_pieces "&" [] (chars word) (fun H => H)) as Hp.
  rewrite List.Forall_forall in Hp. destruct (Hp pc Hpc) as [Hamp Hincl].
  split; [|split].
  - intros Heq. rewrite Heq in Ht. discriminate.
  - unfold no_space. rewrite chars_of_chars.
    apply List.Forall_forall. intros c Hc. unfold no_space in Hns.
    rewrite List.Forall_forall in Hns. apply Hns. apply (Hincl c Hc).
  - rewrite chars_of_chars. assumption.
Qed.

Section Terms.
Variable re : regex.

(** X12: a symbol list that starts with the operator makes [_build_terms]
    raise AttributeError: the operator has no term to extend. *)
Theorem build_terms_leading_operator (args : list string)
    (operators rest : list string) (sym : string) :
  arg_syms args = operators ++ sym :: rest ->
  operators <> [] ->
  Forall (fun s => s = "&") operators ->
  sym <> "&" ->
  _build_terms re args = Raise AttributeError.
Proof.
  intros Hsyms Hne Hops Hsym. unfold _build_terms.
  rewrite Hsyms, for_each_app.
  assert (Hrun : forall oper,
             for_each (build_step re) operators (@nil Term, @None Term, oper)
             = Ok ([], None, true)).
  { clear Hsyms. induction operators as [|op ops IH]; intros oper;
      [contradiction|].
    apply Forall_cons in Hops as [-> Hops]. rewrite for_each_cons.
    change (build_step re ([], None, oper) "&") with
      (@Ok (list Term * option Term * bool) ([], None, true)).
    cbn [rbind]. destruct ops as [|op' ops']; [reflexivity|].
    apply IH; [discriminate | assumption]. }
  rewrite Hrun. cbn [rbind]. rewrite for_each_cons.
  unfold build_step at 1. rewrite (ScannerFacts.String_eqb_neq _ _ Hsym).
  reflexivity.
Qed.

Lemma add_expr_Ok (term term' : Term) (sym : string) :
  Term_add_expr re term sym = Ok term' ->
  re_valid re sym = true
  /\ _expr_list term' = _expr_list term ++ [{| _expr := sym |}].
Proof.
  unfold Term_add_expr, Expr_new. destruct (re_valid re sym); [|discriminate].
  intros [= <-]. auto.
Qed.

Lemma good_term_add (term term' : Term) (sym : string) :
  Term_add_expr re term sym = Ok term' ->
  plain_expr sym ->
  Forall (fun e => plain_expr (_expr e) /\ re_valid re (_expr e) = true)
         (_expr_list term) ->
  good_term re term'.
Proof.
  intros Hadd Hsym Hterm. destruct (add_expr_Ok _ _ _ Hadd) as [Hv Hl].
  unfold good_term. rewrite Hl. split.
  - intros H. apply app_eq_nil in H as [_ H]. discriminate.
  - apply List.Forall_app. split; [assumption|].
    constructor; [split; assumption | constructor].
Qed.

(** X13: every term that [_build_terms] returns has at least one
    expression, and each of its expressions is a valid regular expression
    that is not empty and holds neither whitespace nor the operator
    sign. *)
Theorem build_terms_good (args : list string) (terms : list Term) :
  _build_terms re args = Ok terms -> Forall (good_term re) terms.
Proof.
  unfold _build_terms. intros H. inv_bind H as st Hst.
  destruct st as [[ts cur] oper]. injection H as <-.
  assert (Hinv : Forall (good_term re) ts
                 /\ forall t, cur = Some t -> good_term re t).
  { refine (for_each_invariant
              (fun st : list Term * option Term * bool =>
                 Forall (good_term re) (fst (fst st))
                 /\ forall t, snd (fst st) = Some t -> good_term re t)
              (fun sym => sym = "&" \/ plain_expr sym)
              (build_step re) _ _ (ts, cur, oper)
              _ (arg_syms_plain args) _ Hst).
    - intros [[ts0 cur0] op0] sym [[ts1 cur1] op1] Hsym [Hts Hcur] Hstep.
      cbn [fst snd] in *. unfold build_step in Hstep.
      destruct (String.eqb_spec sym "&") as [->|Hne].
      + injection Hstep as <- <- <-. auto.
      + destruct Hsym as [Heq|Hplain]; [contradiction|]. destruct op0.
        * destruct cur0 as [t|]; [|discriminate].
          inv_bind Hstep as t' Ht'. injection Hstep as <- <- <-.
          split; [assumption|]. intros t1 [= <-].
          apply (good_term_add _ _ _ Ht' Hplain).
          destruct (Hcur t eq_refl) as [_ Hall]. exact Hall.
        * inv_bind Hstep as t' Ht'. injection Hstep as <- <- <-. split.
          -- destruct cur0 as [t|]; [|assumption].
             apply List.Forall_app. split; [assumption|].
             constructor; auto.
          -- intros t1 [= <-]. apply (good_term_add _ _ _ Ht' Hplain).
             constructor.
    - cbn [fst snd]. split; [constructor | discriminate]. }
  destruct Hinv as [Hts Hcur]. destruct cur as [t|]; [|assumption].
  apply List.Forall_app. split; [assumption|]. constructor; auto.
Qed.

(** *** The string of a term parses back to the term *)

Lemma split_on_chars_plain (sep : ascii) (cur e : list ascii) :
  ~ In sep e -> split_on_chars sep cur e = [rev cur ++ e].
Proof.
  revert cur. induction e as [|c e IH]; intros cur Hin; cbn [split_on_chars].
  - rewrite app_nil_r. reflexivity.
  - destruct (Ascii.eqb_spec c sep) as [->|Hne];
      [exfalso; apply Hin; left; reflexivity|].
    rewrite IH by (intros H; apply Hin; right; assumption).
    cbn [rev]. rewrite <- app_assoc. reflexivity.
Qed.

Lemma split_on_chars_sep (sep : ascii) (cur e l : list ascii) :
  ~ In sep e ->
  split_on_chars sep cur (e ++ sep :: l)
  = (rev cur ++ e) :: split_on_chars sep [] l.
Proof.
  revert cur. induction e as [|c e IH]; intros cur Hin;
    cbn [app split_on_chars].
  - rewrite Ascii.eqb_refl, app_nil_r. reflexivity.
  - destruct (Ascii.eqb_spec c sep) as [->|Hne];
      [exfalso; apply Hin; left; reflexivity|].
    rewrite IH by (intros H; apply Hin; right; assumption).
    cbn [rev]. rewrite <- app_assoc. reflexivity.
Qed.

Lemma split_on_join (es : list string) :
  es <> [] ->
  Forall (fun e => ~ In "&"%char (chars e)) es ->
  split_on "&" (join "&" es) = es.
Proof.
  intros Hne Hall. unfold split_on.
  induction Hall as [|e es He Hes IH]; [contradiction|].
  destruct es as [|e' es'].
  - cbn [join]. rewrite split_on_chars_plain by assumption.
    cbn [rev app map]. rewrite of_chars_chars. reflexivity.
  - change (join "&" (e :: e' :: es')) with (e +:+ "&" +:+ join "&" (e' :: es')).
    rewrite !chars_append. change (chars "&") with ["&"%char]. cbn [app].
    rewrite split_on_chars_sep by assumption.
    cbn [rev app map]. rewrite of_chars_chars. f_equal.
    apply IH. discriminate.
Qed.

Lemma join_plain (es : list string) :
  es <> [] ->
  Forall plain_expr es ->
  join "&" es <> "" /\ no_space (join "&" es).
Proof.
  intros Hne Hall. induction Hall as [|e es (He & Hns & _) Hes IH];
    [contradiction|].
  destruct es as [|e' es'].
  - cbn [join]. auto.
  - change (join "&" (e :: e' :: es')) with (e +:+ "&" +:+ join "&" (e' :: es')).
    destruct (IH ltac:(discriminate)) as [_ Hrest]. split.
    + destruct e; [contradiction | discriminate].
    + unfold no_space in *. rewrite !chars_append.
      apply List.Forall_app. split; [assumption|].
      apply List.Forall_app. split; [repeat constructor | assumption].
Qed.

Lemma split_one_word (w : string) :
  w <> "" -> no_space w -> split w = [w].
Proof.
  intros Hne Hns. unfold split.
  rewrite <- (app_nil_r (chars w)), split_chars_word.
  - cbn [split_chars map]. rewrite of_chars_chars. reflexivity.
  - destruct w; [contradiction | discriminate].
  - exact Hns.
  - exact I.
Qed.

Lemma removelast_symbols (e : string) (es : list string) :
  Forall (fun e => truthy e = true) (e :: es) ->
  removelast (flat_map (fun term => if truthy term then [term; "&"] else ["&"])
                       (e :: es))
  = e :: flat_map (fun e => ["&"; e]) es.
Proof.
  revert e. induction es as [|e' es IH]; intros e Hall.
  - apply Forall_cons in Hall as [He _]. cbn [flat_map]. rewrite He.
    reflexivity.
  - apply Forall_cons in Hall as [He Hall]. cbn [flat_map] in *. rewrite He.
    specialize (IH e' Hall).
    destruct (truthy e') eqn:He'; [|apply Forall_cons in Hall as [H _];
                                    congruence].
    cbn [app] in *. cbn [removelast]. f_equal. f_equal.
    cbn [removelast] in IH. exact IH.
Qed.

Lemma build_rest (es : list string) (ts : list Term) (cur : Term) :
  Forall (fun e => e <> "&" /\ re_valid re e = true) es ->
  for_each (build_step re) (flat_map (fun e => ["&"; e]) es)
           (ts, Some cur, false)
  = Ok (ts, Some {| _expr_list := _expr_list cur ++ map Build_Expr es |},
        false).
Proof.
  intros Hall. revert cur. induction Hall as [|e es [Hne Hv] _ IH]; intros cur.
  - cbn [flat_map for_each map]. rewrite app_nil_r. destruct cur. reflexivity.
  - cbn [flat_map app]. rewrite !for_each_cons.
    change (build_step re (ts, Some cur, false) "&")
      with (@Ok (list Term * option Term * bool) (ts, Some cur, true)).
    cbn [rbind]. rewrite for_each_cons.
    assert (Hstep : build_step re (ts, Some cur, true) e
                    = Ok (ts, Some {| _expr_list :=
                                        _expr_list cur ++ [Build_Expr e] |},
                          false)).
    { unfold build_step. rewrite (ScannerFacts.String_eqb_neq _ _ Hne).
      unfold Term_add_expr, Expr_new. rewrite Hv. reflexivity. }
    rewrite Hstep. cbn [rbind].
    rewrite IH. cbn [_expr_list map]. rewrite <- app_assoc. reflexivity.
Qed.

(** X14: the string under which a term is recorded parses back to that
    term alone: for every term of the kind that [_build_terms] returns,
    [_build_terms] on its string returns exactly this term. *)
Theorem term_str_roundtrip (term : Term) :
  good_term re term -> _build_terms re [Term_str term] = Ok [term].
Proof.
  intros [Hne Hall]. destruct term as [exprs]. cbn [_expr_list] in *.
  unfold Term_str. cbn [_expr_list].
  set (es := map Expr_str exprs).
  assert (Hes : Forall (fun e => plain_expr e /\ re_valid re e = true) es).
  { apply List.Forall_map. exact Hall. }
  assert (Hes_ne : es <> []).
  { subst es. destruct exprs; [contradiction | discriminate]. }
  assert (Hplain : Forall plain_expr es).
  { eapply List.Forall_impl; [|exact Hes]. intros e [H _]. exact H. }
  destruct (join_plain es Hes_ne Hplain) as [Hj Hjs].
  unfold _build_terms, arg_syms. cbn [flat_map].
  rewrite (split_one_word _ Hj Hjs). cbn [flat_map]. rewrite !app_nil_r.
  unfold word_syms. rewrite split_on_join; [|assumption|].
  2:{ eapply List.Forall_impl; [|exact Hplain]. intros e (_ & _ & H). exact H. }
  assert (Hexprs : exprs = map Build_Expr es).
  { subst es. rewrite map_map. clear. induction exprs as [|[e] l IH];
      [reflexivity|]. cbn [map Expr_str _expr]. f_equal. exact IH. }
  destruct es as [|e es']; [contradiction|].
  rewrite removelast_symbols.
  2:{ eapply List.Forall_impl; [|exact Hplain]. intros x (Hx & _).
      destruct x; [contradiction | reflexivity]. }
  apply Forall_cons in Hes as [[He Hv] Hes'].
  assert (He_amp : e <> "&").
  { intros ->. destruct He as (_ & _ & Hamp). apply Hamp. left. reflexivity. }
  rewrite for_each_cons.
  assert (Hstep : build_step re ([], None, false) e
                  = Ok ([], Some {| _expr_list := [Build_Expr e] |}, false)).
  { unfold build_step. rewrite (ScannerFacts.String_eqb_neq _ _ He_amp).
    unfold Term_add_expr, Expr_new. rewrite Hv. reflexivity. }
  rewrite Hstep. cbn [rbind].
  rewrite build_rest.
  - cbn [rbind app _expr_list Term_new]. rewrite Hexprs. reflexivity.
  - eapply List.Forall_impl; [|exact Hes']. intros x [(_ & _ & Hamp) Hx].
    split; [|assumption]. intros ->. apply Hamp. left. reflexivity.
Qed.

End Terms.

Lemma build_terms_leading_operator_witness :
  _build_terms Examples.literal_re ["& arm"; "acme"] = Raise AttributeError.
Proof.
  apply (build_terms_leading_operator Examples.literal_re ["& arm"; "acme"]
           ["&"] ["acme"] "arm").
  - reflexivity.
  - discriminate.
  - repeat constructor.
  - discriminate.
Defined.

Lemma build_terms_good_witness :
  Forall (good_term Examples.literal_re)
         [Examples.arm_acme_term; {| _expr_list := [{| _expr := "x86" |}] |}].
Proof.
  apply (build_terms_good Examples.literal_re ["arm & acme x86"]).
  reflexivity.
Defined.

Lemma term_str_roundtrip_witness :
  _build_terms Examples.literal_re [Term_str Examples.arm_acme_term]
  = Ok [Examples.arm_acme_term].
Proof.
  apply (term_str_roundtrip Examples.literal_re Examples.arm_acme_term).
  split; [discriminate|].
  repeat constructor; try discriminate; simpl; intuition discriminate.
Defined.

End TermExtras.

(** ** select_boards: success, flags and the explicit list *)

Module SelectExtras.
Import Boards SelectFacts.

Section Select.
Variable re : regex.

Lemma add_exclude_valid (exclude : list string) (acc : list Expr) :
  Forall (fun e => re_valid re e = true) exclude ->
  for_each (add_exclude re) exclude acc = Ok (acc ++ map Build_Expr exclude).
Proof.
  intros Hall. revert acc. induction Hall as [|e es He _ IH]; intros acc.
  - cbn [for_each map]. rewrite app_nil_r. reflexivity.
  - rewrite for_each_cons. unfold add_exclude at 1, Expr_new. rewrite He.
    cbn [rbind]. rewrite IH. cbn [map]. rewrite <- app_assoc. reflexivity.
Qed.

Lemma keys_ready_init (terms : list Term) :
  keys_ready terms
    (fold_left (fun r term => od_set (Term_str term) [] r) terms
               (od_set "all" [] [])).
Proof.
  assert (Hget0 : forall k,
             is_Some (od_get k (od_set "all" [] [])) \/ 
             existsb (fun term => String.eqb (Term_str term) k) terms = true ->
             is_Some (od_get k
               (fold_left (fun r term => od_set (Term_str term) [] r) terms
                          (od_set "all" [] [])))).
  { intros k Hk. rewrite init_result_get.
    destruct (existsb _ terms); [eauto|].
    destruct Hk as [Hk|Hk]; [exact Hk | discriminate]. }
  split.
  - apply Hget0. left. cbn. eauto.
  - intros t Ht. apply Hget0. right. apply existsb_exists. exists t.
    split; [assumption | apply String.eqb_refl].
Qed.

Lemma select_boards_runs (boards : list Board)
    (args exclude brds : list string) (terms : list Term) :
  _build_terms re args = Ok terms ->
  Forall (fun e => re_valid re e = true) exclude ->
  exists r, select_boards re boards args exclude brds = Ok r.
Proof.
  intros Hterms Hall. unfold select_boards. rewrite Hterms. cbn [rbind].
  rewrite (add_exclude_valid exclude [] Hall). cbn [rbind app].
  destruct (check_loop re terms (map Build_Expr exclude) brds boards [] _ []
              (keys_ready_init terms)) as (d' & Hloop & _).
  rewrite Hloop. cbn [rbind]. eauto.
Qed.

(** X15: [select_boards] returns exactly when the terms of [args] can be
    built and every exclusion is a valid regular expression; the loop over
    the boards never raises (no KeyError from the result dictionary). *)
Theorem select_boards_succeeds (boards : list Board)
    (args exclude brds : list string) :
  (exists r, select_boards re boards args exclude brds = Ok r)
  <-> (exists terms, _build_terms re args = Ok terms)
      /\ Forall (fun e => re_valid re e = true) exclude.
Proof.
  split.
  - unfold select_boards. intros [r H]. inv_bind H as terms Hterms.
    inv_bind H as xl Hxl. apply add_exclude_loop in Hxl as [_ Hall]. eauto.
  - intros [[terms Hterms] Hall]. eapply select_boards_runs; eassumption.
Qed.

(** X16: an exclusion that is not a valid regular expression makes
    [select_boards] raise the error of that expression, whatever the
    boards are, once the terms are built and the exclusions before it are
    valid. *)
Theorem select_boards_bad_exclude (boards : list Board)
    (args brds pre post : list string) (bad : string) (terms : list Term) :
  _build_terms re args = Ok terms ->
  Forall (fun e => re_valid re e = true) pre ->
  re_valid re bad = false ->
  select_boards re boards args (pre ++ bad :: post) brds
  = Raise (ReError bad).
Proof.
  intros Hterms Hpre Hbad. unfold select_boards. rewrite Hterms.
  cbn [rbind]. rewrite for_each_app, (add_exclude_valid pre [] Hpre).
  cbn [rbind]. rewrite for_each_cons. unfold add_exclude at 1, Expr_new.
  rewrite Hbad. reflexivity.
Qed.

(** X17: [select_boards] only ever sets flags: it returns the same boards
    in the same order, each one either untouched or with [build_it] set,
    so a board that was selected before the call stays selected. *)
Theorem select_boards_keeps_flags (boards : list Board)
    (args exclude brds : list string)
    (boards' : list Board) (result : odict) (warnings : list string) :
  select_boards re boards args exclude brds = Ok (boards', result, warnings) ->
  Forall2 (fun brd brd' =>
             (brd' = brd \/ brd' = set_build_it brd)
             /\ (build_it brd = true -> build_it brd' = true))
          boards boards'.
Proof.
  intros H. apply (select_boards_Ok re) in H as (terms & _ & -> & _).
  induction boards as [|b bs IH]; cbn [map]; constructor; [|exact IH].
  unfold mark. destruct (selected _ _ _ _ b); cbn; auto.
Qed.

(** X18: on boards that were not selected before, and when no term is
    written [all], the list recorded under ['all'] is exactly the list of
    the names of the selected boards, in the order of the boards. *)
Theorem selected_names_recorded (boards : list Board)
    (args exclude brds : list string) (terms : list Term)
    (boards' : list Board) (result : odict) (warnings : list string) :
  select_boards re boards args exclude brds = Ok (boards', result, warnings) ->
  _build_terms re args = Ok terms ->
  Forall (fun term => Term_str term <> "all") terms ->
  Forall (fun brd => build_it brd = false) boards ->
  od_get "all" result = Some (get_selected_names boards').
Proof.
  intros H Hterms Hnames Hfresh.
  apply (select_boards_Ok re) in H as (terms' & Hterms' & -> & Hget & _).
  rewrite Hterms in Hterms'. injection Hterms' as <-.
  rewrite Hget. cbn [String.eqb Ascii.eqb Bool.eqb orb]. f_equal.
  clear Hget. unfold get_selected_names.
  induction Hfresh as [|b bs Hb _ IH]; [reflexivity|].
  cbn [flat_map map List.filter]. rewrite recorded_under_app, IH.
  unfold mark, contributions.
  destruct (selected re terms (map Build_Expr exclude) brds b).
  - cbn [build_it set_build_it map app target].
    rewrite recorded_under_app. f_equal.
    destruct (first_match re terms (props b)) as [s|] eqn:Hs;
      [|reflexivity].
    destruct (truthy s); [|reflexivity].
    apply first_match_In in Hs as (t & Hin & <- & _).
    rewrite List.Forall_forall in Hnames. specialize (Hnames t Hin).
    unfold recorded_under. cbn [List.filter fst].
    rewrite (ScannerFacts.String_eqb_neq _ _ Hnames). reflexivity.
  - rewrite Hb. reflexivity.
Qed.

(** X19: with neither terms nor an explicit list, every board that no
    exclusion matches is selected and recorded under ['all'], the others
    are left as they were, and there is no warning. *)
Theorem select_boards_default (boards : list Board) (exclude : list string) :
  Forall (fun e => re_valid re e = true) exclude ->
  exists result,
    select_boards re boards [] exclude []
    = Ok (map (fun brd =>
                 if excluded re (map Build_Expr exclude) (props brd)
                 then brd else set_build_it brd) boards,
          result, [])
    /\ od_get "all" result
       = Some (map target
                 (List.filter
                    (fun brd =>
                       negb (excluded re (map Build_Expr exclude) (props brd)))
                    boards)).
Proof.
  intros Hall.
  destruct (select_boards_runs boards [] exclude [] [] eq_refl Hall)
    as [[[boards' result] warnings] H].
  exists result. rewrite H.
  apply (select_boards_Ok re) in H as (terms & Hterms & -> & Hget & ->).
  injection Hterms as <-. split.
  - cbn [not_found_warnings]. do 2 f_equal. f_equal. apply map_ext.
    intros b. unfold mark, selected, included.
    destruct (excluded re (map Build_Expr exclude) (props b)); reflexivity.
  - rewrite Hget. cbn [String.eqb Ascii.eqb Bool.eqb orb]. f_equal.
    clear Hget. induction boards as [|b bs IH]; [reflexivity|].
    cbn [flat_map List.filter]. rewrite recorded_under_app, IH.
    unfold contributions, selected, included. cbn [first_match].
    destruct (excluded re (map Build_Expr exclude) (props b)); reflexivity.
Qed.

Lemma found_by_names (brds : list string) (boards : list Board) (n : string) :
  brds <> [] ->
  In n (flat_map (found_by [] brds) boards)
  <-> In n brds /\ In n (map target boards).
Proof.
  intros Hne. destruct brds as [|n0 ns]; [contradiction|].
  set (names := n0 :: ns). rewrite in_flat_map, in_map_iff. split.
  - intros (b & Hb & Hin). unfold found_by in Hin. fold names in Hin.
    destruct (existsb (String.eqb (target b)) names) eqn:He;
      [|contradiction].
    destruct Hin as [<-|[]]. split; [|eauto].
    apply existsb_exists in He as (x & Hx & Heq).
    apply String.eqb_eq in Heq. congruence.
  - intros (Hn & b & <- & Hb). exists b. split; [assumption|].
    unfold found_by. fold names.
    assert (He : existsb (String.eqb (target b)) names = true).
    { apply existsb_exists. exists (target b).
      split; [assumption | apply String.eqb_refl]. }
    rewrite He. left. reflexivity.
Qed.

(** X20: with an explicit list of names and no terms, there is no warning
    exactly when every listed name is the target of some board; a board
    that an exclusion removes still counts as found. *)
Theorem explicit_names_warning (boards : list Board)
    (exclude brds : list string)
    (boards' : list Board) (result : odict) (warnings : list string) :
  select_boards re boards [] exclude brds = Ok (boards', result, warnings) ->
  brds <> [] ->
  warnings = [] <-> (forall n, In n brds -> In n (map target boards)).
Proof.
  intros H Hne.
  apply (select_boards_Ok re) in H as (terms & Hterms & _ & _ & ->).
  injection Hterms as <-. unfold not_found_warnings.
  destruct brds as [|n0 ns] eqn:Hbrds; [contradiction|]. rewrite <- Hbrds.
  assert (Hfound := fun n => found_by_names brds boards n
                                ltac:(rewrite Hbrds; discriminate)).
  set (found := flat_map (found_by [] brds) boards) in *.
  destruct (elements (list_to_set brds ∖ list_to_set found : gset string))
    as [|x xs] eqn:Hel.
  - split; [|reflexivity]. intros _ n Hn.
    apply elements_empty_inv in Hel. apply leibniz_equiv in Hel.
    destruct (decide (n ∈ found)) as [Hin|Hout].
    + apply list_elem_of_In, Hfound in Hin as [_ Hin]. exact Hin.
    + exfalso. assert (Hmem : n ∈ (list_to_set brds ∖ list_to_set found
                                    : gset string)).
      { apply elem_of_difference. rewrite !elem_of_list_to_set.
        split; [apply list_elem_of_In; assumption | assumption]. }
      rewrite Hel in Hmem. set_solver.
  - split; [discriminate|]. intros Hall. exfalso.
    assert (Hx : x ∈ elements (list_to_set brds ∖ list_to_set found
                                : gset string)).
    { rewrite Hel. left. }
    apply elem_of_elements, elem_of_difference in Hx as [Hx Hnot].
    rewrite elem_of_list_to_set in Hx, Hnot. apply Hnot.
    apply list_elem_of_In, Hfound. apply list_elem_of_In in Hx.
    split; [assumption | apply Hall; assumption].
Qed.

End Select.

Lemma select_boards_bad_exclude_witness :
  select_boards Examples.strict_re [Examples.foo_board] ["arm"]
                (["foo"] ++ "ba(r" :: ["x86"]) []
  = Raise (ReError "ba(r").
Proof.
  apply (select_boards_bad_exclude Examples.strict_re [Examples.foo_board]
           ["arm"] [] ["foo"] ["x86"] "ba(r"
           [{| _expr_list := [{| _expr := "arm" |}] |}]).
  - reflexivity.
  - repeat constructor.
  - reflexivity.
Defined.

Lemma select_boards_keeps_flags_witness :
  Forall2 (fun brd brd' =>
             (brd' = brd \/ brd' = set_build_it brd)
             /\ (build_it brd = true -> build_it brd' = true))
          [set_build_it Examples.foo_board; Examples.bar_board]
          [set_build_it Examples.foo_board; set_build_it Examples.bar_board].
Proof.
  apply (select_boards_keeps_flags Examples.literal_re
           [set_build_it Examples.foo_board; Examples.bar_board]
           ["x86"] [] []
           [set_build_it Examples.foo_board; set_build_it Examples.bar_board]
           [("all", ["bar"]); ("x86", ["bar"])] []).
  reflexivity.
Defined.

Lemma selected_names_recorded_witness :
  od_get "all" [("all", ["bar"]); ("x86", ["bar"])]
  = Some (get_selected_names
            [Examples.foo_board; set_build_it Examples.bar_board]).
Proof.
  apply (selected_names_recorded Examples.literal_re
           [Examples.foo_board; Examples.bar_board] ["x86"] [] []
           [{| _expr_list := [{| _expr := "x86" |}] |}]
           [Examples.foo_board; set_build_it Examples.bar_board]
           [("all", ["bar"]); ("x86", ["bar"])] []).
  - reflexivity.
  - reflexivity.
  - repeat constructor. discriminate.
  - repeat constructor.
Defined.

Lemma select_boards_default_witness :
  exists result,
    select_boards Examples.literal_re
                  [Examples.foo_board; Examples.bar_board] [] ["x86"] []
    = Ok (map (fun brd =>
                 if excluded Examples.literal_re (map Build_Expr ["x86"])
                             (props brd)
                 then brd else set_build_it brd)
              [Examples.foo_board; Examples.bar_board],
          result, [])
    /\ od_get "all" result
       = Some (map target
                 (List.filter
                    (fun brd =>
                       negb (excluded Examples.literal_re
                               (map Build_Expr ["x86"]) (props brd)))
                    [Examples.foo_board; Examples.bar_board])).
Proof.
  apply (select_boards_default Examples.literal_re
           [Examples.foo_board; Examples.bar_board] ["x86"]).
  repeat constructor.
Defined.

Lemma explicit_names_warning_witness :
  select_boards Examples.literal_re [Examples.foo_board; Examples.bar_board]
                [] ["foo"] ["foo"; "bar"]
  = Ok ([Examples.foo_board; set_build_it Examples.bar_board],
        [("all", ["bar"])], [])
  /\ forall n, In n ["foo"; "bar"]
               -> In n (map target [Examples.foo_board; Examples.bar_board]).
Proof.
  split; [reflexivity|].
  apply (explicit_names_warning Examples.literal_re
           [Examples.foo_board; Examples.bar_board] ["foo"] ["foo"; "bar"]
           [Examples.foo_board; set_build_it Examples.bar_board]
           [("all", ["bar"])] []).
  - reflexivity.
  - discriminate.
  - reflexivity.
Defined.

End SelectExtras.

(** ** The board list as a dictionary *)

Module DictExtras.
Import Boards.

Lemma bd_get_set (k k' : string) (brd : Board) (d : list (string * Board)) :
  bd_get k (bd_set k' brd d)
  = if String.eqb k' k then Some brd else bd_get k d.
Proof.
  induction d as [|[k0 b0] d IH]; cbn [bd_set bd_get].
  - destruct (String.eqb k' k); reflexivity.
  - destruct (String.eqb_spec k0 k') as [->|Hne]; cbn [bd_get].
    + destruct (String.eqb k' k); reflexivity.
    + rewrite IH. destruct (String.eqb_spec k0 k) as [->|Hne'];
        [|reflexivity].
      rewrite (ScannerFacts.String_eqb_neq k' k) by congruence. reflexivity.
Qed.

Lemma find_last {A : Type} (p : A -> bool) (l : list A) (x : A) :
  List.find p (l ++ [x])
  = match List.find p l with
    | Some y => Some y
    | None => if p x then Some x else None
    end.
Proof.
  induction l as [|y l IH]; cbn [app List.find]; [reflexivity|].
  destruct (p y); [reflexivity | exact IH].
Qed.

Lemma get_dict_fold (k : string) (boards : list Board)
    (d : list (string * Board)) :
  bd_get k (fold_left (fun d brd => bd_set (target brd) brd d) boards d)
  = match List.find (fun brd => String.eqb (target brd) k) (rev boards) with
    | Some brd => Some brd
    | None => bd_get k d
    end.
Proof.
  revert d. induction boards as [|b bs IH]; intros d; cbn [fold_left rev].
  - reflexivity.
  - rewrite IH, find_last, bd_get_set.
    destruct (List.find _ (rev bs)); [reflexivity|].
    destruct (String.eqb (target b) k); reflexivity.
Qed.

(** X21: in the dictionary of [get_dict] a target stands for the LAST
    board of the list that carries it: a board added later under the same
    target replaces the earlier one, and a target of no board is absent. *)
Theorem get_dict_last_wins (boards : list Board) (k : string) :
  bd_get k (get_dict boards)
  = List.find (fun brd => String.eqb (target brd) k) (rev boards).
Proof.
  unfold get_dict. rewrite get_dict_fold.
  destruct (List.find _ (rev boards)); reflexivity.
Qed.

(** The dictionary of the selected boards is the dictionary of the list
    of the selected boards. *)
Lemma get_selected_dict_of_selected (boards : list Board) :
  get_selected_dict boards = get_dict (get_selected boards).
Proof.
  unfold get_selected_dict, get_dict, get_selected.
  generalize (@nil (string * Board)). induction boards as [|b bs IH];
    intros d; cbn [fold_left List.filter]; [reflexivity|].
  destruct (build_it b); cbn [fold_left]; apply IH.
Qed.

End DictExtras.

(** ** scan_defconfigs: the shares of the processes *)

Module ShareExtras.
Import Boards.

Lemma take_slice {A : Type} (a b : nat) (l : list A) :
  a <= b ->
  firstn a l ++ firstn (b - a) (skipn a l) = firstn b l.
Proof.
  revert b l. induction a as [|a IH]; intros b l Hle.
  - cbn [firstn skipn app]. rewrite Nat.sub_0_r. reflexivity.
  - destruct b as [|b]; [lia|]. destruct l as [|x l].
    + cbn [firstn skipn app]. rewrite firstn_nil. reflexivity.
    + cbn [firstn skipn app Nat.sub]. f_equal. apply IH. lia.
Qed.

Lemma bound_mono (total jobs i : Z) :
  (0 <= total)%Z -> (0 < jobs)%Z -> (0 <= i)%Z ->
  (0 <= total * i / jobs <= total * (i + 1) / jobs)%Z.
Proof.
  intros Ht Hj Hi. split.
  - apply Z.div_pos; nia.
  - apply Z.div_le_mono; nia.
Qed.

Lemma shares_prefix (defconfigs : list string) (jobs : Z) (n : nat) :
  (0 < jobs)%Z ->
  concat (map (share defconfigs jobs) (map Z.of_nat (seq 0 n)))
  = firstn (Z.to_nat (Z.of_nat (length defconfigs) * Z.of_nat n / jobs))
           defconfigs.
Proof.
  intros Hj. induction n as [|n IH].
  - cbn [seq map concat]. rewrite Z.mul_0_r, Z.div_0_l by lia. reflexivity.
  - rewrite seq_S, !map_app, concat_app, IH. cbn [map concat Nat.add].
    rewrite app_nil_r. unfold share, slice.
    replace (Z.of_nat (S n)) with (Z.of_nat n + 1)%Z by lia.
    apply take_slice.
    pose proof (bound_mono (Z.of_nat (length defconfigs)) jobs (Z.of_nat n)
                  ltac:(lia) Hj ltac:(lia)).
    lia.
Qed.

(** X22: for a positive number of jobs the shares of the processes, taken
    in the order of the processes, put together give the list of the
    defconfig files again: every file goes to exactly one process and the
    order is kept. *)
Theorem shares_partition (defconfigs : list string) (jobs : Z) :
  (0 < jobs)%Z -> concat (shares defconfigs jobs) = defconfigs.
Proof.
  intros Hj. unfold shares, range. rewrite shares_prefix by assumption.
  rewrite Z2Nat.id by lia. rewrite Z.div_mul by lia.
  rewrite Nat2Z.id. apply firstn_all.
Qed.

(** X23: the shares are balanced: each process gets the quotient of the
    number of files by the number of jobs, or one file more. *)
Theorem share_balanced (defconfigs : list string) (jobs i : Z) :
  (0 < jobs)%Z -> (0 <= i < jobs)%Z ->
  let size := Z.of_nat (length (share defconfigs jobs i)) in
  let total_boards := Z.of_nat (length defconfigs) in
  (total_boards / jobs <= size <= total_boards / jobs + 1)%Z.
Proof.
  intros Hj Hi. cbv zeta. unfold share, slice.
  set (t := Z.of_nat (length defconfigs)).
  assert (Ht : (0 <= t)%Z) by (subst t; lia).
  pose proof (bound_mono t jobs i Ht Hj ltac:(lia)) as [Hlo Hmono].
  assert (Hhi : (t * (i + 1) / jobs <= t)%Z).
  { apply Z.div_le_upper_bound; nia. }
  rewrite length_firstn, length_skipn.
  assert (Hlen : length defconfigs = Z.to_nat t) by (subst t; lia).
  rewrite Hlen.
  replace (Z.of_nat (Nat.min (Z.to_nat (t * (i + 1) / jobs)
                              - Z.to_nat (t * i / jobs))
                             (Z.to_nat t - Z.to_nat (t * i / jobs))))
    with (t * (i + 1) / jobs - t * i / jobs)%Z by lia.
  pose proof (Z.div_mod t jobs ltac:(lia)) as Hdm.
  pose proof (Z.mod_pos_bound t jobs Hj) as Hr.
  set (q := (t / jobs)%Z) in *. set (r := (t mod jobs)%Z) in *.
  assert (E1 : (t * i = q * i * jobs + r * i)%Z) by nia.
  assert (E2 : (t * (i + 1) = q * (i + 1) * jobs + (r * i + r))%Z) by nia.
  rewrite E1, E2, !Z.div_add_l by lia.
  assert (Hd1 : (r * i / jobs <= (r * i + r) / jobs)%Z).
  { apply Z.div_le_mono; lia. }
  assert (Hd2 : ((r * i + r) / jobs <= r * i / jobs + 1)%Z).
  { rewrite <- (Z.div_add (r * i) 1 jobs) by lia.
    apply Z.div_le_mono; lia. }
  nia.
Qed.

Section Worker.
Variables (str_lower str_upper : string -> string).
Variable load_config : string -> result (list (string * string)).

(** X24: a process scans its files in order and puts each result in its
    queue until a scan raises; the exception ends the process, so the
    queue holds the results of the files before the failing one and the
    files after it are never scanned. With no failure the queue holds one
    result per file. *)
Theorem worker_stops_at_failure (defconfigs : list string)
    (warn_targets : bool)
    (queue : list (gmap string string * list string)) (failure : option exn) :
  scan_defconfigs_for_multiprocess str_lower str_upper load_config
    defconfigs warn_targets = (queue, failure) ->
  exists scanned,
    Forall2 (fun defconfig item =>
               KconfigScanner.scan str_lower str_upper load_config
                 defconfig warn_targets = Ok item)
            scanned queue
    /\ match failure with
       | None => defconfigs = scanned
       | Some e =>
           exists bad rest,
             defconfigs = scanned ++ bad :: rest
             /\ KconfigScanner.scan str_lower str_upper load_config
                  bad warn_targets = Raise e
       end.
Proof.
  revert queue failure.
  induction defconfigs as [|d ds IH]; intros queue failure H;
    cbn [scan_defconfigs_for_multiprocess] in H.
  - injection H as <- <-. exists []. split; [constructor | reflexivity].
  - destruct (KconfigScanner.scan str_lower str_upper load_config d
                warn_targets) as [item|e] eqn:Hd.
    + destruct (scan_defconfigs_for_multiprocess str_lower str_upper
                  load_config ds warn_targets) as [q f] eqn:Hds.
      injection H as <- <-.
      destruct (IH q f eq_refl) as (scanned & Hall & Hf).
      exists (d :: scanned). split; [constructor; assumption|].
      destruct f as [e|].
      * destruct Hf as (bad & rest & -> & Hbad). exists bad, rest.
        split; [reflexivity | assumption].
      * subst. reflexivity.
    + injection H as <- <-. exists []. split; [constructor|].
      exists d, ds. split; [reflexivity | assumption].
Qed.

End Worker.

Section Walk.
Variable fs : filesystem.

Lemma collect_defconfigs_app (acc : list string)
    (entry : string * list string) :
  collect_defconfigs acc entry
  = acc ++ (let '(dirpath, filenames) := entry in
            map (path_join dirpath)
                (List.filter (fun f => endswith f "_defconfig"
                                       && negb (startswith f "."))
                             filenames)).
Proof.
  destruct entry as [dirpath filenames]. unfold collect_defconfigs.
  revert acc. induction filenames as [|f fs' IH]; intros acc;
    cbn [List.filter fold_left map].
  - rewrite app_nil_r. reflexivity.
  - destruct (endswith f "_defconfig"); cbn [andb fold_left]; [|apply IH].
    destruct (startswith f "."); cbn [negb map]; rewrite IH; [reflexivity|].
    rewrite <- app_assoc. reflexivity.
Qed.

(** The files that [scan_defconfigs] hands to the scanner are, in the
    same order, the files whose time stamps [output_is_new] compares with
    the output. *)
Lemma scanned_files_are_checked_files (config_dir : string) :
  all_defconfigs fs config_dir = defconfig_paths fs config_dir.
Proof.
  unfold all_defconfigs, defconfig_paths.
  rewrite <- (app_nil_l (flat_map _ _)). generalize (@nil string).
  induction (fs_walk fs config_dir) as [|entry entries IH]; intros acc;
    cbn [fold_left flat_map].
  - rewrite app_nil_r. reflexivity.
  - rewrite IH, collect_defconfigs_app, <- app_assoc.
    destruct entry. reflexivity.
Qed.

End Walk.

Lemma worker_stops_at_failure_witness :
  exists scanned,
    Forall2 (fun defconfig item =>
               KconfigScanner.scan Examples.ascii_lower Examples.ascii_upper
                 Examples.foo_evaluator defconfig true = Ok item)
            scanned [Examples.foo_scan]
    /\ exists bad rest,
         ["configs/foo_defconfig"; "configs/foo_defconfig.orig";
          "configs/bar_defconfig"] = scanned ++ bad :: rest
         /\ KconfigScanner.scan Examples.ascii_lower Examples.ascii_upper
              Examples.foo_evaluator bad true
            = Raise (AssertionError "foo_defconfig.orig : invalid defconfig").
Proof.
  apply (worker_stops_at_failure Examples.ascii_lower Examples.ascii_upper
           Examples.foo_evaluator
           ["configs/foo_defconfig"; "configs/foo_defconfig.orig";
            "configs/bar_defconfig"] true [Examples.foo_scan]
           (Some (AssertionError "foo_defconfig.orig : invalid defconfig"))).
  reflexivity.
Defined.

Lemma shares_partition_witness :
  concat (shares ["a_defconfig"; "b_defconfig"; "c_defconfig"] 2)
  = ["a_defconfig"; "b_defconfig"; "c_defconfig"].
Proof.
  apply (shares_partition ["a_defconfig"; "b_defconfig"; "c_defconfig"] 2).
  lia.
Defined.

Lemma share_balanced_witness :
  (Z.of_nat 3 / 2
   <= Z.of_nat (length (share ["a_defconfig"; "b_defconfig"; "c_defconfig"]
                              2 1))
   <= Z.of_nat 3 / 2 + 1)%Z.
Proof.
  apply (share_balanced ["a_defconfig"; "b_defconfig"; "c_defconfig"] 2 1);
    lia.
Defined.

End ShareExtras.

(** ** output_is_new: what each answer means *)

Module StaleExtras.

Lemma for_return_None_inv {A R : Type} (body : A -> result (option R))
    (l : list A) :
  for_return body l = Ok None -> Forall (fun x => body x = Ok None) l.
Proof.
  induction l as [|x l IH]; cbn [for_return]; intros H; [constructor|].
  inv_bind H as r Hr. destruct r as [v|]; [discriminate|].
  constructor; [assumption | apply IH; assumption].
Qed.

Lemma for_return_Some_inv {A R : Type} (body : A -> result (option R))
    (l : list A) (v : R) :
  for_return body l = Ok (Some v) ->
  exists x, In x l /\ body x = Ok (Some v).
Proof.
  induction l as [|x l IH]; cbn [for_return]; intros H; [discriminate|].
  inv_bind H as r Hr. destruct r as [w|].
  - injection H as <-. exists x. split; [left; reflexivity | assumption].
  - destruct (IH H) as (y & Hy & Hb). exists y.
    split; [right; assumption | assumption].
Qed.

Section Staleness.
Variable fs : filesystem.

Lemma newer_than_inv (ctime : Z) (path : string) (r : option bool) :
  newer_than fs ctime path = Ok r ->
  match r with
  | None => not_newer fs ctime path
  | Some b => b = false /\ newer fs ctime path
  end.
Proof.
  unfold newer_than. intros H. inv_bind H as t Ht.
  destruct (Z.ltb_spec ctime t); injection H as <-.
  - split; [reflexivity|]. exists t. split; assumption.
  - exists t. split; assumption.
Qed.

Lemma check_defconfigs_inv (ctime : Z) (config_dir : string)
    (r : option bool) :
  check_defconfigs fs ctime config_dir = Ok r ->
  match r with
  | None => Forall (not_newer fs ctime) (defconfig_paths fs config_dir)
  | Some b =>
      b = false
      /\ exists path, In path (defconfig_paths fs config_dir)
                      /\ newer fs ctime path
  end.
Proof.
  unfold check_defconfigs, defconfig_paths. intros H. destruct r as [b|].
  - apply for_return_Some_inv in H as ([dirpath filenames] & Hdir & H).
    apply for_return_Some_inv in H as (f & Hf & H).
    apply filter_In in Hf as [Hf Hsuffix].
    destruct (startswith f ".") eqn:Hdot; [discriminate|].
    apply newer_than_inv in H as [-> Hnew]. split; [reflexivity|].
    exists (path_join dirpath f). split; [|assumption].
    apply in_flat_map. exists (dirpath, filenames). split; [assumption|].
    apply in_map, filter_In. split; [assumption|].
    rewrite Hsuffix, Hdot. reflexivity.
  - apply for_return_None_inv in H. rewrite List.Forall_forall in H.
    apply List.Forall_forall. intros path Hpath.
    apply in_flat_map in Hpath as ([dirpath filenames] & Hdir & Hpath).
    apply in_map_iff in Hpath as (f & <- & Hf).
    apply filter_In in Hf as [Hf Hkeep].
    apply andb_true_iff in Hkeep as [Hsuffix Hdot].
    apply negb_true_iff in Hdot.
    specialize (H _ Hdir). cbn beta iota in H.
    apply for_return_None_inv in H. rewrite List.Forall_forall in H.
    specialize (H f ltac:(apply filter_In; split; assumption)).
    cbn beta in H. rewrite Hdot in H.
    apply (newer_than_inv _ _ None H).
Qed.

Lemma check_kconfigs_inv (ctime : Z) (srcdir : string) (r : option bool) :
  check_kconfigs fs ctime srcdir = Ok r ->
  match r with
  | None => Forall (not_newer fs ctime) (kconfig_paths fs srcdir)
  | Some b =>
      b = false
      /\ exists path, In path (kconfig_paths fs srcdir)
                      /\ newer fs ctime path
  end.
Proof.
  unfold check_kconfigs, kconfig_paths. intros H.
  assert (Hkeep : forall f,
             (endswith f "~"
              || negb (startswith f "Kconfig")
                 && negb (String.eqb f "MAINTAINERS")) = false
             <-> negb (endswith f "~")
                 && (startswith f "Kconfig" || String.eqb f "MAINTAINERS")
                 = true).
  { intros f. destruct (endswith f "~"), (startswith f "Kconfig"),
      (String.eqb f "MAINTAINERS"); cbn; intuition congruence. }
  destruct r as [b|].
  - apply for_return_Some_inv in H as ([dirpath filenames] & Hdir & H).
    apply for_return_Some_inv in H as (f & Hf & H).
    destruct (endswith f "~"
              || negb (startswith f "Kconfig")
                 && negb (String.eqb f "MAINTAINERS")) eqn:Hskip;
      [discriminate|].
    apply newer_than_inv in H as [-> Hnew]. split; [reflexivity|].
    exists (path_join dirpath f). split; [|assumption].
    apply in_flat_map. exists (dirpath, filenames). split; [assumption|].
    apply in_map, filter_In. split; [assumption|]. apply Hkeep, Hskip.
  - apply for_return_None_inv in H. rewrite List.Forall_forall in H.
    apply List.Forall_forall. intros path Hpath.
    apply in_flat_map in Hpath as ([dirpath filenames] & Hdir & Hpath).
    apply in_map_iff in Hpath as (f & <- & Hf).
    apply filter_In in Hf as [Hf Hk]. apply Hkeep in Hk.
    specialize (H _ Hdir). cbn beta iota in H.
    apply for_return_None_inv in H. rewrite List.Forall_forall in H.
    specialize (H f Hf). cbn beta in H. rewrite Hk in H.
    apply (newer_than_inv _ _ None H).
Qed.

Lemma check_line_inv (config_dir line : string) (r : option bool) :
  check_line fs config_dir line = Ok r ->
  match r with
  | None => fresh_line fs config_dir line
  | Some b =>
      b = false
      /\ (contains "Options," line = true \/ stale_line fs config_dir 6 line)
  end.
Proof.
  unfold check_line, fresh_line, stale_line.
  destruct (contains "Options," line) eqn:Hopt.
  { intros [= <-]. auto. }
  destruct line as [|c rest]; [discriminate|]. unfold data_line.
  destruct (Ascii.eqb c "#" || String.eqb (String c rest) NL).
  { intros [= <-]. split; [reflexivity | discriminate]. }
  destruct (nth_error (split (String c rest)) 6) as [field|]; [|discriminate].
  destruct (fs_exists fs _) eqn:Hex; intros [= <-].
  - split; [reflexivity|]. intros _. exists field. auto.
  - split; [reflexivity|]. right. split; [reflexivity|]. exists field. auto.
Qed.

(** X25: [output_is_new] answers True only for an output file that
    exists and can be read, that no defconfig file of [config_dir] and no
    Kconfig or MAINTAINERS file of [srcdir] is newer than, and each of
    whose lines holds no "Options," and, if it is a data line, names in
    its seventh field a defconfig file that exists. *)
Theorem output_is_new_true (output config_dir srcdir : string) :
  output_is_new fs output config_dir srcdir = Ok true ->
  exists ctime content,
    fs_getctime fs output = Ok ctime
    /\ Forall (not_newer fs ctime) (defconfig_paths fs config_dir)
    /\ Forall (not_newer fs ctime) (kconfig_paths fs srcdir)
    /\ fs_open fs output = Ok content
    /\ Forall (fresh_line fs config_dir) (readlines content).
Proof.
  unfold output_is_new. intros H.
  destruct (fs_getctime fs output) as [ctime|e] eqn:Hctime.
  2:{ destruct e; try discriminate.
      destruct (Nat.eqb errno ENOENT); discriminate. }
  inv_bind H as r1 H1. apply check_defconfigs_inv in H1.
  destruct r1 as [b|]; [destruct H1 as [-> _]; discriminate|].
  inv_bind H as r2 H2. apply check_kconfigs_inv in H2.
  destruct r2 as [b|]; [destruct H2 as [-> _]; discriminate|].
  inv_bind H as content Hopen. inv_bind H as r3 H3.
  destruct r3 as [b|].
  - apply for_return_Some_inv in H3 as (line & _ & H3).
    apply check_line_inv in H3 as [-> _]. discriminate.
  - exists ctime, content. split; [reflexivity|].
    repeat (split; [assumption|]).
    apply for_return_None_inv in H3.
    eapply List.Forall_impl; [|exact H3].
    intros line Hline. apply (check_line_inv _ _ None Hline).
Qed.

(** X26: [output_is_new] answers False only for one of these reasons:
    the output file does not exist; a defconfig file is newer than it; a
    Kconfig or MAINTAINERS file is newer than it; one of its lines holds
    "Options,"; or the seventh field of one of its data lines names no
    defconfig file. *)
Theorem output_is_new_false (output config_dir srcdir : string) :
  output_is_new fs output config_dir srcdir = Ok false ->
  fs_getctime fs output = Raise (OSError ENOENT)
  \/ exists ctime,
       fs_getctime fs output = Ok ctime
       /\ ((exists path, In path (defconfig_paths fs config_dir)
                         /\ newer fs ctime path)
           \/ (exists path, In path (kconfig_paths fs srcdir)
                            /\ newer fs ctime path)
           \/ exists content line,
                fs_open fs output = Ok content
                /\ In line (readlines content)
                /\ (contains "Options," line = true
                    \/ stale_line fs config_dir 6 line)).
Proof.
  unfold output_is_new. intros H.
  destruct (fs_getctime fs output) as [ctime|e] eqn:Hctime.
  2:{ left. destruct e; try discriminate.
      destruct (Nat.eqb_spec errno ENOENT) as [->|]; [reflexivity|].
      discriminate. }
  right. exists ctime. split; [reflexivity|].
  inv_bind H as r1 H1. apply check_defconfigs_inv in H1.
  destruct r1 as [b|]; [left; apply H1|].
  inv_bind H as r2 H2. apply check_kconfigs_inv in H2.
  destruct r2 as [b|]; [right; left; apply H2|].
  inv_bind H as content Hopen. inv_bind H as r3 H3.
  destruct r3 as [b|]; [|discriminate].
  apply for_return_Some_inv in H3 as (line & Hin & H3).
  apply check_line_inv in H3 as [_ Hwhy].
  right. right. exists content, line. auto.
Qed.

End Staleness.

Lemma output_is_new_true_witness :
  exists ctime content,
    fs_getctime Examples.foo_tree "boards.cfg" = Ok ctime
    /\ Forall (not_newer Examples.foo_tree ctime)
              (defconfig_paths Examples.foo_tree "configs")
    /\ Forall (not_newer Examples.foo_tree ctime)
              (kconfig_paths Examples.foo_tree ".")
    /\ fs_open Examples.foo_tree "boards.cfg" = Ok content
    /\ Forall (fresh_line Examples.foo_tree "configs") (readlines content).
Proof.
  apply (output_is_new_true Examples.foo_tree "boards.cfg" "configs" ".").
  vm_compute. reflexivity.
Defined.

Lemma output_is_new_false_witness :
  fs_getctime Examples.edited_tree "boards.cfg" = Raise (OSError ENOENT)
  \/ exists ctime,
       fs_getctime Examples.edited_tree "boards.cfg" = Ok ctime
       /\ ((exists path, In path (defconfig_paths Examples.edited_tree "configs")
                         /\ newer Examples.edited_tree ctime path)
           \/ (exists path, In path (kconfig_paths Examples.edited_tree ".")
                            /\ newer Examples.edited_tree ctime path)
           \/ exists content line,
                fs_open Examples.edited_tree "boards.cfg" = Ok content
                /\ In line (readlines content)
                /\ (contains "Options," line = true
                    \/ stale_line Examples.edited_tree "configs" 6 line)).
Proof.
  apply (output_is_new_false Examples.edited_tree "boards.cfg" "configs" ".").
  vm_compute. reflexivity.
Defined.

End StaleExtras.

(** ** format_and_output: errors, widths and order *)

Module FormatExtras.
Import Boards StringFacts RoundTripFacts.

Lemma widen_cases (params : gmap string string) (fs : list string)
    (max_length : gmap string nat) :
  (forall f, In f fs -> is_Some (max_length !! f)) ->
  match for_each (widen params) fs max_length with
  | Ok m1 =>
      (forall f, In f fs -> is_Some (params !! f))
      /\ forall g,
           m1 !! g
           = (fun old => if existsb (String.eqb g) fs
                         then Nat.max old (String.length (field_of params g))
                         else old) <$> max_length !! g
  | Raise e => exists f, In f fs /\ params !! f = None /\ e = KeyError f
  end.
Proof.
  revert max_length. induction fs as [|f fs IH]; intros m Hm.
  - cbn [for_each existsb]. split; [intros f []|].
    intros g. destruct (m !! g); reflexivity.
  - rewrite for_each_cons. unfold widen at 1, getitem.
    destruct (Hm f (or_introl eq_refl)) as [old Hold]. rewrite Hold.
    cbn [rbind]. destruct (params !! f) as [v|] eqn:Hv; cbn [rbind].
    2:{ exists f. split; [left; reflexivity | split; [assumption|reflexivity]]. }
    set (m' := <[f := Nat.max old (String.length v)]> m).
    assert (Hm' : forall g, In g fs -> is_Some (m' !! g)).
    { intros g Hg. subst m'. destruct (decide (f = g)) as [->|Hne].
      - rewrite lookup_insert_eq. eauto.
      - rewrite lookup_insert_ne by assumption. apply Hm. right. assumption. }
    specialize (IH m' Hm').
    destruct (for_each (widen params) fs m') as [m1|e].
    + destruct IH as [Hp Hget]. split.
      * intros g [<-|Hg]; [rewrite Hv; eauto | apply Hp, Hg].
      * intros g. rewrite Hget. subst m'. cbn [existsb].
        destruct (String.eqb_spec g f) as [->|Hne].
        -- rewrite lookup_insert_eq, Hold. cbn [fmap option_fmap option_map orb].
           unfold field_of. rewrite Hv. cbn [default]. unfold id.
           destruct (existsb _ fs); f_equal; lia.
        -- rewrite lookup_insert_ne by congruence. reflexivity.
    + destruct IH as (g & Hg & Hnone & ->). exists g.
      split; [right; assumption | split; [assumption | reflexivity]].
Qed.

Lemma existsb_field (g : string) :
  In g fields -> existsb (String.eqb g) fields = true.
Proof.
  intros Hg. apply existsb_exists. exists g.
  split; [assumption | apply String.eqb_refl].
Qed.

Lemma column_widths_cases (params_list : list (gmap string string))
    (max_length : gmap string nat) :
  keys_ok max_length ->
  match for_each widen_all params_list max_length with
  | Ok m1 =>
      Forall complete params_list
      /\ forall g, In g fields ->
           m1 !! g
           = (fun old => Nat.max old (longest params_list g))
               <$> max_length !! g
  | Raise e =>
      exists params f,
        In params params_list /\ In f fields /\ params !! f = None
        /\ e = KeyError f
  end.
Proof.
  revert max_length. induction params_list as [|p ps IH]; intros m Hm.
  - cbn [for_each]. split; [constructor|]. intros g Hg.
    destruct (Hm g Hg) as [w ->]. cbn. f_equal. lia.
  - rewrite for_each_cons. unfold widen_all at 1.
    pose proof (widen_cases p fields m Hm) as Hw.
    destruct (for_each (widen p) fields m) as [m'|e]; cbn [rbind].
    2:{ destruct Hw as (f & Hf & Hnone & ->). exists p, f.
        split; [left; reflexivity | auto]. }
    destruct Hw as [Hp Hget].
    assert (Hm' : keys_ok m').
    { intros g Hg. rewrite Hget. destruct (Hm g Hg) as [w ->]. cbn. eauto. }
    specialize (IH m' Hm').
    destruct (for_each widen_all ps m') as [m1|e].
    + destruct IH as [Hall Hget1]. split; [constructor; assumption|].
      intros g Hg. rewrite (Hget1 g Hg), Hget, (existsb_field g Hg).
      destruct (Hm g Hg) as [w ->]. cbn. f_equal.
      unfold longest. cbn [map list_max fold_right].
      fold (list_max (map (fun params => String.length (field_of params g)) ps)).
      lia.
    + destruct IH as (q & f & Hq & Hf & Hnone & ->). exists q, f.
      split; [right; assumption | auto].
Qed.

Lemma initial_keys_ok :
  keys_ok (list_to_map (map (fun f => (f, 0)) fields)).
Proof.
  intros f Hf. cbn in Hf.
  repeat (destruct Hf as [<-|Hf]; [vm_compute; eauto|]). destruct Hf.
Qed.

Lemma add_lines_complete (max_length : gmap string nat)
    (params_list : list (gmap string string)) (acc : list string) :
  keys_ok max_length ->
  Forall complete params_list ->
  for_each (add_line max_length) params_list acc
  = Ok (acc ++ map (line_text max_length) params_list).
Proof.
  intros Hm Hall. revert acc. induction Hall as [|p ps Hp _ IH]; intros acc.
  - cbn [for_each map]. rewrite app_nil_r. reflexivity.
  - rewrite for_each_cons. unfold add_line at 1, format_line.
    rewrite add_columns by (intros f Hf; split; [apply Hm | apply Hp]; exact Hf).
    cbn [rbind]. rewrite IH. cbn [map]. rewrite <- app_assoc. reflexivity.
Qed.

Lemma column_widths_run (params_list : list (gmap string string))
    (max_length : gmap string nat) :
  column_widths params_list = Ok max_length ->
  Forall complete params_list
  /\ forall f, In f fields -> max_length !! f = Some (longest params_list f).
Proof.
  unfold column_widths. intros H.
  pose proof (column_widths_cases params_list _ initial_keys_ok) as Hw.
  rewrite H in Hw. destruct Hw as [Hall Hget]. split; [exact Hall|].
  intros f Hf. rewrite (Hget f Hf). cbn in Hf.
  repeat (destruct Hf as [<-|Hf]; [reflexivity|]). destruct Hf.
Qed.

Section Format.
Variable str_lower : string -> string.
Variable module_file : string.

(** X27: [format_and_output] fails before it opens the output exactly
    when some record lacks one of the nine keys of the database, and then
    with KeyError for a key that a record lacks. When every record holds
    the nine keys the text is computed, and the call ends as opening and
    writing the output with that text ends: an error of the file system
    is passed on. *)
Theorem format_and_output_cases (fs_write : string -> string -> result unit)
    (params_list : list (gmap string string)) (output : string) :
  match format_and_output str_lower module_file params_list with
  | Ok text =>
      Forall complete params_list
      /\ format_and_output_to str_lower module_file fs_write
           params_list output
         = fs_write output text
  | Raise e =>
      (exists params f,
         In params params_list /\ In f fields /\ params !! f = None
         /\ e = KeyError f)
      /\ format_and_output_to str_lower module_file fs_write
           params_list output
         = Raise e
  end.
Proof.
  unfold format_and_output_to, format_and_output, column_widths.
  pose proof (column_widths_cases params_list _ initial_keys_ok) as Hw.
  destruct (for_each widen_all params_list _) as [m|e]; cbn [rbind];
    [|split; [exact Hw | reflexivity]].
  destruct Hw as [Hall Hget].
  rewrite add_lines_complete; [cbn [rbind]; split; [exact Hall | reflexivity]
                              | | exact Hall].
  intros g Hg. rewrite (Hget g Hg).
  destruct (initial_keys_ok g Hg) as [w ->]. cbn. eauto.
Qed.

(** X28: what [format_and_output] writes is the comment block followed by
    one line per record, each ended by a line feed; the lines are those
    of the records rearranged so that their lower-case forms ascend. *)
Theorem written_lines_sorted (params_list : list (gmap string string))
    (text : string) :
  format_and_output str_lower module_file params_list = Ok text ->
  exists max_length lines,
    column_widths params_list = Ok max_length
    /\ Permutation (map (line_text max_length) params_list) lines
    /\ Sorted (fun a b => String.leb (str_lower a) (str_lower b) = true) lines
    /\ text = COMMENT_BLOCK module_file +:+ join NL lines +:+ NL.
Proof.
  intros H. unfold format_and_output in H.
  inv_bind H as m Hm. exists m.
  destruct (column_widths_run _ _ Hm) as [Hall Hget].
  assert (Hk : keys_ok m).
  { intros g Hg. rewrite (Hget g Hg). eauto. }
  rewrite (add_lines_complete m params_list [] Hk Hall) in H.
  cbn [rbind app] in H. injection H as <-.
  exists (sort_by (lower_le str_lower) (map (line_text m) params_list)).
  split; [exact Hm|]. split; [symmetry; apply sort_by_perm|].
  split; [|reflexivity].
  apply (sort_by_Sorted (lower_le str_lower)). intros a b.
  unfold lower_le. apply String.leb_total.
Qed.

End Format.

(** X29: the width that [column_widths] gives a column is the length of
    the longest value of that field among the records, and 0 when there
    is no record. *)
Theorem column_widths_longest (params_list : list (gmap string string))
    (max_length : gmap string nat) (f : string) :
  column_widths params_list = Ok max_length ->
  In f fields ->
  max_length !! f = Some (longest params_list f).
Proof.
  intros H Hf. apply (column_widths_run _ _ H), Hf.
Qed.

Lemma length_append (a b : string) :
  String.length (a +:+ b) = String.length a + String.length b.
Proof.
  induction a as [|c a IH]; [reflexivity|].
  rewrite ScannerFacts.append_cons. cbn [String.length]. rewrite IH.
  reflexivity.
Qed.

Lemma length_of_chars (l : list ascii) :
  String.length (of_chars l) = length l.
Proof.
  induction l as [|c l IH]; [reflexivity|].
  change (of_chars (c :: l)) with (String c (of_chars l)).
  cbn [String.length length]. rewrite IH. reflexivity.
Qed.

Lemma length_row (max_length : gmap string nat)
    (params : gmap string string) (fs : list string) :
  (forall f, In f fs ->
     String.length (field_of params f) <= default 0 (max_length !! f)) ->
  String.length (row max_length params fs)
  = list_sum (map (fun f => 2 + default 0 (max_length !! f)) fs).
Proof.
  induction fs as [|f fs IH]; intros H; [reflexivity|].
  cbn [row map list_sum fold_right]. unfold ljust.
  rewrite !length_append, length_of_chars, repeat_length.
  rewrite IH by (intros g Hg; apply H; right; assumption).
  specialize (H f (or_introl eq_refl)).
  change (String.length "  ") with 2.
  fold (list_sum (map (fun f => 2 + default 0 (max_length !! f)) fs)).
  lia.
Qed.

(** X30: before they are stripped, the lines of all records have the same
    length, two blanks and the width of the column for each of the nine
    fields: every field starts in the same column in every line. *)
Theorem rows_aligned (params_list : list (gmap string string))
    (max_length : gmap string nat) (params : gmap string string) :
  column_widths params_list = Ok max_length ->
  In params params_list ->
  exists line,
    format_line max_length params = Ok line
    /\ String.length line
       = list_sum (map (fun f => 2 + longest params_list f) fields).
Proof.
  intros H Hin. destruct (column_widths_run _ _ H) as [Hall Hget].
  rewrite List.Forall_forall in Hall. specialize (Hall params Hin).
  exists (row max_length params fields). split.
  - unfold format_line. rewrite add_columns; [reflexivity|].
    intros f Hf. split; [rewrite (Hget f Hf); eauto | apply Hall, Hf].
  - rewrite length_row.
    + f_equal. apply map_ext_in. intros f Hf. rewrite (Hget f Hf).
      reflexivity.
    + intros f Hf. rewrite (Hget f Hf). cbn [default]. unfold longest.
      pose proof (proj1 (list_max_le
                    (map (fun p => String.length (field_of p f)) params_list)
                    _) (Nat.le_refl _)) as Hle.
      rewrite List.Forall_forall in Hle. apply Hle.
      apply in_map_iff. exists params. split; [reflexivity | assumption].
Qed.

Lemma written_lines_sorted_witness :
  exists max_length lines,
    column_widths [Examples.zed_params; Examples.foo_params] = Ok max_length
    /\ Permutation (map (line_text max_length)
                        [Examples.zed_params; Examples.foo_params]) lines
    /\ Sorted (fun a b => String.leb (Examples.ascii_lower a)
                                     (Examples.ascii_lower b) = true) lines
    /\ Examples.two_boards_database
       = COMMENT_BLOCK "tools/buildman/boards.py" +:+ join NL lines +:+ NL.
Proof.
  apply (written_lines_sorted Examples.ascii_lower "tools/buildman/boards.py"
           [Examples.zed_params; Examples.foo_params]
           Examples.two_boards_database).
  vm_compute. reflexivity.
Defined.

Lemma column_widths_longest_witness :
  Examples.two_boards_widths !! "maintainers"
  = Some (longest [Examples.zed_params; Examples.foo_params] "maintainers").
Proof.
  apply (column_widths_longest [Examples.zed_params; Examples.foo_params]
           Examples.two_boards_widths "maintainers").
  - vm_compute. reflexivity.
  - vm_compute. tauto.
Defined.

Lemma rows_aligned_witness :
  exists line,
    format_line Examples.two_boards_widths Examples.zed_params = Ok line
    /\ String.length line
       = list_sum (map (fun f => 2 + longest [Examples.zed_params;
                                              Examples.foo_params] f)
                       fields).
Proof.
  apply (rows_aligned [Examples.zed_params; Examples.foo_params]
           Examples.two_boards_widths Examples.zed_params).
  - vm_compute. reflexivity.
  - left. reflexivity.
Defined.

End FormatExtras.
